(** * js-web-renderer: the fetch pipeline and its hard-timeout supervisor

    A shallow embedding of [bin/fetch-rendered.py].  The Selenium driver,
    the filesystem and the clock are external to the program; they are
    represented by an oracle (a [world]) that answers every call the
    program issues, with a duration, a value or an exception, or not at
    all (the call blocks for ever).  The Python functions become
    functions in a state-and-exception monad over a millisecond clock
    and a log of the calls issued and of the text written to stderr and
    stdout. *)

From Stdlib Require Import ZArith Lia SpecFloat Ascii.
From stdpp Require Import base list strings gmap.

Local Open Scope Z_scope.

(** ** Python values and exceptions *)

(** The dynamically typed values that cross the program's interfaces:
    results of [execute_script], log entries, decoded JSON.  A float is
    kept as an IEEE 754 binary64 value of the standard library's
    specification. *)
#[warnings="-register-all"]
Inductive pyval : Type :=
  | PNone
  | PBool (b : bool)
  | PInt (z : Z)
  | PFloat (f : spec_float)
  | PStr (s : string)
  | PList (l : list pyval)
  | PDict (d : list (string * pyval)).

(** Classes of the exceptions the program can meet.  All of them derive
    from [Exception]; [KeyboardInterrupt] and [SystemExit] are not
    modelled. *)
Inductive exn_class : Type :=
  | TimeoutError        (* builtin, raised by the supervisor *)
  | ValueError
  | KeyError
  | TypeError
  | AttributeError
  | IndexError
  | OverflowError
  | OSError
  | JSONDecodeError
  | WebDriverException  (* selenium, every subclass but the next one *)
  | SeTimeoutException. (* selenium.common.exceptions.TimeoutException *)

Record exn : Type := Exn { exn_cls : exn_class; exn_args : list pyval }.

Global Instance exn_class_eq_dec : EqDecision exn_class.
Proof. solve_decision. Defined.

(** Pure computations that may raise. *)
Inductive py (A : Type) : Type :=
  | Ok (a : A)
  | Err (e : exn).
Arguments Ok {A} a.
Arguments Err {A} e.

Definition py_bind {A B} (m : py A) (k : A -> py B) : py B :=
  match m with
  | Ok a => k a
  | Err e => Err e
  end.

Notation "'try!' x <- m ; k" := (py_bind m (fun x => k))
  (at level 20, x name, m at level 100, k at level 200, only parsing).

Definition raise_py {A} (c : exn_class) (args : list pyval) : py A :=
  Err (Exn c args).

(** ** Strings *)

Module Str.

(** ASCII white space as [str.isspace] sees it. *)
Definition is_space (c : ascii) : bool :=
  let n := N_of_ascii c in
  ((9 <=? n) && (n <=? 13) || (28 <=? n) && (n <=? 32))%N.

Fixpoint lstrip (s : string) : string :=
  match s with
  | String c s' => if is_space c then lstrip s' else s
  | EmptyString => EmptyString
  end.

Fixpoint rstrip (s : string) : string :=
  match s with
  | String c s' =>
      match rstrip s' with
      | EmptyString => if is_space c then EmptyString else String c EmptyString
      | r => String c r
      end
  | EmptyString => EmptyString
  end.

(** [s.strip()] *)
Definition strip (s : string) : string := rstrip (lstrip s).

(** [s.startswith(p)] *)
Definition startswith (p s : string) : bool := String.prefix p s.

(** [s.split(sep, 1)] for a non-empty [sep]: [None] when [sep] does
    not occur (Python returns the one-element list [[s]]), otherwise
    the text before and after the first occurrence. *)
Fixpoint split1 (sep s : string) : option (string * string) :=
  if String.prefix sep s
  then Some (EmptyString, String.substring (String.length sep)
                            (String.length s - String.length sep) s)
  else match s with
       | EmptyString => None
       | String c s' =>
           match split1 sep s' with
           | Some (a, b) => Some (String c a, b)
           | None => None
           end
       end.

(** The first field of [s.split()]: the first maximal run of
    non-space characters, if there is one. *)
Fixpoint take_word (s : string) : string :=
  match s with
  | String c s' => if is_space c then EmptyString else String c (take_word s')
  | EmptyString => EmptyString
  end.

Definition first_word (s : string) : option string :=
  match lstrip s with
  | EmptyString => None
  | w => Some (take_word w)
  end.

(** [s[:n]] *)
Definition take (n : nat) (s : string) : string := String.substring 0 n s.

End Str.

(** [int(s)] on a string, for ASCII input: surrounding white space, an
    optional sign, decimal digits, single underscores between digits,
    and no more digits than [sys.int_max_str_digits] allows. *)
Module PyInt.

(** The white space [int] skips in an ASCII string: tab, line feed,
    vertical tab, form feed, carriage return and space.  The four
    separators 28 to 31, which [str.strip] removes, are not among
    them. *)
Definition is_space (c : ascii) : bool :=
  let n := N_of_ascii c in
  ((9 <=? n) && (n <=? 13) || (n =? 32))%N.

Fixpoint lstrip (s : string) : string :=
  match s with
  | String c s' => if is_space c then lstrip s' else s
  | EmptyString => EmptyString
  end.

Fixpoint rstrip (s : string) : string :=
  match s with
  | String c s' =>
      match rstrip s' with
      | EmptyString => if is_space c then EmptyString else String c EmptyString
      | r => String c r
      end
  | EmptyString => EmptyString
  end.

Definition digit (c : ascii) : option Z :=
  let n := N_of_ascii c in
  if ((48 <=? n) && (n <=? 57))%N then Some (Z.of_N n - 48) else None.

(** [digits acc after_digit s]: [after_digit] says that the previous
    character was a digit, so that an underscore may follow. *)
Fixpoint digits (acc : Z) (after_digit : bool) (s : string) : option Z :=
  match s with
  | EmptyString => if after_digit then Some acc else None
  | String c s' =>
      match digit c with
      | Some d => digits (10 * acc + d) true s'
      | None =>
          if (Ascii.eqb c "_" && after_digit)%bool
          then match s' with
               | EmptyString => None
               | _ => digits acc false s'
               end
          else None
      end
  end.

(** The default of [sys.int_max_str_digits]. *)
Definition max_str_digits : N := 4300.

(** The scan of the digits and underscores that [s] begins with:
    [None] for two underscores in a row or an underscore at the end of
    them, otherwise the number of digits among them. *)
Fixpoint scan (n : N) (after_underscore : bool) (s : string) : option N :=
  match s with
  | EmptyString => if after_underscore then None else Some n
  | String c s' =>
      match digit c with
      | Some _ => scan (n + 1)%N false s'
      | None =>
          if Ascii.eqb c "_"
          then if after_underscore then None else scan n true s'
          else if after_underscore then None else Some n
      end
  end.

(** More digits than the limit; the check comes after the scan and
    before what follows the digits is looked at. *)
Definition too_long (s : string) : bool :=
  match s with
  | String "_" _ => false
  | _ => match scan 0 false s with
         | Some n => (max_str_digits <? n)%N
         | None => false
         end
  end.

Definition parse (s : string) : py Z :=
  let body := rstrip (lstrip s) in
  let negative := match body with String "-" _ => true | _ => false end in
  let unsigned := match body with
                  | String "-" s' => s'
                  | String "+" s' => s'
                  | _ => body
                  end in
  if too_long unsigned
  then raise_py ValueError
         [PStr "Exceeds the limit (4300 digits) for integer string conversion"]
  else match digits 0 false unsigned with
       | Some z => Ok (if negative then - z else z)
       | None => raise_py ValueError [PStr s]
       end.

End PyInt.

(** ** Floats: [int(total_timeout * 0.6)]

    Python's [float] is IEEE 754 binary64; the product of an [int] and a
    [float] converts the integer (correctly rounded, [OverflowError]
    when out of range) and multiplies with rounding to nearest even. *)
Module Float.

Definition prec : Z := 53.
Definition emax : Z := 1024.

(** The literals [0.6] and [0.25], as the nearest doubles. *)
Definition c0_6 : spec_float := S754_finite false 5404319552844595 (-53).
Definition c0_25 : spec_float := S754_finite false 4503599627370496 (-54).

Definition mul : spec_float -> spec_float -> spec_float := SFmul prec emax.

(** [float(z)] *)
Definition of_int (z : Z) : py spec_float :=
  match binary_normalize prec emax z 0 false with
  | S754_infinity _ => raise_py OverflowError [PStr "int too large to convert to float"]
  | f => Ok f
  end.

(** [int(f)]: truncation towards zero. *)
Definition to_int (f : spec_float) : py Z :=
  match f with
  | S754_zero _ => Ok 0
  | S754_finite s m e =>
      let a := if 0 <=? e then Z.pos m * 2 ^ e else Z.pos m / 2 ^ (- e) in
      Ok (if s then - a else a)
  | S754_infinity _ => raise_py OverflowError [PStr "cannot convert float infinity to integer"]
  | S754_nan => raise_py ValueError [PStr "cannot convert float NaN to integer"]
  end.

(** [int(n * c)] for an integer [n] and a float constant [c]. *)
Definition int_mul (n : Z) (c : spec_float) : py Z :=
  try! f <- of_int n;
  to_int (mul f c).

End Float.

(** ** Dynamic operations on values *)

(** [bool(v)] *)
Definition truthy (v : pyval) : bool :=
  match v with
  | PNone => false
  | PBool b => b
  | PInt z => negb (z =? 0)
  | PFloat f => negb (SFeqb f (S754_zero false))
  | PStr s => negb (String.eqb s "")
  | PList l => match l with [] => false | _ => true end
  | PDict d => match d with [] => false | _ => true end
  end.

(** Truth of an optional string or list argument: [None] and the empty
    value are both false. *)
Definition truthy_str (o : option string) : bool :=
  match o with
  | Some s => negb (String.eqb s "")
  | None => false
  end.

Definition is_Some_b {A} (o : option A) : bool :=
  match o with Some _ => true | None => false end.

Fixpoint dict_lookup (d : list (string * pyval)) (k : string) : option pyval :=
  match d with
  | [] => None
  | (k', v) :: d' => if String.eqb k' k then Some v else dict_lookup d' k
  end.

(** [v[k]] for a string key [k]. *)
Definition getitem (v : pyval) (k : string) : py pyval :=
  match v with
  | PDict d =>
      match dict_lookup d k with
      | Some x => Ok x
      | None => raise_py KeyError [PStr k]
      end
  | _ => raise_py TypeError [PStr k]
  end.

(** [v.get(k, dflt)]: only a dict has the method. *)
Definition get (v : pyval) (k : string) (dflt : pyval) : py pyval :=
  match v with
  | PDict d => Ok (default dflt (dict_lookup d k))
  | _ => raise_py AttributeError [PStr "get"]
  end.

(** [v == s] for a string literal [s]. *)
Definition eq_str (v : pyval) (s : string) : bool :=
  match v with
  | PStr s' => String.eqb s' s
  | _ => false
  end.

(** The items a [for] loop over [v] visits. *)
Definition iterate (v : pyval) : py (list pyval) :=
  match v with
  | PList l => Ok l
  | PDict d => Ok (map (fun kv => PStr (fst kv)) d)
  | PStr s => Ok (map (fun c => PStr (String c EmptyString)) (String.list_ascii_of_string s))
  | _ => raise_py TypeError [PStr "object is not iterable"]
  end.

(** ** The outside world *)

Inductive chrome_arg : Type :=
  | ArgHeadless
  | ArgNoSandbox
  | ArgDisableDevShmUsage
  | ArgDisableGpu
  | ArgWindowSize (w h : Z)
  | ArgUserDataDir (dir : string).

Record chrome_options : Type := ChromeOptions {
  co_arguments : list chrome_arg;
  (* the capability goog:loggingPrefs, when it was set *)
  co_logging_prefs : option (list (string * string))
}.

(** What the program asks of its environment.  An element found by a
    wait is named by the selector that found it. *)
Inductive call : Type :=
  | MakeDirs (dir : string)                 (* os.makedirs(dir, exist_ok=True) *)
  | NewChrome (o : chrome_options)          (* webdriver.Chrome(service, options) *)
  | SetWindowSize (w : Z) (h : pyval)
  | SetPageLoadTimeout (t : Z)
  | SetScriptTimeout (t : Z)
  | Get (url : string)
  | ExecuteScript (code : string)
  | UntilPresent (selector : string)        (* WebDriverWait(driver, 10).until(presence...) *)
  | UntilClickable (selector : string)      (* WebDriverWait(driver, 10).until(clickable...) *)
  | ElementClear (selector : string)
  | ElementSendKeys (selector value : string)
  | ElementClick (selector : string)
  | PageSource
  | CurrentUrl
  | GetLog (kind : string)
  | SaveScreenshot (path : string)
  | Quit                                    (* driver.quit() *)
  | ProcessKill                             (* driver.service.process.kill() *)
  | Sleep (ms : Z).                         (* time.sleep *)

(** The answer to a call: after [ms] milliseconds a value or an
    exception, or nothing, ever. *)
Inductive reply : Type :=
  | Returns (ms : N) (v : pyval)
  | Raises (ms : N) (e : exn)
  | Blocks.

Record world : Type := World {
  (* the answer to a call, given the calls issued before it *)
  respond : list call -> call -> reply;
  (* json.loads; None stands for JSONDecodeError *)
  json_loads : string -> option pyval;
  (* the lines of /proc/meminfo, or the exception open() raises *)
  proc_meminfo : py (list string);
  (* open(path).read() *)
  read_text : string -> py string;
  (* the scheduler: when the worker thread ends at the very moment the
     join gives up, whether is_alive() finds it ended; given the calls
     issued so far *)
  ended_at_tie : list call -> bool
}.

(** Lines written to stderr, kept structured. *)
Inductive log_line : Type :=
  | LogProfile (dir : string)
  | LogExecJsResult (v : pyval)
  | LogType (selector shown : string) (ellipsis : bool)
  | LogTypeError (selector : string) (e : exn)
  | LogClick (selector : string)
  | LogClickError (selector : string) (e : exn)
  | LogPostJsResult (v : pyval)
  | LogCurrentUrl (v : pyval)
  | LogMemWarn (mb : spec_float)
  | LogTimeout (total_timeout : Z) (url : string)
  | LogUsage
  | LogUrlRequired
  | LogTypeFormat
  | LogScreenshotSaved (path : string)
  | LogTimeoutExit (e : exn)
  | LogErrorFetching (url : string) (e : exn).

(** Lines written to stdout. *)
Inductive out_line : Type :=
  | OutHtml (html : pyval)
  | OutConsoleBanner
  | OutConsoleLogs (lines : list (pyval * pyval))
  | OutNoConsole
  | OutNetworkBanner
  | OutNetworkRequests (lines : list (list pyval))
  | OutNoNetwork.

Inductive event : Type :=
  | EvCall (c : call)
  | EvPrint (l : log_line)
  | EvOut (o : out_line).

(** ** The monad of the program *)

(** The state: the clock in milliseconds and the events so far, oldest
    first, each stamped with the time at which it began. *)
Record st : Type := St { now : Z; events : list (Z * event) }.

Definition calls_of (evs : list (Z * event)) : list call :=
  omap (fun te => match snd te with EvCall c => Some c | _ => None end) evs.

Definition prints_of (evs : list (Z * event)) : list log_line :=
  omap (fun te => match snd te with EvPrint l => Some l | _ => None end) evs.

Definition stdout_of (evs : list (Z * event)) : list out_line :=
  omap (fun te => match snd te with EvOut o => Some o | _ => None end) evs.

Inductive res (A : Type) : Type :=
  | Val (a : A)
  | Exc (e : exn)
  | Hang.   (* control never comes back *)
Arguments Val {A} a.
Arguments Exc {A} e.
Arguments Hang {A}.

Definition M (A : Type) : Type := st -> res A * st.

Definition ret {A} (a : A) : M A := fun s => (Val a, s).

Definition bind {A B} (m : M A) (k : A -> M B) : M B :=
  fun s =>
    match m s with
    | (Val a, s') => k a s'
    | (Exc e, s') => (Exc e, s')
    | (Hang, s') => (Hang, s')
    end.

Notation "'run!' x <- m ; k" := (bind m (fun x => k))
  (at level 20, x name, m at level 100, k at level 200, only parsing).
Notation "'do!' m ; k" := (bind m (fun _ => k))
  (at level 20, m at level 100, k at level 200, only parsing).

Definition raise {A} (e : exn) : M A := fun s => (Exc e, s).

Definition lift {A} (m : py A) : M A :=
  match m with
  | Ok a => ret a
  | Err e => raise e
  end.

Definition record (ev : event) (s : st) : st :=
  St (now s) (events s ++ [(now s, ev)]).

Definition advance (ms : Z) (s : st) : st := St (now s + ms) (events s).

(** [print(..., file=sys.stderr)] *)
Definition print (l : log_line) : M unit := fun s => (Val tt, record (EvPrint l) s).

(** [print(...)], to stdout. *)
Definition say (o : out_line) : M unit := fun s => (Val tt, record (EvOut o) s).

(** [try: m except Exception as e: h e] *)
Definition try_except {A} (m : M A) (h : exn -> M A) : M A :=
  fun s =>
    match m s with
    | (Exc e, s') => h e s'
    | r => r
    end.

(** [try: m finally: f] *)
Definition try_finally {A} (m : M A) (f : M unit) : M A :=
  fun s =>
    match m s with
    | (Hang, s') => (Hang, s')
    | (r, s') =>
        match f s' with
        | (Val _, s'') => (r, s'')
        | (Exc e, s'') => (Exc e, s'')
        | (Hang, s'') => (Hang, s'')
        end
    end.

Fixpoint for_each {A} (l : list A) (body : A -> M unit) : M unit :=
  match l with
  | [] => ret tt
  | x :: l' => do! body x; for_each l' body
  end.

(** A duration in milliseconds that the clock of the interpreter
    holds: in nanoseconds it is a signed 64-bit integer.  Such are the
    whole seconds from -9223372036 to 9223372036. *)
Definition fits_clock (ms : Z) : bool :=
  (- 2 ^ 63 <=? ms * 10 ^ 6) && (ms * 10 ^ 6 <? 2 ^ 63).

(** [time.sleep(seconds)], the duration given in milliseconds: the
    duration is converted first, and then refused if negative. *)
Definition sleep (ms : Z) : M unit :=
  fun s =>
    if negb (fits_clock ms)
    then (Exc (Exn OverflowError [PStr "timestamp too large to convert to C _PyTime_t"]), s)
    else if ms <? 0
    then (Exc (Exn ValueError [PStr "sleep length must be non-negative"]), s)
    else (Val tt, advance ms (record (EvCall (Sleep ms)) s)).

Section Program.

Variable W : world.

(** A call to the environment. *)
Definition ask (c : call) : M pyval :=
  fun s =>
    let s' := record (EvCall c) s in
    match respond W (calls_of (events s)) c with
    | Returns ms v => (Val v, advance (Z.of_N ms) s')
    | Raises ms e => (Exc e, advance (Z.of_N ms) s')
    | Blocks => (Hang, s')
    end.

(** *** [_build_chrome_options] *)

Definition _build_chrome_options (width height : Z)
    (capture_console capture_network : bool) (profile_dir : option string)
    : M chrome_options :=
  let args := [ArgHeadless; ArgNoSandbox; ArgDisableDevShmUsage; ArgDisableGpu;
               ArgWindowSize width height] in
  run! args <-
    match profile_dir with
    | Some dir =>
        if truthy_str profile_dir
        then do! ask (MakeDirs dir);
             do! print (LogProfile dir);
             ret (args ++ [ArgUserDataDir dir])
        else ret args
    | None => ret args
    end;
  let logging_prefs :=
    (if capture_console then [("browser", "ALL")] else []) ++
    (if capture_network then [("performance", "ALL")] else []) in
  ret (ChromeOptions args
         (match logging_prefs with [] => None | _ => Some logging_prefs end)).

(** *** The stages of [_fetch_rendered_inner] *)

(** The keyword arguments of a fetch, each with the default of the
    signature of [_fetch_rendered_inner]; the two sub-timeouts are
    [None] when the caller did not supply them. *)
Record kwargs : Type := Kwargs {
  wait_seconds : Z;
  capture_console : bool;
  screenshot_path : option string;
  width : Z;
  height : Z;
  exec_js : option string;
  post_js : option string;
  capture_network : bool;
  type_actions : option (list (string * string));
  click_actions : option (list string);
  post_wait_seconds : Z;
  profile_dir : option string;
  _page_load_timeout : option Z;
  _script_timeout : option Z
}.

(** The body of the [try] in the loop over [type_actions]. *)
Definition type_attempt (selector value : string) : M unit :=
  do! ask (UntilPresent selector);
  do! ask (ElementClear selector);
  do! ask (ElementSendKeys selector value);
  print (LogType selector (Str.take 20 value) (20 <? String.length value)%nat).

(** One iteration of the loop over [type_actions]. *)
Definition type_action (sv : string * string) : M unit :=
  let '(selector, value) := sv in
  try_except (type_attempt selector value)
    (fun e => print (LogTypeError selector e)).

(** The body of the [try] in the loop over [click_actions]. *)
Definition click_attempt (selector : string) : M unit :=
  do! ask (UntilClickable selector);
  do! ask (ElementClick selector);
  print (LogClick selector).

(** One iteration of the loop over [click_actions]. *)
Definition click_action (selector : string) : M unit :=
  try_except (click_attempt selector)
    (fun e => print (LogClickError selector e)).

(** The body of the [try] inside the loop over the performance log:
    the record appended for [entry], if any. *)
Definition network_entry (entry : pyval) : py (option pyval) :=
  try! raw <- getitem entry "message";
  try! decoded <-
    match raw with
    | PStr text =>
        match json_loads W text with
        | Some v => Ok v
        | None => raise_py JSONDecodeError [raw]
        end
    | _ => raise_py TypeError [PStr "the JSON object must be str, bytes or bytearray"]
    end;
  try! msg <- getitem decoded "message";
  try! method <- get msg "method" (PStr "");
  try! params <- get msg "params" (PDict []);
  if eq_str method "Network.requestWillBeSent" then
    try! req <- get params "request" (PDict []);
    try! url <- get req "url" (PStr "");
    try! meth <- get req "method" (PStr "");
    try! resource_type <- get params "type" (PStr "");
    Ok (Some (PDict [("type", PStr "request"); ("url", url); ("method", meth);
                     ("resource_type", resource_type)]))
  else if eq_str method "Network.responseReceived" then
    try! resp <- get params "response" (PDict []);
    try! url <- get resp "url" (PStr "");
    try! status <- get resp "status" (PInt 0);
    try! mime <- get resp "mimeType" (PStr "");
    try! headers <- get resp "headers" (PDict []);
    Ok (Some (PDict [("type", PStr "response"); ("url", url); ("status", status);
                     ("mime", mime); ("headers", headers)]))
  else Ok None.

(** [except (json.JSONDecodeError, KeyError): continue] *)
Definition skipped (e : exn) : bool :=
  match exn_cls e with
  | JSONDecodeError | KeyError => true
  | _ => false
  end.

(** The loop over the performance log, [network_requests] being the
    list built so far. *)
Fixpoint network_loop (network_requests : list pyval) (entries : list pyval)
    : py (list pyval) :=
  match entries with
  | [] => Ok network_requests
  | entry :: rest =>
      match network_entry entry with
      | Ok (Some r) => network_loop (network_requests ++ [r]) rest
      | Ok None => network_loop network_requests rest
      | Err e => if skipped e then network_loop network_requests rest else Err e
      end
  end.

Definition collect_network (perf_logs : pyval) : py (list pyval) :=
  try! entries <- iterate perf_logs;
  network_loop [] entries.

Definition fetch_result : Type := pyval * pyval * list pyval.

(** The body of the [try] of [_fetch_rendered_inner], from
    [driver.set_window_size] on. *)
Definition stages (url : string) (kw : kwargs) (page_load_timeout script_timeout : Z)
    : M fetch_result :=
  do! ask (SetWindowSize (width kw) (PInt (height kw)));
  do! ask (SetPageLoadTimeout page_load_timeout);
  do! ask (SetScriptTimeout script_timeout);
  do! ask (Get url);
  do! match exec_js kw with
      | Some code =>
          if truthy_str (exec_js kw)
          then run! js_result <- ask (ExecuteScript code);
               match js_result with
               | PNone => ret tt
               | _ => print (LogExecJsResult js_result)
               end
          else ret tt
      | None => ret tt
      end;
  do! sleep (1000 * wait_seconds kw);
  do! match type_actions kw with
      | Some l => for_each l type_action
      | None => ret tt
      end;
  do! match click_actions kw with
      | Some l => for_each l click_action
      | None => ret tt
      end;
  do! match post_js kw with
      | Some code =>
          if truthy_str (post_js kw)
          then run! post_js_result <- ask (ExecuteScript code);
               match post_js_result with
               | PNone => ret tt
               | _ => print (LogPostJsResult post_js_result)
               end
          else ret tt
      | None => ret tt
      end;
  do! (if 0 <? post_wait_seconds kw then sleep (1000 * post_wait_seconds kw) else ret tt);
  run! html <- ask PageSource;
  run! current_url <- ask CurrentUrl;
  do! print (LogCurrentUrl current_url);
  run! console_logs <-
    (if capture_console kw then ask (GetLog "browser") else ret (PList []));
  run! network_requests <-
    (if capture_network kw
     then run! perf_logs <- ask (GetLog "performance");
          lift (collect_network perf_logs)
     else ret []);
  do! match screenshot_path kw with
      | Some path =>
          if truthy_str (screenshot_path kw)
          then run! total_height <- ask (ExecuteScript "return document.body.scrollHeight");
               do! ask (SetWindowSize (width kw) total_height);
               do! sleep 500;
               do! ask (SaveScreenshot path);
               ret tt
          else ret tt
      | None => ret tt
      end;
  ret (html, console_logs, network_requests).

(** The handle on a driver; the program holds at most one. *)
Inductive driver : Type := Driver.

(** The [finally] clause: [if driver and driver_owned: try: driver.quit()
    except Exception: pass]. *)
Definition cleanup (driver : option driver) (driver_owned : bool) : M unit :=
  if is_Some_b driver && driver_owned
  then try_except (do! ask Quit; ret tt) (fun _ => ret tt)
  else ret tt.

(** *** [_fetch_rendered_inner] *)

Definition _fetch_rendered_inner (url : string) (kw : kwargs) (_driver : option driver)
    (page_load_timeout script_timeout : Z) : M fetch_result :=
  run! chrome_options <-
    _build_chrome_options (width kw) (height kw) (capture_console kw)
      (capture_network kw) (profile_dir kw);
  let driver_owned := negb (is_Some_b _driver) in  (* driver_owned = driver is None *)
  match _driver with
  | Some d =>
      try_finally (stages url kw page_load_timeout script_timeout)
        (cleanup (Some d) driver_owned)
  | None =>
      (* the driver is created inside the [try]: when that fails the
         variable is still [None] in the [finally] clause *)
      fun s =>
        match ask (NewChrome chrome_options) s with
        | (Val _, s') =>
            try_finally (stages url kw page_load_timeout script_timeout)
              (cleanup (Some Driver) driver_owned) s'
        | (Exc e, s') => try_finally (raise e) (cleanup None driver_owned) s'
        | (Hang, s') => (Hang, s')
        end
  end.

(** *** The advisory memory check of [fetch_with_timeout] *)

Definition _CHROME_MEM_WARN_MB : spec_float := S754_finite false 4503599627370496 (-43).

(** The loop over the lines of /proc/meminfo. *)
Fixpoint read_meminfo (meminfo : gmap string Z) (lines : list string)
    : py (gmap string Z) :=
  match lines with
  | [] => Ok meminfo
  | line :: rest =>
      match Str.split1 ":" line with
      | None => raise_py ValueError [PStr "not enough values to unpack"]
      | Some (key, val) =>
          match Str.first_word val with
          | None => raise_py IndexError [PStr "list index out of range"]
          | Some w =>
              try! n <- PyInt.parse w;
              read_meminfo (<[Str.strip key := n]> meminfo) rest
          end
      end
  end.

(** [n / 1024] on an integer: the correctly rounded quotient. *)
Definition div_1024 (n : Z) : py spec_float :=
  match binary_normalize Float.prec Float.emax n (-10) false with
  | S754_infinity _ => raise_py OverflowError [PStr "integer division result too large for a float"]
  | f => Ok f
  end.

(** The body of the [try]: the warning to print, if any. *)
Definition mem_warning : py (option log_line) :=
  try! lines <- proc_meminfo W;
  try! meminfo <- read_meminfo ∅ lines;
  let kb := default (default 0 (meminfo !! "MemFree")) (meminfo !! "MemAvailable") in
  try! mem_available_mb <- div_1024 kb;
  if SFltb mem_available_mb _CHROME_MEM_WARN_MB
  then Ok (Some (LogMemWarn mem_available_mb))
  else Ok None.

(** [try: ... except Exception: pass] *)
Definition mem_check : M unit :=
  match mem_warning with
  | Ok (Some warning) => print warning
  | Ok None => ret tt
  | Err _ => ret tt
  end.

(** *** [fetch_with_timeout] *)

(** [threading.TIMEOUT_MAX], in seconds. *)
Definition TIMEOUT_MAX : Z := 9223372036.

(** [thread.is_alive()] after [thread.join(timeout)]: the worker has
    not come back before the deadline.  A worker that comes back at
    the deadline itself is alive or not as the scheduler has it. *)
Definition is_alive {A} (worker : res A * st) (deadline : Z) : bool :=
  match fst worker with
  | Hang => true
  | _ =>
      if now (snd worker) =? deadline
      then negb (ended_at_tie W (calls_of (events (snd worker))))
      else negb (now (snd worker) <? deadline)
  end.

(** What has happened by the deadline: the supervisor's events before
    it started the worker, and the worker's events begun before the
    deadline. *)
Definition at_deadline (start worker : st) (deadline : Z) : st :=
  St deadline
     (events start ++
      filter (fun te => fst te < deadline) (drop (length (events start)) (events worker))).

(** The branch [if thread.is_alive()]. *)
Definition on_timeout {A} (url : string) (total_timeout : Z) : M A :=
  do! print (LogTimeout total_timeout url);
  do! try_except (do! ask ProcessKill; ret tt) (fun _ => ret tt);
  do! try_except (do! ask Quit; ret tt) (fun _ => ret tt);
  raise (Exn TimeoutError [PStr "fetch_rendered() exceeded"; PInt total_timeout; PStr url]).

(** The second half of [fetch_with_timeout], from [thread.start()]
    on: the worker runs [_run], which stores the result or the
    exception of [_fetch_rendered_inner]; the supervisor joins it for
    at most [total_timeout] seconds, a negative timeout counting as 0.
    [thread.join] refuses a timeout above [threading.TIMEOUT_MAX] with
    [OverflowError], at once: the worker is left behind with nothing
    done yet.  What the abandoned worker does after the deadline is
    not recorded. *)
Definition race (url : string) (total_timeout : Z) (kw : kwargs)
    (page_load_timeout script_timeout : Z) : M fetch_result :=
  fun start =>
    let worker :=
      _fetch_rendered_inner url kw (Some Driver) page_load_timeout script_timeout start in
    let deadline := now start + 1000 * Z.max 0 total_timeout in
    if TIMEOUT_MAX <? total_timeout
    then (Exc (Exn OverflowError [PStr "timestamp too large to convert to C _PyTime_t"]), start)
    else if is_alive worker deadline
    then on_timeout url total_timeout (at_deadline start (snd worker) deadline)
    else worker.

(** [int(total_timeout * 0.6)] and [min(15, int(total_timeout * 0.25))],
    the defaults of the two [kwargs.pop]. *)
Definition derived_page_load_timeout (total_timeout : Z) : py Z :=
  Float.int_mul total_timeout Float.c0_6.

Definition derived_script_timeout (total_timeout : Z) : py Z :=
  try! quarter <- Float.int_mul total_timeout Float.c0_25;
  Ok (Z.min 15 quarter).

Definition fetch_with_timeout (url : string) (total_timeout : Z) (kw : kwargs)
    : M fetch_result :=
  do! mem_check;
  run! page_load_default <- lift (derived_page_load_timeout total_timeout);
  let page_load_timeout := default page_load_default (_page_load_timeout kw) in
  run! script_default <- lift (derived_script_timeout total_timeout);
  let script_timeout := default script_default (_script_timeout kw) in
  run! chrome_options <-
    _build_chrome_options (width kw) (height kw) (capture_console kw)
      (capture_network kw) (profile_dir kw);
  do! ask (NewChrome chrome_options);
  race url total_timeout kw page_load_timeout script_timeout.

(** [fetch_rendered] *)
Definition fetch_rendered (url : string) (total_timeout : Z) (kw : kwargs)
    : M fetch_result :=
  fetch_with_timeout url total_timeout kw.

End Program.

(** The defaults of the signature of [_fetch_rendered_inner]. *)
Definition default_kwargs : kwargs :=
  {| wait_seconds := 5; capture_console := false; screenshot_path := None;
     width := 1280; height := 900; exec_js := None; post_js := None;
     capture_network := false; type_actions := None; click_actions := None;
     post_wait_seconds := 0; profile_dir := None;
     _page_load_timeout := None; _script_timeout := None |}.

Definition start_state : st := St 0 [].

(** ** The command line *)

(** The variables of the argument loop of the script. *)
Record cli : Type := Cli {
  cli_url : option string;
  cli_show_console : bool;
  cli_only_console : bool;
  cli_screenshot_path : option string;
  cli_only_screenshot : bool;
  cli_wait_seconds : Z;
  cli_width : Z;
  cli_height : Z;
  cli_exec_js : option string;
  cli_post_js : option string;
  cli_capture_network : bool;
  cli_only_network : bool;
  cli_type_actions : list (string * string);
  cli_click_actions : list string;
  cli_post_wait_seconds : Z;
  cli_profile_dir : option string;
  cli_total_timeout : Z
}.

Definition cli_initial : cli :=
  {| cli_url := None; cli_show_console := false; cli_only_console := false;
     cli_screenshot_path := None; cli_only_screenshot := false;
     cli_wait_seconds := 5; cli_width := 1280; cli_height := 900;
     cli_exec_js := None; cli_post_js := None; cli_capture_network := false;
     cli_only_network := false; cli_type_actions := []; cli_click_actions := [];
     cli_post_wait_seconds := 0; cli_profile_dir := None; cli_total_timeout := 60 |}.

(** Assignments to the variables. *)
Definition set_url (x : option string) (o : cli) : cli :=
  {| cli_url := x; cli_show_console := cli_show_console o;
     cli_only_console := cli_only_console o;
     cli_screenshot_path := cli_screenshot_path o;
     cli_only_screenshot := cli_only_screenshot o;
     cli_wait_seconds := cli_wait_seconds o; cli_width := cli_width o;
     cli_height := cli_height o; cli_exec_js := cli_exec_js o;
     cli_post_js := cli_post_js o; cli_capture_network := cli_capture_network o;
     cli_only_network := cli_only_network o; cli_type_actions := cli_type_actions o;
     cli_click_actions := cli_click_actions o;
     cli_post_wait_seconds := cli_post_wait_seconds o;
     cli_profile_dir := cli_profile_dir o; cli_total_timeout := cli_total_timeout o |}.

Definition set_show_console (x : bool) (o : cli) : cli :=
  {| cli_url := cli_url o; cli_show_console := x;
     cli_only_console := cli_only_console o;
     cli_screenshot_path := cli_screenshot_path o;
     cli_only_screenshot := cli_only_screenshot o;
     cli_wait_seconds := cli_wait_seconds o; cli_width := cli_width o;
     cli_height := cli_height o; cli_exec_js := cli_exec_js o;
     cli_post_js := cli_post_js o; cli_capture_network := cli_capture_network o;
     cli_only_network := cli_only_network o; cli_type_actions := cli_type_actions o;
     cli_click_actions := cli_click_actions o;
     cli_post_wait_seconds := cli_post_wait_seconds o;
     cli_profile_dir := cli_profile_dir o; cli_total_timeout := cli_total_timeout o |}.

Definition set_only_console (x : bool) (o : cli) : cli :=
  {| cli_url := cli_url o; cli_show_console := cli_show_console o;
     cli_only_console := x; cli_screenshot_path := cli_screenshot_path o;
     cli_only_screenshot := cli_only_screenshot o;
     cli_wait_seconds := cli_wait_seconds o; cli_width := cli_width o;
     cli_height := cli_height o; cli_exec_js := cli_exec_js o;
     cli_post_js := cli_post_js o; cli_capture_network := cli_capture_network o;
     cli_only_network := cli_only_network o; cli_type_actions := cli_type_actions o;
     cli_click_actions := cli_click_actions o;
     cli_post_wait_seconds := cli_post_wait_seconds o;
     cli_profile_dir := cli_profile_dir o; cli_total_timeout := cli_total_timeout o |}.

Definition set_screenshot_path (x : option string) (o : cli) : cli :=
  {| cli_url := cli_url o; cli_show_console := cli_show_console o;
     cli_only_console := cli_only_console o; cli_screenshot_path := x;
     cli_only_screenshot := cli_only_screenshot o;
     cli_wait_seconds := cli_wait_seconds o; cli_width := cli_width o;
     cli_height := cli_height o; cli_exec_js := cli_exec_js o;
     cli_post_js := cli_post_js o; cli_capture_network := cli_capture_network o;
     cli_only_network := cli_only_network o; cli_type_actions := cli_type_actions o;
     cli_click_actions := cli_click_actions o;
     cli_post_wait_seconds := cli_post_wait_seconds o;
     cli_profile_dir := cli_profile_dir o; cli_total_timeout := cli_total_timeout o |}.

Definition set_only_screenshot (x : bool) (o : cli) : cli :=
  {| cli_url := cli_url o; cli_show_console := cli_show_console o;
     cli_only_console := cli_only_console o;
     cli_screenshot_path := cli_screenshot_path o; cli_only_screenshot := x;
     cli_wait_seconds := cli_wait_seconds o; cli_width := cli_width o;
     cli_height := cli_height o; cli_exec_js := cli_exec_js o;
     cli_post_js := cli_post_js o; cli_capture_network := cli_capture_network o;
     cli_only_network := cli_only_network o; cli_type_actions := cli_type_actions o;
     cli_click_actions := cli_click_actions o;
     cli_post_wait_seconds := cli_post_wait_seconds o;
     cli_profile_dir := cli_profile_dir o; cli_total_timeout := cli_total_timeout o |}.

Definition set_wait_seconds (x : Z) (o : cli) : cli :=
  {| cli_url := cli_url o; cli_show_console := cli_show_console o;
     cli_only_console := cli_only_console o;
     cli_screenshot_path := cli_screenshot_path o;
     cli_only_screenshot := cli_only_screenshot o; cli_wait_seconds := x;
     cli_width := cli_width o; cli_height := cli_height o;
     cli_exec_js := cli_exec_js o; cli_post_js := cli_post_js o;
     cli_capture_network := cli_capture_network o;
     cli_only_network := cli_only_network o; cli_type_actions := cli_type_actions o;
     cli_click_actions := cli_click_actions o;
     cli_post_wait_seconds := cli_post_wait_seconds o;
     cli_profile_dir := cli_profile_dir o; cli_total_timeout := cli_total_timeout o |}.

Definition set_width (x : Z) (o : cli) : cli :=
  {| cli_url := cli_url o; cli_show_console := cli_show_console o;
     cli_only_console := cli_only_console o;
     cli_screenshot_path := cli_screenshot_path o;
     cli_only_screenshot := cli_only_screenshot o;
     cli_wait_seconds := cli_wait_seconds o; cli_width := x;
     cli_height := cli_height o; cli_exec_js := cli_exec_js o;
     cli_post_js := cli_post_js o; cli_capture_network := cli_capture_network o;
     cli_only_network := cli_only_network o; cli_type_actions := cli_type_actions o;
     cli_click_actions := cli_click_actions o;
     cli_post_wait_seconds := cli_post_wait_seconds o;
     cli_profile_dir := cli_profile_dir o; cli_total_timeout := cli_total_timeout o |}.

Definition set_height (x : Z) (o : cli) : cli :=
  {| cli_url := cli_url o; cli_show_console := cli_show_console o;
     cli_only_console := cli_only_console o;
     cli_screenshot_path := cli_screenshot_path o;
     cli_only_screenshot := cli_only_screenshot o;
     cli_wait_seconds := cli_wait_seconds o; cli_width := cli_width o;
     cli_height := x; cli_exec_js := cli_exec_js o; cli_post_js := cli_post_js o;
     cli_capture_network := cli_capture_network o;
     cli_only_network := cli_only_network o; cli_type_actions := cli_type_actions o;
     cli_click_actions := cli_click_actions o;
     cli_post_wait_seconds := cli_post_wait_seconds o;
     cli_profile_dir := cli_profile_dir o; cli_total_timeout := cli_total_timeout o |}.

Definition set_exec_js (x : option string) (o : cli) : cli :=
  {| cli_url := cli_url o; cli_show_console := cli_show_console o;
     cli_only_console := cli_only_console o;
     cli_screenshot_path := cli_screenshot_path o;
     cli_only_screenshot := cli_only_screenshot o;
     cli_wait_seconds := cli_wait_seconds o; cli_width := cli_width o;
     cli_height := cli_height o; cli_exec_js := x; cli_post_js := cli_post_js o;
     cli_capture_network := cli_capture_network o;
     cli_only_network := cli_only_network o; cli_type_actions := cli_type_actions o;
     cli_click_actions := cli_click_actions o;
     cli_post_wait_seconds := cli_post_wait_seconds o;
     cli_profile_dir := cli_profile_dir o; cli_total_timeout := cli_total_timeout o |}.

Definition set_post_js (x : option string) (o : cli) : cli :=
  {| cli_url := cli_url o; cli_show_console := cli_show_console o;
     cli_only_console := cli_only_console o;
     cli_screenshot_path := cli_screenshot_path o;
     cli_only_screenshot := cli_only_screenshot o;
     cli_wait_seconds := cli_wait_seconds o; cli_width := cli_width o;
     cli_height := cli_height o; cli_exec_js := cli_exec_js o; cli_post_js := x;
     cli_capture_network := cli_capture_network o;
     cli_only_network := cli_only_network o; cli_type_actions := cli_type_actions o;
     cli_click_actions := cli_click_actions o;
     cli_post_wait_seconds := cli_post_wait_seconds o;
     cli_profile_dir := cli_profile_dir o; cli_total_timeout := cli_total_timeout o |}.

Definition set_capture_network (x : bool) (o : cli) : cli :=
  {| cli_url := cli_url o; cli_show_console := cli_show_console o;
     cli_only_console := cli_only_console o;
     cli_screenshot_path := cli_screenshot_path o;
     cli_only_screenshot := cli_only_screenshot o;
     cli_wait_seconds := cli_wait_seconds o; cli_width := cli_width o;
     cli_height := cli_height o; cli_exec_js := cli_exec_js o;
     cli_post_js := cli_post_js o; cli_capture_network := x;
     cli_only_network := cli_only_network o; cli_type_actions := cli_type_actions o;
     cli_click_actions := cli_click_actions o;
     cli_post_wait_seconds := cli_post_wait_seconds o;
     cli_profile_dir := cli_profile_dir o; cli_total_timeout := cli_total_timeout o |}.

Definition set_only_network (x : bool) (o : cli) : cli :=
  {| cli_url := cli_url o; cli_show_console := cli_show_console o;
     cli_only_console := cli_only_console o;
     cli_screenshot_path := cli_screenshot_path o;
     cli_only_screenshot := cli_only_screenshot o;
     cli_wait_seconds := cli_wait_seconds o; cli_width := cli_width o;
     cli_height := cli_height o; cli_exec_js := cli_exec_js o;
     cli_post_js := cli_post_js o; cli_capture_network := cli_capture_network o;
     cli_only_network := x; cli_type_actions := cli_type_actions o;
     cli_click_actions := cli_click_actions o;
     cli_post_wait_seconds := cli_post_wait_seconds o;
     cli_profile_dir := cli_profile_dir o; cli_total_timeout := cli_total_timeout o |}.

Definition set_type_actions (x : list (string * string)) (o : cli) : cli :=
  {| cli_url := cli_url o; cli_show_console := cli_show_console o;
     cli_only_console := cli_only_console o;
     cli_screenshot_path := cli_screenshot_path o;
     cli_only_screenshot := cli_only_screenshot o;
     cli_wait_seconds := cli_wait_seconds o; cli_width := cli_width o;
     cli_height := cli_height o; cli_exec_js := cli_exec_js o;
     cli_post_js := cli_post_js o; cli_capture_network := cli_capture_network o;
     cli_only_network := cli_only_network o; cli_type_actions := x;
     cli_click_actions := cli_click_actions o;
     cli_post_wait_seconds := cli_post_wait_seconds o;
     cli_profile_dir := cli_profile_dir o; cli_total_timeout := cli_total_timeout o |}.

Definition set_click_actions (x : list string) (o : cli) : cli :=
  {| cli_url := cli_url o; cli_show_console := cli_show_console o;
     cli_only_console := cli_only_console o;
     cli_screenshot_path := cli_screenshot_path o;
     cli_only_screenshot := cli_only_screenshot o;
     cli_wait_seconds := cli_wait_seconds o; cli_width := cli_width o;
     cli_height := cli_height o; cli_exec_js := cli_exec_js o;
     cli_post_js := cli_post_js o; cli_capture_network := cli_capture_network o;
     cli_only_network := cli_only_network o; cli_type_actions := cli_type_actions o;
     cli_click_actions := x; cli_post_wait_seconds := cli_post_wait_seconds o;
     cli_profile_dir := cli_profile_dir o; cli_total_timeout := cli_total_timeout o |}.

Definition set_post_wait_seconds (x : Z) (o : cli) : cli :=
  {| cli_url := cli_url o; cli_show_console := cli_show_console o;
     cli_only_console := cli_only_console o;
     cli_screenshot_path := cli_screenshot_path o;
     cli_only_screenshot := cli_only_screenshot o;
     cli_wait_seconds := cli_wait_seconds o; cli_width := cli_width o;
     cli_height := cli_height o; cli_exec_js := cli_exec_js o;
     cli_post_js := cli_post_js o; cli_capture_network := cli_capture_network o;
     cli_only_network := cli_only_network o; cli_type_actions := cli_type_actions o;
     cli_click_actions := cli_click_actions o; cli_post_wait_seconds := x;
     cli_profile_dir := cli_profile_dir o; cli_total_timeout := cli_total_timeout o |}.

Definition set_profile_dir (x : option string) (o : cli) : cli :=
  {| cli_url := cli_url o; cli_show_console := cli_show_console o;
     cli_only_console := cli_only_console o;
     cli_screenshot_path := cli_screenshot_path o;
     cli_only_screenshot := cli_only_screenshot o;
     cli_wait_seconds := cli_wait_seconds o; cli_width := cli_width o;
     cli_height := cli_height o; cli_exec_js := cli_exec_js o;
     cli_post_js := cli_post_js o; cli_capture_network := cli_capture_network o;
     cli_only_network := cli_only_network o; cli_type_actions := cli_type_actions o;
     cli_click_actions := cli_click_actions o;
     cli_post_wait_seconds := cli_post_wait_seconds o; cli_profile_dir := x;
     cli_total_timeout := cli_total_timeout o |}.

Definition set_total_timeout (x : Z) (o : cli) : cli :=
  {| cli_url := cli_url o; cli_show_console := cli_show_console o;
     cli_only_console := cli_only_console o;
     cli_screenshot_path := cli_screenshot_path o;
     cli_only_screenshot := cli_only_screenshot o;
     cli_wait_seconds := cli_wait_seconds o; cli_width := cli_width o;
     cli_height := cli_height o; cli_exec_js := cli_exec_js o;
     cli_post_js := cli_post_js o; cli_capture_network := cli_capture_network o;
     cli_only_network := cli_only_network o; cli_type_actions := cli_type_actions o;
     cli_click_actions := cli_click_actions o;
     cli_post_wait_seconds := cli_post_wait_seconds o;
     cli_profile_dir := cli_profile_dir o; cli_total_timeout := x |}.

(** [format_console_logs]: level and message of each entry. *)
Fixpoint console_lines (entries : list pyval) : py (list (pyval * pyval)) :=
  match entries with
  | [] => Ok []
  | entry :: rest =>
      try! level <- get entry "level" (PStr "INFO");
      try! message <- get entry "message" (PStr "");
      try! output <- console_lines rest;
      Ok ((level, message) :: output)
  end.

Definition format_console_logs (logs : pyval) : py (list (pyval * pyval)) :=
  try! entries <- iterate logs;
  console_lines entries.

(** [format_network_requests]: the fields shown for each entry. *)
Fixpoint network_lines (entries : list pyval) : py (list (list pyval)) :=
  match entries with
  | [] => Ok []
  | entry :: rest =>
      try! type <- getitem entry "type";
      try! line <-
        (if eq_str type "request" then
           try! meth <- getitem entry "method";
           try! url <- getitem entry "url";
           try! resource_type <- getitem entry "resource_type";
           Ok [[meth; url; resource_type]]
         else if eq_str type "response" then
           try! headers <- get entry "headers" (PDict []);
           try! headers' <- get entry "headers" (PDict []);
           try! fallback <- get headers' "Location" (PStr "");
           try! location <- get headers "location" fallback;
           try! status <- getitem entry "status";
           try! mime <- getitem entry "mime";
           try! url <- getitem entry "url";
           Ok [if truthy location then [status; mime; url; location] else [status; mime; url]]
         else Ok []);
      try! output <- network_lines rest;
      Ok (line ++ output)
  end.

Definition format_network_requests (requests : list pyval) : py (list (list pyval)) :=
  network_lines requests.

Section Script.

Variable W : world.

(** The [while] loop over [sys.argv], from index 1. *)
Fixpoint parse_args (args : list string) (o : cli) : M cli :=
  match args with
  | [] => ret o
  | arg :: rest =>
      if String.eqb arg "--console" || String.eqb arg "-c" then
        parse_args rest (set_show_console true o)
      else if String.eqb arg "--only-console" then
        parse_args rest (set_only_console true (set_show_console true o))
      else match String.eqb arg "--screenshot", rest with
      | true, v :: rest' =>
          parse_args rest' (set_screenshot_path (Some v) o)
      | _, _ =>
      if String.eqb arg "--only-screenshot" then
        parse_args rest (set_only_screenshot true o)
      else match String.eqb arg "--wait", rest with
      | true, v :: rest' =>
          run! n <- lift (PyInt.parse v);
          parse_args rest' (set_wait_seconds n o)
      | _, _ =>
      match String.eqb arg "--width", rest with
      | true, v :: rest' =>
          run! n <- lift (PyInt.parse v);
          parse_args rest' (set_width n o)
      | _, _ =>
      match String.eqb arg "--height", rest with
      | true, v :: rest' =>
          run! n <- lift (PyInt.parse v);
          parse_args rest' (set_height n o)
      | _, _ =>
      match String.eqb arg "--exec-js", rest with
      | true, v :: rest' =>
          parse_args rest' (set_exec_js (Some v) o)
      | _, _ =>
      match String.eqb arg "--exec-js-file", rest with
      | true, v :: rest' =>
          run! text <- lift (read_text W v);
          parse_args rest' (set_exec_js (Some text) o)
      | _, _ =>
      match String.eqb arg "--post-js", rest with
      | true, v :: rest' =>
          parse_args rest' (set_post_js (Some v) o)
      | _, _ =>
      match String.eqb arg "--post-js-file", rest with
      | true, v :: rest' =>
          run! text <- lift (read_text W v);
          parse_args rest' (set_post_js (Some text) o)
      | _, _ =>
      match String.eqb arg "--post-wait", rest with
      | true, v :: rest' =>
          run! n <- lift (PyInt.parse v);
          parse_args rest' (set_post_wait_seconds n o)
      | _, _ =>
      if String.eqb arg "--network-log" then
        parse_args rest (set_capture_network true o)
      else if String.eqb arg "--only-network" then
        parse_args rest (set_only_network true (set_capture_network true o))
      else match String.eqb arg "--type", rest with
      | true, v :: rest' =>
          match Str.split1 "::" v with
          | Some (selector, value) =>
              parse_args rest' (set_type_actions (cli_type_actions o ++ [(selector, value)]) o)
          | None => do! print LogTypeFormat; parse_args rest' o
          end
      | _, _ =>
      match String.eqb arg "--click", rest with
      | true, v :: rest' =>
          parse_args rest' (set_click_actions (cli_click_actions o ++ [v]) o)
      | _, _ =>
      match String.eqb arg "--profile", rest with
      | true, v :: rest' =>
          parse_args rest' (set_profile_dir (Some v) o)
      | _, _ =>
      match String.eqb arg "--timeout", rest with
      | true, v :: rest' =>
          run! n <- lift (PyInt.parse v);
          parse_args rest' (set_total_timeout n o)
      | _, _ =>
      if negb (Str.startswith "-" arg) then
        parse_args rest (set_url (Some arg) o)
      else parse_args rest o
      end end end end end end end end end end end end end
  end.

Definition kwargs_of_cli (o : cli) (screenshot_path : option string) : kwargs :=
  {| wait_seconds := cli_wait_seconds o;
     capture_console := cli_show_console o || cli_only_console o;
     screenshot_path := screenshot_path;
     width := cli_width o;
     height := cli_height o;
     exec_js := cli_exec_js o;
     post_js := cli_post_js o;
     capture_network := cli_capture_network o;
     type_actions := match cli_type_actions o with [] => None | l => Some l end;
     click_actions := match cli_click_actions o with [] => None | l => Some l end;
     post_wait_seconds := cli_post_wait_seconds o;
     profile_dir := cli_profile_dir o;
     _page_load_timeout := None;
     _script_timeout := None |}.

(** What the script prints once the fetch has returned. *)
Definition report (o : cli) (screenshot_path : option string) (r : fetch_result)
    : M unit :=
  let '(html, console_logs, network_requests) := r in
  do! (if truthy_str screenshot_path
       then print (LogScreenshotSaved (default "" screenshot_path))
       else ret tt);
  if cli_only_screenshot o then ret tt
  else if cli_only_network o then
    match network_requests with
    | [] => say OutNoNetwork
    | _ => run! lines <- lift (format_network_requests network_requests);
           say (OutNetworkRequests lines)
    end
  else if cli_only_console o then
    if truthy console_logs
    then run! lines <- lift (format_console_logs console_logs);
         say (OutConsoleLogs lines)
    else say OutNoConsole
  else
    do! say (OutHtml html);
    do! (if cli_show_console o && truthy console_logs
         then do! say OutConsoleBanner;
              run! lines <- lift (format_console_logs console_logs);
              say (OutConsoleLogs lines)
         else ret tt);
    if cli_capture_network o && match network_requests with [] => false | _ => true end
    then do! say OutNetworkBanner;
         run! lines <- lift (format_network_requests network_requests);
         say (OutNetworkRequests lines)
    else ret tt.

(** The exit status of the process.  An exception that nothing catches
    ends the interpreter with status 1. *)
Definition uncaught (m : M Z) : M Z :=
  try_except m (fun _ => ret 1).

(** The script, [argv] being [sys.argv]. *)
Definition main (argv : list string) : M Z :=
  uncaught
    (match argv with
     | [] | [_] => do! print LogUsage; ret 1
     | _ :: first :: _ =>
         if String.eqb first "-h" || String.eqb first "--help"
         then do! print LogUsage; ret 0
         else
           run! o <- parse_args (tail argv) cli_initial;
           if negb (truthy_str (cli_url o))
           then do! print LogUrlRequired; ret 1
           else
             let url := default "" (cli_url o) in
             let screenshot_path :=
               if cli_only_screenshot o && negb (truthy_str (cli_screenshot_path o))
               then Some "/tmp/screenshot.png"
               else cli_screenshot_path o in
             try_except
               (run! r <- fetch_with_timeout W url (cli_total_timeout o)
                            (kwargs_of_cli o screenshot_path);
                do! report o screenshot_path r;
                ret 0)
               (fun e =>
                  match exn_cls e with
                  | TimeoutError => do! print (LogTimeoutExit e); ret 2
                  | _ => do! print (LogErrorFetching url e); ret 1
                  end)
    end).

End Script.

(** * What the theorems speak of *)

(** ** Reasoning about runs *)

Definition is_val {A} (r : res A) : Prop :=
  match r with Val _ => True | _ => False end.

(** *** Plans

    [emits m P]: whatever [m] does, the calls it issues are an initial
    segment of a call sequence allowed by [P], and the whole of it when
    [m] returns a value. *)
Definition emits {A} (m : M A) (P : list call -> Prop) : Prop :=
  forall s r s', m s = (r, s') ->
    exists ev p, events s' = events s ++ ev /\ P p /\
                 calls_of ev `prefix_of` p /\ (is_val r -> calls_of ev = p).

Definition exactly (p : list call) : list call -> Prop := fun l => l = p.

Definition then_ (P Q : list call -> Prop) : list call -> Prop :=
  fun l => exists l1 l2, l = l1 ++ l2 /\ P l1 /\ Q l2.

Infix ";;;" := then_ (at level 61, left associativity).

(** The calls of one type action: the wait, then [clear] and
    [send_keys] as far as the action got. *)
Definition type_segment (sv : string * string) (l : list call) : Prop :=
  l = [UntilPresent sv.1] \/
  l = [UntilPresent sv.1; ElementClear sv.1] \/
  l = [UntilPresent sv.1; ElementClear sv.1; ElementSendKeys sv.1 sv.2].

Definition click_segment (selector : string) (l : list call) : Prop :=
  l = [UntilClickable selector] \/
  l = [UntilClickable selector; ElementClick selector].

(** One segment for each item, in the order of the items. *)
Definition segments {A} (R : A -> list call -> Prop) (items : list A)
    (l : list call) : Prop :=
  exists segs, Forall2 R items segs /\ l = concat segs.

(** *** The plan of [_fetch_rendered_inner] *)

Definition script_plan (code : option string) : list call :=
  match code with
  | Some c => if truthy_str code then [ExecuteScript c] else []
  | None => []
  end.

Definition post_wait_plan (kw : kwargs) : list call :=
  if 0 <? post_wait_seconds kw then [Sleep (1000 * post_wait_seconds kw)] else [].

Definition console_plan (kw : kwargs) : list call :=
  if capture_console kw then [GetLog "browser"] else [].

Definition network_plan (kw : kwargs) : list call :=
  if capture_network kw then [GetLog "performance"] else [].

Definition screenshot_plan (kw : kwargs) (total_height : pyval) : list call :=
  match screenshot_path kw with
  | Some path =>
      if truthy_str (screenshot_path kw)
      then [ExecuteScript "return document.body.scrollHeight";
            SetWindowSize (width kw) total_height; Sleep 500; SaveScreenshot path]
      else []
  | None => []
  end.

(** The call sequences of a complete run of the stages: the order is
    fixed, the configuration decides which optional stages are there. *)
Definition stage_plan (url : string) (kw : kwargs) (page_load_timeout script_timeout : Z)
    (p : list call) : Prop :=
  exists types clicks total_height,
    segments type_segment (default [] (type_actions kw)) types /\
    segments click_segment (default [] (click_actions kw)) clicks /\
    p = [SetWindowSize (width kw) (PInt (height kw));
         SetPageLoadTimeout page_load_timeout; SetScriptTimeout script_timeout]
        ++ [Get url]
        ++ script_plan (exec_js kw)
        ++ [Sleep (1000 * wait_seconds kw)]
        ++ types
        ++ clicks
        ++ script_plan (post_js kw)
        ++ post_wait_plan kw
        ++ [PageSource; CurrentUrl]
        ++ console_plan kw
        ++ network_plan kw
        ++ screenshot_plan kw total_height.

(** *** Independence of what was printed before

    A computation sees of its initial state the clock and the calls
    issued so far, nothing else: from two states that agree on these it
    gives the same result at the same time, and adds the same events. *)
Definition agree (s1 s2 : st) : Prop :=
  now s1 = now s2 /\ calls_of (events s1) = calls_of (events s2).

Definition uniform {A} (m : M A) : Prop :=
  forall s1 s2, agree s1 s2 ->
    exists r t ev, m s1 = (r, St t (events s1 ++ ev)) /\ m s2 = (r, St t (events s2 ++ ev)).

(** *** Runs that return *)

Definition returns {A} (m : M A) : Prop := forall s, exists a s', m s = (Val a, s').

(** The calls that act on the page for a type or click action. *)
Definition interaction (c : call) : bool :=
  match c with
  | UntilPresent _ | UntilClickable _ | ElementClear _ | ElementSendKeys _ _
  | ElementClick _ => true
  | _ => false
  end.

(** *** The pipeline as a whole *)

Definition profile_plan (profile_dir : option string) : list call :=
  match profile_dir with
  | Some dir => if truthy_str profile_dir then [MakeDirs dir] else []
  | None => []
  end.

Definition worker_plan (url : string) (kw : kwargs) (plt sct : Z) : list call -> Prop :=
  exactly (profile_plan (profile_dir kw)) ;;; stage_plan url kw plt sct.

(** *** Counting calls *)

Fixpoint count_calls (f : call -> bool) (l : list call) : nat :=
  match l with
  | [] => 0
  | c :: l' => (if f c then 1 else 0) + count_calls f l'
  end.

(** The three reads of the collection stage. *)
Definition reads_source (c : call) : bool :=
  match c with PageSource => true | _ => false end.

Definition reads_console (c : call) : bool :=
  match c with GetLog kind => String.eqb kind "browser" | _ => false end.

Definition reads_network (c : call) : bool :=
  match c with GetLog kind => String.eqb kind "performance" | _ => false end.

(** The calls that end the driver. *)
Definition destroys (c : call) : bool :=
  match c with Quit | ProcessKill => true | _ => false end.

(** *** The supervisor *)

(** The exception of the timeout branch. *)
Definition timeout_error (total_timeout : Z) (url : string) : exn :=
  Exn TimeoutError [PStr "fetch_rendered() exceeded"; PInt total_timeout; PStr url].

(** The time a reply takes, if it comes. *)
Definition answered (r : reply) : option Z :=
  match r with
  | Returns ms _ | Raises ms _ => Some (Z.of_N ms)
  | Blocks => None
  end.

(** *** What a run issues

    [issues m P]: the calls a run of [m] adds satisfy [P], which is
    told whether the run returned a value. *)
Definition returned {A} (r : res A) : bool :=
  match r with Val _ => true | _ => false end.

Definition issues {A} (m : M A) (P : bool -> list call -> Prop) : Prop :=
  forall s r s', m s = (r, s') ->
    exists ev, events s' = events s ++ ev /\ P (returned r) (calls_of ev).

(** What [race] issues: the calls of the worker when it comes back
    in time; otherwise some of the worker's calls, then the kill and
    the quit, and no value. *)
Definition race_calls (url : string) (kw : kwargs) (v : bool) (l : list call) : Prop :=
  exists p plt sct, worker_plan url kw plt sct p /\
    ((l `prefix_of` p /\ (v = true -> l = p)) \/
     (v = false /\ exists seen final,
         l = seen ++ final /\
         (forall f, count_calls f seen <= count_calls f p)%nat /\
         (final = [ProcessKill] \/ final = [ProcessKill; Quit]))).

(** What [fetch_with_timeout] issues: the launch of the driver, then
    what [race] issues. *)
Definition fetch_calls (url : string) (kw : kwargs) (v : bool) (l : list call) : Prop :=
  (v = false /\ exists o, l `prefix_of` profile_plan (profile_dir kw) ++ [NewChrome o]) \/
  (exists o l', l = profile_plan (profile_dir kw) ++ [NewChrome o] ++ l' /\
                race_calls url kw v l').

(** ** Example worlds *)

(** A backend that answers every call at once. *)
Definition quick_reply (c : call) : reply :=
  match c with
  | PageSource => Returns 0%N (PStr "<html><body>ok</body></html>")
  | CurrentUrl => Returns 0%N (PStr "http://example/")
  | GetLog _ => Returns 0%N (PList [])
  | ExecuteScript _ => Returns 0%N (PInt 2000)
  | _ => Returns 0%N PNone
  end.

Definition quick_world : world :=
  {| respond := fun _ c => quick_reply c;
     json_loads := fun _ => None;
     proc_meminfo := Ok ["MemTotal:       16384256 kB"; "MemAvailable:    8192000 kB"];
     read_text := fun _ => raise_py OSError [];
     ended_at_tie := fun _ => false |}.

(** The same, but the element [#missing] never appears: the wait for it
    gives up after its ten seconds. *)
Definition missing_field_world : world :=
  {| respond := fun _ c =>
       match c with
       | UntilPresent "#missing" => Raises 10000%N (Exn SeTimeoutException [])
       | _ => quick_reply c
       end;
     json_loads := fun _ => None;
     proc_meminfo := Ok [];
     read_text := fun _ => raise_py OSError [];
     ended_at_tie := fun _ => false |}.

(** The driver takes two minutes to start, and the page never loads. *)
Definition slow_launch_world : world :=
  {| respond := fun _ c =>
       match c with
       | NewChrome _ => Returns 120000%N PNone
       | Get _ => Blocks
       | _ => quick_reply c
       end;
     json_loads := fun _ => None;
     proc_meminfo := Ok [];
     read_text := fun _ => raise_py OSError [];
     ended_at_tie := fun _ => false |}.

(** The driver never starts. *)
Definition stalled_launch_world : world :=
  {| respond := fun _ c =>
       match c with
       | NewChrome _ => Blocks
       | _ => quick_reply c
       end;
     json_loads := fun _ => None;
     proc_meminfo := Ok [];
     read_text := fun _ => raise_py OSError [];
     ended_at_tie := fun _ => false |}.

(** The page never loads, and [driver.quit()] never comes back. *)
Definition stuck_quit_world : world :=
  {| respond := fun _ c =>
       match c with
       | Get _ => Blocks
       | Quit => Blocks
       | _ => quick_reply c
       end;
     json_loads := fun _ => None;
     proc_meminfo := Ok [];
     read_text := fun _ => raise_py OSError [];
     ended_at_tie := fun _ => false |}.

Definition no_wait : kwargs :=
  {| wait_seconds := 0; capture_console := false; screenshot_path := None;
     width := 1280; height := 900; exec_js := None; post_js := None;
     capture_network := false; type_actions := None; click_actions := None;
     post_wait_seconds := 0; profile_dir := None;
     _page_load_timeout := None; _script_timeout := None |}.

Definition type_missing : kwargs :=
  {| wait_seconds := 0; capture_console := false; screenshot_path := None;
     width := 1280; height := 900; exec_js := None; post_js := None;
     capture_network := false; type_actions := Some [("#missing", "hello")];
     click_actions := None;
     post_wait_seconds := 0; profile_dir := None;
     _page_load_timeout := None; _script_timeout := None |}.

Definition healthy (W : world) : Prop :=
  (forall h c, interaction c = false -> exists ms v, respond W h c = Returns ms v) /\
  (forall h c, interaction c = true -> respond W h c <> Blocks) /\
  (forall h ms v, respond W h (GetLog "performance") = Returns ms v ->
     exists l, collect_network W v = Ok l).

(** The calls that open the session. *)
Definition launches (c : call) : bool :=
  match c with MakeDirs _ | NewChrome _ => true | _ => false end.

(** The same world with another /proc/meminfo. *)
Definition with_meminfo (W : world) (meminfo : py (list string)) : world :=
  {| respond := respond W; json_loads := json_loads W;
     proc_meminfo := meminfo; read_text := read_text W;
     ended_at_tie := ended_at_tie W |}.

Definition is_mem_warning (te : Z * event) : bool :=
  match te.2 with
  | EvPrint (LogMemWarn _) => true
  | _ => false
  end.

(** The events but for the warning of the memory check. *)
Definition besides_mem_warning (evs : list (Z * event)) : list (Z * event) :=
  List.filter (fun te => negb (is_mem_warning te)) evs.

(** [fetch_with_timeout] after its memory check. *)
Definition after_mem_check (W : world) (url : string) (total_timeout : Z) (kw : kwargs)
    : M fetch_result :=
  run! page_load_default <- lift (derived_page_load_timeout total_timeout);
  let page_load_timeout := default page_load_default (_page_load_timeout kw) in
  run! script_default <- lift (derived_script_timeout total_timeout);
  let script_timeout := default script_default (_script_timeout kw) in
  run! chrome_options <-
    _build_chrome_options W (width kw) (height kw) (capture_console kw)
      (capture_network kw) (profile_dir kw);
  do! ask W (NewChrome chrome_options);
  race W url total_timeout kw page_load_timeout script_timeout.

(** ** The network log *)

(** The record [entry] contributes to [network_requests], if any. *)
Definition record_of (W : world) (entry : pyval) : option pyval :=
  match network_entry W entry with
  | Ok (Some r) => Some r
  | _ => None
  end.

(** A world whose [json.loads] knows two texts, standing for a
    request event and a response event of the performance log. *)
Definition request_event : pyval :=
  PDict [("message",
          PDict [("method", PStr "Network.requestWillBeSent");
                 ("params",
                  PDict [("request", PDict [("url", PStr "http://example/");
                                            ("method", PStr "GET")]);
                         ("type", PStr "Document")])])].

Definition response_event : pyval :=
  PDict [("message",
          PDict [("method", PStr "Network.responseReceived");
                 ("params",
                  PDict [("response", PDict [("url", PStr "http://example/");
                                             ("status", PInt 200);
                                             ("mimeType", PStr "text/html")])])])].

Definition logging_world : world :=
  {| respond := fun _ c =>
       match c with
       | GetLog "performance" =>
           Returns 0 (PList [PDict [("message", PStr "request")];
                             PDict [("message", PStr "{truncated")];
                             PDict [("level", PStr "INFO")];
                             PDict [("message", PStr "response")]])
       | _ => quick_reply c
       end;
     json_loads := fun text =>
       if String.eqb text "request" then Some request_event
       else if String.eqb text "response" then Some response_event
       else None;
     proc_meminfo := Ok [];
     read_text := fun _ => raise_py OSError [];
     ended_at_tie := fun _ => false |}.

(** ** The exit status *)

(** The status with which a run of the script ends, if it ends. *)
Definition exit_status (run : res Z * st) : option Z :=
  match run.1 with
  | Val status => Some status
  | _ => None
  end.

(** The first argument asks for the usage text. *)
Definition asks_help (argv : list string) : bool :=
  match argv with
  | _ :: first :: _ => String.eqb first "-h" || String.eqb first "--help"
  | _ => false
  end.

(** The path [main] passes as [screenshot_path]. *)
Definition cli_screenshot (o : cli) : option string :=
  if cli_only_screenshot o && negb (truthy_str (cli_screenshot_path o))
  then Some "/tmp/screenshot.png"
  else cli_screenshot_path o.

(** The fetch [main] runs for the parsed command line [o]. *)
Definition cli_fetch (W : world) (o : cli) : M fetch_result :=
  fetch_with_timeout W (default "" (cli_url o)) (cli_total_timeout o)
    (kwargs_of_cli o (cli_screenshot o)).

(** Rounding [m / 2^n] to the nearest integer, ties to even. *)
Definition round_even (m n : Z) : Z :=
  let q := m / 2 ^ n in
  if Z.odd (m / 2 ^ (n - 1)) && (negb (m mod 2 ^ (n - 1) =? 0) || Z.odd q)
  then q + 1 else q.

(** As the specification words the sub-timeouts:
    [round(0.6 * total)] and [min(15, round(0.25 * total))], [round]
    being Python's, on the exact products. *)
Definition round_half_even (num den : Z) : Z :=
  let q := num / den in
  let r := num mod den in
  if 2 * r <? den then q
  else if den <? 2 * r then q + 1
  else if Z.even q then q else q + 1.

Definition spec_page_load_timeout (total : Z) : Z := round_half_even (6 * total) 10.

Definition spec_script_timeout (total : Z) : Z :=
  Z.min 15 (round_half_even (25 * total) 100).

(** ** The clock and stdout *)

(** [steady m]: a run of [m] does not set the clock back, only adds
    events, and writes nothing to stdout. *)
Definition steady {A} (m : M A) : Prop :=
  forall s r s', m s = (r, s') ->
    now s <= now s' /\ exists ev, events s' = events s ++ ev /\ stdout_of ev = [].

(** A computation that never returns a value. *)
Definition fruitless {A} (m : M A) : Prop := forall s, ~ is_val (m s).1.

(** ** Deadlines and waits that cannot be met *)

(** [wait_seconds=-1], everything else as in [no_wait]. *)
Definition minus_one_wait : kwargs :=
  {| wait_seconds := -1; capture_console := false; screenshot_path := None;
     width := 1280; height := 900; exec_js := None; post_js := None;
     capture_network := false; type_actions := None; click_actions := None;
     post_wait_seconds := 0; profile_dir := None;
     _page_load_timeout := None; _script_timeout := None |}.

(** A backend that takes a millisecond over every answer, and a
    scheduler that lets the worker end first whenever it can. *)
Definition paced_world : world :=
  {| respond := fun _ c =>
       match quick_reply c with
       | Returns _ v => Returns 1%N v
       | r => r
       end;
     json_loads := fun _ => None;
     proc_meminfo := Ok [];
     read_text := fun _ => raise_py OSError [];
     ended_at_tie := fun _ => true |}.

(** No call is answered in less than a millisecond. *)
Definition takes_time (W : world) : Prop :=
  forall h c, answered (respond W h c) <> Some 0.

(** ** What reaches stdout *)

(** The lines of stdout that belong to the console log and to the
    network log. *)
Definition about_console (l : out_line) : bool :=
  match l with
  | OutConsoleBanner | OutConsoleLogs _ | OutNoConsole => true
  | _ => false
  end.

Definition about_network (l : out_line) : bool :=
  match l with
  | OutNetworkBanner | OutNetworkRequests _ | OutNoNetwork => true
  | _ => false
  end.

(** What a run wrote to stdout. *)
Definition written {A} (run : res A * st) (s : st) : list out_line :=
  drop (length (stdout_of (events s))) (stdout_of (events run.2)).

(** ** The profile directory and the driver of the pipeline *)

(** [os.makedirs(dir, exist_ok=True)] for this [dir]. *)
Definition makes_dir (dir : string) (c : call) : bool :=
  match c with MakeDirs d => String.eqb d dir | _ => false end.

(** [webdriver.Chrome(...)] *)
Definition starts_chrome (c : call) : bool :=
  match c with NewChrome _ => true | _ => false end.

(** A persistent profile in /tmp/profile, everything else as in
    [no_wait]. *)
Definition with_profile : kwargs :=
  {| wait_seconds := 0; capture_console := false; screenshot_path := None;
     width := 1280; height := 900; exec_js := None; post_js := None;
     capture_network := false; type_actions := None; click_actions := None;
     post_wait_seconds := 0; profile_dir := Some "/tmp/profile";
     _page_load_timeout := None; _script_timeout := None |}.

(** A backend on which no directory can be created. *)
Definition readonly_world : world :=
  {| respond := fun _ c =>
       match c with
       | MakeDirs _ => Raises 0%N (Exn OSError [PStr "Read-only file system"])
       | _ => quick_reply c
       end;
     json_loads := fun _ => None;
     proc_meminfo := Ok [];
     read_text := fun _ => raise_py OSError [];
     ended_at_tie := fun _ => false |}.

(** A backend whose driver fails to quit. *)
Definition stubborn_world : world :=
  {| respond := fun _ c =>
       match c with
       | Quit => Raises 0%N (Exn WebDriverException [PStr "chrome not reachable"])
       | _ => quick_reply c
       end;
     json_loads := fun _ => None;
     proc_meminfo := Ok [];
     read_text := fun _ => raise_py OSError [];
     ended_at_tie := fun _ => false |}.

(** ** Log entries that are not what the loops expect *)

Definition is_dict (v : pyval) : bool :=
  match v with PDict _ => true | _ => false end.

(** A world whose [json.loads] decodes every text to an empty JSON
    array. *)
Definition array_world : world :=
  {| respond := fun _ c => quick_reply c;
     json_loads := fun _ => Some (PList []);
     proc_meminfo := Ok [];
     read_text := fun _ => raise_py OSError [];
     ended_at_tie := fun _ => false |}.

(** ** Formatting what was collected *)

(** A record of [network_requests] whose [headers], if it has any, is
    an object. *)
Definition headers_ok (r : pyval) : bool :=
  match r with
  | PDict d =>
      match dict_lookup d "headers" with
      | Some h => is_dict h
      | None => true
      end
  | _ => false
  end.

(** The two shapes of the records the loop over the performance log
    appends. *)
Definition request_record (url meth resource_type : pyval) : pyval :=
  PDict [("type", PStr "request"); ("url", url); ("method", meth);
         ("resource_type", resource_type)].

Definition response_record (url status mime headers : pyval) : pyval :=
  PDict [("type", PStr "response"); ("url", url); ("status", status);
         ("mime", mime); ("headers", headers)].

Definition collected (r : pyval) : Prop :=
  (exists url meth resource_type, r = request_record url meth resource_type) \/
  (exists url status mime headers, r = response_record url status mime headers).

(** The line [format_console_logs] makes of an entry. *)
Definition console_line (entry : pyval) : pyval * pyval :=
  match entry with
  | PDict d => (default (PStr "INFO") (dict_lookup d "level"),
                default (PStr "") (dict_lookup d "message"))
  | _ => (PStr "INFO", PStr "")
  end.

(** ** The argument loop *)

(** The options that take the next argument as their value. *)
Definition value_options : list string :=
  ["--screenshot"; "--wait"; "--width"; "--height"; "--exec-js"; "--exec-js-file";
   "--post-js"; "--post-js-file"; "--post-wait"; "--type"; "--click"; "--profile";
   "--timeout"].

(** ** The memory check in numbers *)

(** [meminfo.get("MemAvailable", meminfo.get("MemFree", 0))] *)
Definition available_kb (meminfo : gmap string Z) : Z :=
  default (default 0 (meminfo !! "MemFree")) (meminfo !! "MemAvailable").

(** A line of /proc/meminfo on which the body of the loop raises: no
    colon, nothing after the colon, or no integer after it. *)
Definition bad_meminfo_line (line : string) : bool :=
  match Str.split1 ":" line with
  | None => true
  | Some (_, val) =>
      match Str.first_word val with
      | None => true
      | Some w => match PyInt.parse w with Ok _ => false | Err _ => true end
      end
  end.

(** Both sub-timeouts supplied by the caller, everything else as in
    [no_wait]. *)
Definition both_supplied : kwargs :=
  {| wait_seconds := 0; capture_console := false; screenshot_path := None;
     width := 1280; height := 900; exec_js := None; post_js := None;
     capture_network := false; type_actions := None; click_actions := None;
     post_wait_seconds := 0; profile_dir := None;
     _page_load_timeout := Some 30; _script_timeout := Some 15 |}.

(** * Lemmas and theorems *)

(** ** Plans of calls *)

Lemma calls_of_app (e1 e2 : list (Z * event)) :
  calls_of (e1 ++ e2) = calls_of e1 ++ calls_of e2.
Proof. apply omap_app. Qed.

Lemma prints_of_app (e1 e2 : list (Z * event)) :
  prints_of (e1 ++ e2) = prints_of e1 ++ prints_of e2.
Proof. apply omap_app. Qed.

Lemma emits_ret {A} (a : A) : emits (ret a) (exactly []).
Proof.
  intros s r s' [= <- <-]. exists [], []. rewrite app_nil_r. by repeat split.
Qed.

Lemma emits_raise {A} (e : exn) : emits (@raise A e) (exactly []).
Proof.
  intros s r s' [= <- <-]. exists [], []. rewrite app_nil_r. by repeat split.
Qed.

Lemma emits_lift {A} (m : py A) : emits (lift m) (exactly []).
Proof. destruct m; [apply emits_ret | apply emits_raise]. Qed.

Lemma emits_print (l : log_line) : emits (print l) (exactly []).
Proof.
  intros s r s' [= <- <-]. exists [(now s, EvPrint l)], []. by repeat split.
Qed.

Lemma emits_ask W (c : call) : emits (ask W c) (exactly [c]).
Proof.
  intros s r s'. unfold ask.
  destruct (respond W _ c); intros [= <- <-];
    exists [(now s, EvCall c)], [c]; by repeat split.
Qed.

Lemma emits_sleep (ms : Z) : emits (sleep ms) (exactly [Sleep ms]).
Proof.
  intros s r s'. unfold sleep.
  destruct (negb (fits_clock ms)); [|destruct (ms <? 0)]; intros [= <- <-].
  - exists [], [Sleep ms]. rewrite app_nil_r. repeat split; [apply prefix_nil | done].
  - exists [], [Sleep ms]. rewrite app_nil_r. repeat split; [apply prefix_nil | done].
  - exists [(now s, EvCall (Sleep ms))], [Sleep ms]. by repeat split.
Qed.

Lemma emits_bind {A B} (m : M A) (k : A -> M B) (P Q : list call -> Prop) :
  emits m P -> (forall a, emits (k a) Q) -> (exists q, Q q) ->
  emits (bind m k) (P ;;; Q).
Proof.
  intros Hm Hk [q Hq] s r s'. unfold bind.
  destruct (m s) as [r1 s1] eqn:E1.
  destruct (Hm _ _ _ E1) as (ev1 & p1 & Hev1 & Hp1 & Hpre1 & Hval1).
  destruct r1 as [a| |].
  - intros E2. destruct (Hk a _ _ _ E2) as (ev2 & p2 & Hev2 & Hp2 & Hpre2 & Hval2).
    exists (ev1 ++ ev2), (p1 ++ p2). rewrite calls_of_app, Hval1 by done.
    repeat split.
    + by rewrite Hev2, Hev1, app_assoc.
    + by exists p1, p2.
    + by apply prefix_app.
    + intros Hr. by rewrite Hval2.
  - intros [= <- <-]. exists ev1, (p1 ++ q). repeat split; [done| by exists p1, q | | done].
    by apply prefix_app_r.
  - intros [= <- <-]. exists ev1, (p1 ++ q). repeat split; [done| by exists p1, q | | done].
    by apply prefix_app_r.
Qed.

Lemma emits_weaken {A} (m : M A) (P Q : list call -> Prop) :
  emits m P -> (forall l, P l -> Q l) -> emits m Q.
Proof.
  intros Hm HPQ s r s' E. destruct (Hm _ _ _ E) as (ev & p & ? & ? & ? & ?).
  exists ev, p. auto.
Qed.

Ltac run_ask W :=
  match goal with
  | |- context [respond W ?h ?c] => destruct (respond W h c)
  end.

Lemma emits_type_action W sv : emits (type_action W sv) (type_segment sv).
Proof.
  destruct sv as [selector value]. intros s r s'.
  unfold type_action, type_attempt, try_except, bind, ask, print; simpl.
  repeat (run_ask W; simpl); intros [= <- <-]; simpl;
    eexists _, _; (split; [rewrite <- ?app_assoc; reflexivity |]);
    unfold type_segment; simpl.
  all: try (split; [right; right; reflexivity | by split]).
  all: try (split; [right; left; reflexivity | by split]).
  all: try (split; [left; reflexivity | by split]).
Qed.

Lemma emits_click_action W selector :
  emits (click_action W selector) (click_segment selector).
Proof.
  intros s r s'.
  unfold click_action, click_attempt, try_except, bind, ask, print; simpl.
  repeat (run_ask W; simpl); intros [= <- <-]; simpl;
    eexists _, _; (split; [rewrite <- ?app_assoc; reflexivity |]);
    unfold click_segment; simpl.
  all: try (split; [right; reflexivity | by split]).
  all: try (split; [left; reflexivity | by split]).
Qed.

Lemma segments_nil {A} (R : A -> list call -> Prop) : segments R [] [].
Proof. exists []. by split. Qed.

Lemma segments_cons {A} (R : A -> list call -> Prop) x items l1 l2 :
  R x l1 -> segments R items l2 -> segments R (x :: items) (l1 ++ l2).
Proof. intros H1 (segs & H2 & ->). exists (l1 :: segs). split; [by constructor | done]. Qed.

Lemma segments_inhabited {A} (R : A -> list call -> Prop) items :
  (forall x, exists l, R x l) -> exists l, segments R items l.
Proof.
  intros HR. induction items as [|x items [l IH]].
  - exists []. apply segments_nil.
  - destruct (HR x) as [l1 H1]. exists (l1 ++ l). by apply segments_cons.
Qed.

Lemma emits_for_each {A} (R : A -> list call -> Prop) (body : A -> M unit) items :
  (forall x, emits (body x) (R x)) -> (forall x, exists l, R x l) ->
  emits (for_each items body) (segments R items).
Proof.
  intros Hbody HR. induction items as [|x items IH]; simpl.
  - eapply emits_weaken; [apply emits_ret |]. intros l ->. apply segments_nil.
  - eapply emits_weaken.
    + apply emits_bind; [apply Hbody | intros _; apply IH | by apply segments_inhabited].
    + intros l (l1 & l2 & -> & H1 & H2). by apply segments_cons.
Qed.

(** ** The plan of the pipeline *)

Lemma inhabited_exactly p : exists l, exactly p l.
Proof. by exists p. Qed.

Lemma inhabited_then (P Q : list call -> Prop) :
  (exists p, P p) -> (exists q, Q q) -> exists l, (P ;;; Q) l.
Proof. intros [p Hp] [q Hq]. exists (p ++ q). by exists p, q. Qed.

Lemma type_segment_inhabited sv : exists l, type_segment sv l.
Proof. eexists. by left. Qed.

Lemma click_segment_inhabited selector : exists l, click_segment selector l.
Proof. eexists. by left. Qed.

Create HintDb plan.
#[local] Hint Resolve emits_ret emits_raise emits_lift emits_print emits_ask emits_sleep
  emits_type_action emits_click_action inhabited_exactly inhabited_then
  type_segment_inhabited click_segment_inhabited : plan.

Lemma emits_script W (code : option string) (k : pyval -> M unit) :
  (forall v, emits (k v) (exactly [])) ->
  emits match code with
        | Some c => if truthy_str code then bind (ask W (ExecuteScript c)) k else ret tt
        | None => ret tt
        end
        (exactly (script_plan code)).
Proof.
  intros Hk. unfold script_plan. destruct code as [c|]; [|apply emits_ret].
  destruct (truthy_str (Some c)); [|apply emits_ret].
  eapply emits_weaken.
  - apply emits_bind; [apply emits_ask | apply Hk | apply inhabited_exactly].
  - by intros l (l1 & l2 & -> & -> & ->).
Qed.

Lemma emits_actions {A} (R : A -> list call -> Prop) (body : A -> M unit) (items : option (list A)) :
  (forall x, emits (body x) (R x)) -> (forall x, exists l, R x l) ->
  emits match items with Some l => for_each l body | None => ret tt end
        (segments R (default [] items)).
Proof.
  intros Hbody HR. destruct items as [l|]; simpl.
  - by apply emits_for_each.
  - eapply emits_weaken; [apply emits_ret|]. intros l ->. apply segments_nil.
Qed.

Lemma emits_report_result (l : pyval -> log_line) (v : pyval) :
  emits match v with PNone => ret tt | _ => print (l v) end (exactly []).
Proof. destruct v; auto with plan. Qed.

Lemma emits_post_wait kw :
  emits (if 0 <? post_wait_seconds kw then sleep (1000 * post_wait_seconds kw) else ret tt)
        (exactly (post_wait_plan kw)).
Proof. unfold post_wait_plan. destruct (0 <? _); auto with plan. Qed.

Lemma emits_console W kw :
  emits (if capture_console kw then ask W (GetLog "browser") else ret (PList []))
        (exactly (console_plan kw)).
Proof. unfold console_plan. destruct (capture_console kw); auto with plan. Qed.

Lemma emits_network W kw :
  emits (if capture_network kw
         then bind (ask W (GetLog "performance"))
                (fun perf_logs => lift (collect_network W perf_logs))
         else ret [])
        (exactly (network_plan kw)).
Proof.
  unfold network_plan. destruct (capture_network kw); [|apply emits_ret].
  eapply emits_weaken.
  - apply emits_bind; [apply emits_ask | intros v; apply emits_lift | apply inhabited_exactly].
  - by intros l (l1 & l2 & -> & -> & ->).
Qed.

Lemma emits_screenshot W kw :
  emits match screenshot_path kw with
        | Some path =>
            if truthy_str (screenshot_path kw)
            then bind (ask W (ExecuteScript "return document.body.scrollHeight"))
                   (fun total_height =>
                      bind (ask W (SetWindowSize (width kw) total_height))
                        (fun _ => bind (sleep 500)
                           (fun _ => bind (ask W (SaveScreenshot path)) (fun _ => ret tt))))
            else ret tt
        | None => ret tt
        end
        (fun l => exists total_height, l = screenshot_plan kw total_height).
Proof.
  unfold screenshot_plan. destruct (screenshot_path kw) as [path|].
  2: { eapply emits_weaken; [apply emits_ret|]. intros l ->. by exists PNone. }
  destruct (truthy_str (Some path)).
  2: { eapply emits_weaken; [apply emits_ret|]. intros l ->. by exists PNone. }
  intros s r s'. unfold bind, ask, sleep; simpl.
  destruct (respond W _ (ExecuteScript _)) as [ms h|ms e|]; simpl.
  2,3: intros [= <- <-]; eexists _, _; split; [reflexivity|];
       split; [by exists PNone|]; split; [by eexists | done].
  repeat (run_ask W; simpl); intros [= <- <-]; simpl;
    eexists _, _; (split; [rewrite <- ?app_assoc; reflexivity |]);
    (split; [by exists h|]); simpl; (split; [by eexists | done]).
Qed.

#[local] Hint Resolve emits_post_wait emits_console emits_network : plan.

Lemma screenshot_inhabited kw :
  exists (p : list call) (total_height : pyval), p = screenshot_plan kw total_height.
Proof. by eexists _, PNone. Qed.

Lemma type_segments_inhabited items : exists l, segments type_segment items l.
Proof. apply segments_inhabited, type_segment_inhabited. Qed.

Lemma click_segments_inhabited items : exists l, segments click_segment items l.
Proof. apply segments_inhabited, click_segment_inhabited. Qed.

#[local] Hint Resolve screenshot_inhabited type_segments_inhabited
  click_segments_inhabited : plan.

Ltac emit_step :=
  first
    [ apply emits_script; intros ?; apply emits_report_result
    | apply emits_actions; solve [auto with plan]
    | apply emits_screenshot
    | solve [auto with plan] ].

Lemma emits_stages W url kw page_load_timeout script_timeout :
  emits (stages W url kw page_load_timeout script_timeout)
        (stage_plan url kw page_load_timeout script_timeout).
Proof.
  unfold stages.
  eapply emits_weaken.
  { repeat (eapply emits_bind; [| intros ? |]).
    1-17: emit_step.
    all: repeat apply inhabited_then; auto with plan. }
  unfold then_, exactly. intros l H.
  repeat match goal with
         | H : exists _, _ |- _ => destruct H
         | H : _ /\ _ |- _ => destruct H
         end.
  subst. eexists _, _, _. split; [eassumption|]. split; [eassumption|].
  simpl. rewrite ?app_nil_r. reflexivity.
Qed.

(** ** Runs do not depend on what was printed *)

Lemma agree_extend s1 s2 t ev :
  agree s1 s2 -> agree (St t (events s1 ++ ev)) (St t (events s2 ++ ev)).
Proof. intros [_ Hc]. split; simpl; [done|]. by rewrite !calls_of_app, Hc. Qed.

Lemma st_eta s : s = St (now s) (events s ++ []).
Proof. destruct s; simpl. by rewrite app_nil_r. Qed.

Lemma uniform_ret {A} (a : A) : uniform (ret a).
Proof.
  intros s1 s2 [Ht _]. exists (Val a), (now s1), []. unfold ret.
  split; [by rewrite <- st_eta | by rewrite Ht, <- st_eta].
Qed.

Lemma uniform_raise {A} (e : exn) : uniform (@raise A e).
Proof.
  intros s1 s2 [Ht _]. exists (Exc e), (now s1), []. unfold raise.
  split; [by rewrite <- st_eta | by rewrite Ht, <- st_eta].
Qed.

Lemma uniform_lift {A} (m : py A) : uniform (lift m).
Proof. destruct m; [apply uniform_ret | apply uniform_raise]. Qed.

Lemma uniform_print (l : log_line) : uniform (print l).
Proof.
  intros s1 s2 [Ht _]. exists (Val tt), (now s1), [(now s1, EvPrint l)].
  unfold print, record. by rewrite Ht.
Qed.

Lemma uniform_ask W (c : call) : uniform (ask W c).
Proof.
  intros s1 s2 [Ht Hc]. unfold ask, record, advance; simpl. rewrite Hc, Ht.
  destruct (respond W _ c); eexists _, _, _; split; reflexivity.
Qed.

Lemma uniform_sleep (ms : Z) : uniform (sleep ms).
Proof.
  intros s1 s2 [Ht Hc]. unfold sleep, record, advance; simpl. rewrite Ht.
  destruct (negb (fits_clock ms)); [|destruct (ms <? 0)].
  - eexists _, (now s2), [].
    split; [by rewrite <- Ht, <- st_eta | by rewrite <- st_eta].
  - eexists _, (now s2), [].
    split; [by rewrite <- Ht, <- st_eta | by rewrite <- st_eta].
  - eexists _, _, _; split; reflexivity.
Qed.

Lemma uniform_bind {A B} (m : M A) (k : A -> M B) :
  uniform m -> (forall a, uniform (k a)) -> uniform (bind m k).
Proof.
  intros Hm Hk s1 s2 Hs. unfold bind.
  destruct (Hm _ _ Hs) as (r & t & ev & -> & ->).
  destruct r as [a| |]; [| by eexists _, _, _ ..].
  destruct (Hk a _ _ (agree_extend _ _ t ev Hs)) as (r' & t' & ev' & -> & ->); simpl.
  exists r', t', (ev ++ ev'). by rewrite !app_assoc.
Qed.

Lemma uniform_try_except {A} (m : M A) (h : exn -> M A) :
  uniform m -> (forall e, uniform (h e)) -> uniform (try_except m h).
Proof.
  intros Hm Hh s1 s2 Hs. unfold try_except.
  destruct (Hm _ _ Hs) as (r & t & ev & -> & ->).
  destruct r as [a|e|]; [by eexists _, _, _ | | by eexists _, _, _].
  destruct (Hh e _ _ (agree_extend _ _ t ev Hs)) as (r' & t' & ev' & -> & ->); simpl.
  exists r', t', (ev ++ ev'). by rewrite !app_assoc.
Qed.

Lemma uniform_try_finally {A} (m : M A) (f : M unit) :
  uniform m -> uniform f -> uniform (try_finally m f).
Proof.
  intros Hm Hf s1 s2 Hs. unfold try_finally.
  destruct (Hm _ _ Hs) as (r & t & ev & -> & ->).
  destruct (Hf _ _ (agree_extend _ _ t ev Hs)) as (r' & t' & ev' & E1 & E2).
  destruct r as [a|e|]; [| | by eexists _, _, _]; rewrite E1, E2; simpl;
    destruct r'; eexists _, t', (ev ++ ev'); by rewrite !app_assoc.
Qed.

Lemma uniform_for_each {A} (body : A -> M unit) (items : list A) :
  (forall x, uniform (body x)) -> uniform (for_each items body).
Proof.
  intros Hb. induction items; simpl; [apply uniform_ret|].
  apply uniform_bind; auto.
Qed.

Create HintDb uni.
#[local] Hint Resolve uniform_ret uniform_raise uniform_lift uniform_print uniform_ask
  uniform_sleep uniform_for_each : uni.

Ltac uni :=
  repeat first
    [ progress intros
    | apply uniform_bind
    | apply uniform_try_except
    | apply uniform_try_finally
    | solve [auto with uni]
    | match goal with
      | |- uniform (match ?x with _ => _ end) => destruct x
      | |- uniform (let '(_, _) := ?x in _) => destruct x
      end ].

Lemma uniform_type_action W sv : uniform (type_action W sv).
Proof. unfold type_action, type_attempt. uni. Qed.

Lemma uniform_click_action W selector : uniform (click_action W selector).
Proof. unfold click_action, click_attempt. uni. Qed.

#[local] Hint Resolve uniform_type_action uniform_click_action : uni.

Lemma uniform_stages W url kw plt st : uniform (stages W url kw plt st).
Proof. unfold stages. uni. Qed.

Lemma uniform_build_chrome_options W w h cc cn pd :
  uniform (_build_chrome_options W w h cc cn pd).
Proof. unfold _build_chrome_options. uni. Qed.

Lemma uniform_cleanup W d owned : uniform (cleanup W d owned).
Proof. unfold cleanup. uni. Qed.

#[local] Hint Resolve uniform_stages uniform_build_chrome_options uniform_cleanup : uni.

Lemma uniform_fetch_rendered_inner W url kw d plt st :
  uniform (_fetch_rendered_inner W url kw d plt st).
Proof.
  unfold _fetch_rendered_inner. apply uniform_bind; [auto with uni|]. intros o.
  destruct d as [d|]; [uni|]. cbn [negb is_Some_b].
  intros s1 s2 Hs.
  destruct (uniform_ask W (NewChrome o) _ _ Hs) as (r & t & ev & -> & ->).
  destruct r as [v|e|]; [| | by eexists _, _, _].
  - assert (H : uniform (try_finally (stages W url kw plt st)
                           (cleanup W (Some Driver) true))) by uni.
    destruct (H _ _ (agree_extend _ _ t ev Hs)) as (r' & t' & ev' & -> & ->); simpl.
    exists r', t', (ev ++ ev'). by rewrite !app_assoc.
  - assert (H : uniform (try_finally (@raise fetch_result e)
                           (cleanup W None true))) by uni.
    destruct (H _ _ (agree_extend _ _ t ev Hs)) as (r' & t' & ev' & -> & ->); simpl.
    exists r', t', (ev ++ ev'). by rewrite !app_assoc.
Qed.

Lemma uniform_on_timeout {A} W url total_timeout : uniform (@on_timeout W A url total_timeout).
Proof. unfold on_timeout. uni. Qed.

Lemma uniform_race W url total_timeout kw plt st :
  uniform (race W url total_timeout kw plt st).
Proof.
  intros s1 s2 Hs. unfold race.
  destruct (TIMEOUT_MAX <? total_timeout).
  { destruct Hs as [Ht _]. eexists _, (now s1), [].
    split; [by rewrite <- st_eta | by rewrite Ht, <- st_eta]. }
  destruct (uniform_fetch_rendered_inner W url kw (Some Driver) plt st _ _ Hs)
    as (r & t & ev & -> & ->).
  destruct Hs as [Ht Hc]. rewrite <- Ht. unfold is_alive; simpl.
  rewrite !calls_of_app, <- Hc.
  set (deadline := now s1 + 1000 * Z.max 0 total_timeout).
  set (alive := match r with
                | Hang => true
                | _ => if t =? deadline then negb (ended_at_tie W _)
                       else negb (t <? deadline)
                end).
  destruct alive; [| by eexists _, _, _].
  unfold at_deadline; simpl. rewrite !drop_app_length.
  set (seen := filter _ ev).
  assert (Ha : agree (St deadline (events s1 ++ seen)) (St deadline (events s2 ++ seen))).
  { split; simpl; [done|]. by rewrite !calls_of_app, Hc. }
  destruct (uniform_on_timeout (A:=fetch_result) W url total_timeout _ _ Ha)
    as (r' & t' & ev' & -> & ->); simpl.
  exists r', t', (seen ++ ev'). by rewrite !app_assoc.
Qed.

(** ** Runs that return *)

Lemma returns_ret {A} (a : A) : returns (ret a).
Proof. intros s. by exists a, s. Qed.

Lemma returns_print l : returns (print l).
Proof. intros s. by eexists _, _. Qed.

(** The milliseconds of a whole number of seconds fit the clock of
    the interpreter up to 9223372036 seconds. *)
Lemma fits_clock_bounds ms :
  fits_clock ms = true <-> - 9223372036854 <= ms <= 9223372036854.
Proof.
  unfold fits_clock. rewrite andb_true_iff, Z.leb_le, Z.ltb_lt.
  change (2 ^ 63) with 9223372036854775808. change (10 ^ 6) with 1000000. lia.
Qed.

Lemma returns_sleep ms : 0 <= ms <= 9223372036854 -> returns (sleep ms).
Proof.
  intros H s. unfold sleep.
  rewrite (proj2 (fits_clock_bounds ms)) by lia. cbn [negb].
  destruct (Z.ltb_spec ms 0); [lia|]. by eexists _, _.
Qed.

Lemma returns_bind {A B} (m : M A) (k : A -> M B) :
  returns m -> (forall a, returns (k a)) -> returns (bind m k).
Proof.
  intros Hm Hk s. unfold bind. destruct (Hm s) as (a & s1 & ->). apply Hk.
Qed.

Lemma returns_for_each {A} (body : A -> M unit) items :
  (forall x, returns (body x)) -> returns (for_each items body).
Proof.
  intros Hb. induction items; simpl; [apply returns_ret|]. by apply returns_bind.
Qed.

Section Healthy.

Variable W : world.

(** Every call but an interaction is answered with a value. *)
Hypothesis others_succeed :
  forall h c, interaction c = false -> exists ms v, respond W h c = Returns ms v.

(** An interaction is answered, with a value or an exception. *)
Hypothesis interactions_end :
  forall h c, interaction c = true -> respond W h c <> Blocks.

(** The performance log, as the driver returns it, is one the loop of
    [collect_network] accepts. *)
Hypothesis performance_log_ok :
  forall h ms v, respond W h (GetLog "performance") = Returns ms v ->
    exists l, collect_network W v = Ok l.

Lemma returns_ask c : interaction c = false -> returns (ask W c).
Proof.
  intros Hc s. unfold ask.
  destruct (others_succeed (calls_of (events s)) c Hc) as (ms & v & ->). by eexists _, _.
Qed.

Ltac interact :=
  match goal with
  | |- context [respond W ?h ?c] =>
      let E := fresh "E" in
      destruct (respond W h c) eqn:E;
      [ | | exfalso; by apply (interactions_end h c) ]
  end.

Lemma returns_type_action sv : returns (type_action W sv).
Proof.
  destruct sv as [selector value]. intros s.
  unfold type_action, type_attempt, try_except, bind, ask, print; simpl.
  repeat (interact; simpl); by eexists _, _.
Qed.

Lemma returns_click_action selector : returns (click_action W selector).
Proof.
  intros s. unfold click_action, click_attempt, try_except, bind, ask, print; simpl.
  repeat (interact; simpl); by eexists _, _.
Qed.

Lemma returns_network kw :
  returns (if capture_network kw
           then bind (ask W (GetLog "performance"))
                  (fun perf_logs => lift (collect_network W perf_logs))
           else ret []).
Proof.
  destruct (capture_network kw); [|apply returns_ret].
  intros s. unfold bind, ask.
  destruct (others_succeed (calls_of (events s)) (GetLog "performance") eq_refl)
    as (ms & v & E).
  rewrite E. destruct (performance_log_ok _ _ _ E) as [l ->]. by eexists _, _.
Qed.

Lemma returns_stages url kw plt sct :
  0 <= wait_seconds kw <= 9223372036 -> post_wait_seconds kw <= 9223372036 ->
  returns (stages W url kw plt sct).
Proof.
  intros Hwait Hpost. unfold stages.
  repeat first
    [ apply returns_network
    | apply returns_bind; [| intros ?]
    | apply returns_ask; reflexivity
    | apply returns_ret
    | apply returns_print
    | apply returns_sleep; lia
    | apply returns_for_each; intros ?
    | apply returns_type_action
    | apply returns_click_action
    | match goal with
      | |- returns (if 0 <? ?x then _ else _) => destruct (Z.ltb_spec 0 x)
      | |- returns (match ?x with _ => _ end) => destruct x
      end ].
Qed.

End Healthy.

(** ** The calls of the worker *)

Lemma emits_build_chrome_options W w h cc cn pd :
  emits (_build_chrome_options W w h cc cn pd) (exactly (profile_plan pd)).
Proof.
  unfold _build_chrome_options, profile_plan.
  eapply emits_weaken.
  - apply emits_bind; [| intros ?; apply emits_ret | apply inhabited_exactly].
    instantiate (1 := exactly (profile_plan pd)). unfold profile_plan.
    destruct pd as [dir|]; [|apply emits_ret].
    destruct (truthy_str (Some dir)); [|apply emits_ret].
    eapply emits_weaken.
    + apply emits_bind; [apply emits_ask | intros ? | ].
      * apply emits_bind; [apply emits_print | intros ?; apply emits_ret | apply inhabited_exactly].
      * apply inhabited_then; apply inhabited_exactly.
    + by intros l (l1 & l2 & -> & -> & l3 & l4 & -> & -> & ->).
  - by intros l (l1 & l2 & -> & -> & ->); rewrite app_nil_r.
Qed.

Lemma try_finally_ret {A} (m : M A) s : try_finally m (ret tt) s = m s.
Proof. unfold try_finally, ret. destruct (m s) as [[a|e|] s']; reflexivity. Qed.

Lemma bind_inv {A B} (m : M A) (k : A -> M B) s r s' :
  bind m k s = (r, s') ->
  (exists a s1, m s = (Val a, s1) /\ k a s1 = (r, s')) \/
  (exists e, m s = (Exc e, s') /\ r = Exc e) \/
  (m s = (Hang, s') /\ r = Hang).
Proof.
  unfold bind. destruct (m s) as [[a|e|] s1]; intros H.
  - left. by exists a, s1.
  - injection H as <- <-. right; left. by exists e.
  - injection H as <- <-. by right; right.
Qed.

(** With a driver supplied, the pipeline is the options then the
    stages: the [finally] clause does nothing. *)
Lemma inner_supplied W url kw d plt sct s :
  _fetch_rendered_inner W url kw (Some d) plt sct s =
  bind (_build_chrome_options W (width kw) (height kw) (capture_console kw)
          (capture_network kw) (profile_dir kw))
       (fun _ => stages W url kw plt sct) s.
Proof.
  unfold _fetch_rendered_inner, bind.
  destruct (_build_chrome_options _ _ _ _ _ _ s) as [[o| |] s1]; try reflexivity.
  apply try_finally_ret.
Qed.

Lemma stage_plan_inhabited url kw plt sct : exists p, stage_plan url kw plt sct p.
Proof.
  destruct (type_segments_inhabited (default [] (type_actions kw))) as [t Ht].
  destruct (click_segments_inhabited (default [] (click_actions kw))) as [c Hc].
  eexists. by exists t, c, PNone.
Qed.

Lemma emits_worker W url kw d plt sct :
  emits (_fetch_rendered_inner W url kw (Some d) plt sct) (worker_plan url kw plt sct).
Proof.
  intros s r s'. rewrite inner_supplied. revert s r s'.
  apply emits_bind.
  - apply emits_build_chrome_options.
  - intros _. apply emits_stages.
  - apply stage_plan_inhabited.
Qed.

Lemma count_calls_app f l1 l2 :
  count_calls f (l1 ++ l2) = (count_calls f l1 + count_calls f l2)%nat.
Proof. induction l1; simpl; lia. Qed.

Lemma count_calls_prefix f l1 l2 :
  l1 `prefix_of` l2 -> (count_calls f l1 <= count_calls f l2)%nat.
Proof. intros [k ->]. rewrite count_calls_app. lia. Qed.

Lemma count_calls_concat f segs :
  Forall (fun l => count_calls f l = 0%nat) segs -> count_calls f (concat segs) = 0%nat.
Proof.
  induction 1 as [|l segs Hl _ IH]; simpl; [done|]. rewrite count_calls_app. lia.
Qed.

Lemma count_calls_seen f (P : Z * event -> Prop) `{!forall x, Decision (P x)} ev :
  (count_calls f (calls_of (filter P ev)) <= count_calls f (calls_of ev))%nat.
Proof.
  induction ev as [|[t e] ev IH]; [done|].
  rewrite filter_cons. destruct (decide (P (t, e))); destruct e; simpl in *;
    unfold calls_of in *; simpl; lia.
Qed.

Lemma count_calls_segments {A} f (R : A -> list call -> Prop) items l :
  (forall x p, R x p -> count_calls f p = 0%nat) ->
  segments R items l -> count_calls f l = 0%nat.
Proof.
  intros HR (segs & HF & ->). apply count_calls_concat.
  induction HF; constructor; eauto.
Qed.

Lemma count_type_segment f sv p :
  (forall c, interaction c = true -> f c = false) ->
  type_segment sv p -> count_calls f p = 0%nat.
Proof. intros Hf [-> | [-> | ->]]; simpl; rewrite ?Hf; done. Qed.

Lemma count_click_segment f selector p :
  (forall c, interaction c = true -> f c = false) ->
  click_segment selector p -> count_calls f p = 0%nat.
Proof. intros Hf [-> | ->]; simpl; rewrite ?Hf; done. Qed.

Lemma count_stage_plan f url kw plt sct p :
  (forall c, interaction c = true -> f c = false) ->
  stage_plan url kw plt sct p ->
  exists types clicks total_height,
    count_calls f types = 0%nat /\ count_calls f clicks = 0%nat /\
    p = [SetWindowSize (width kw) (PInt (height kw));
         SetPageLoadTimeout plt; SetScriptTimeout sct]
        ++ [Get url] ++ script_plan (exec_js kw) ++ [Sleep (1000 * wait_seconds kw)]
        ++ types ++ clicks ++ script_plan (post_js kw) ++ post_wait_plan kw
        ++ [PageSource; CurrentUrl] ++ console_plan kw ++ network_plan kw
        ++ screenshot_plan kw total_height.
Proof.
  intros Hf (types & clicks & h & Ht & Hc & ->). exists types, clicks, h.
  split; [|split; [|done]].
  - eapply count_calls_segments; [|exact Ht]. intros. by eapply count_type_segment.
  - eapply count_calls_segments; [|exact Hc]. intros. by eapply count_click_segment.
Qed.

Ltac count_plan :=
  repeat (rewrite count_calls_app; simpl);
  unfold script_plan, post_wait_plan, console_plan, network_plan, screenshot_plan,
    profile_plan;
  repeat match goal with
         | |- context [match ?x with _ => _ end] => destruct x; simpl
         end;
  lia.

Lemma worker_plan_count url kw plt sct p :
  worker_plan url kw plt sct p ->
  (count_calls reads_source p <= 1 /\ count_calls reads_console p <= 1 /\
   count_calls reads_network p <= 1 /\ count_calls destroys p = 0)%nat.
Proof.
  intros (l1 & l2 & -> & -> & Hp). repeat split.
  - destruct (count_stage_plan reads_source _ _ _ _ _ ltac:(by intros []) Hp)
      as (t & c & h & Ht & Hc & ->). rewrite !count_calls_app, Ht, Hc. simpl.
    clear. count_plan.
  - destruct (count_stage_plan reads_console _ _ _ _ _ ltac:(by intros []) Hp)
      as (t & c & h & Ht & Hc & ->). rewrite !count_calls_app, Ht, Hc. simpl.
    clear. count_plan.
  - destruct (count_stage_plan reads_network _ _ _ _ _ ltac:(by intros []) Hp)
      as (t & c & h & Ht & Hc & ->). rewrite !count_calls_app, Ht, Hc. simpl.
    clear. count_plan.
  - destruct (count_stage_plan destroys _ _ _ _ _ ltac:(by intros []) Hp)
      as (t & c & h & Ht & Hc & ->). rewrite !count_calls_app, Ht, Hc. simpl.
    clear. count_plan.
Qed.

(** ** The supervisor *)

Lemma on_timeout_run {A} W url total_timeout s :
  let kill := respond W (calls_of (events s)) ProcessKill in
  let quit := respond W (calls_of (events s) ++ [ProcessKill]) Quit in
  let said := (now s, EvPrint (LogTimeout total_timeout url)) in
  @on_timeout W A url total_timeout s =
  match answered kill, answered quit with
  | None, _ =>
      (Hang, St (now s) (events s ++ [said; (now s, EvCall ProcessKill)]))
  | Some dk, None =>
      (Hang, St (now s + dk)
               (events s ++ [said; (now s, EvCall ProcessKill); (now s + dk, EvCall Quit)]))
  | Some dk, Some dq =>
      (Exc (timeout_error total_timeout url),
       St (now s + dk + dq)
          (events s ++ [said; (now s, EvCall ProcessKill); (now s + dk, EvCall Quit)]))
  end.
Proof.
  unfold on_timeout, bind, try_except, print, ask, raise, ret, record, advance; simpl.
  rewrite !calls_of_app; simpl. rewrite app_nil_r.
  destruct (respond W (calls_of (events s)) ProcessKill); simpl;
    rewrite <- ?app_assoc; simpl; rewrite ?calls_of_app; simpl; rewrite ?app_nil_r;
    try reflexivity.
  all: destruct (respond W (calls_of (events s) ++ [ProcessKill]) Quit); simpl;
    rewrite <- ?app_assoc; simpl; reflexivity.
Qed.

Lemma mem_check_run W s :
  exists ev, mem_check W s = (Val tt, St (now s) (events s ++ ev)) /\ calls_of ev = [].
Proof.
  unfold mem_check. destruct (mem_warning W) as [[w|]|e].
  - by exists [(now s, EvPrint w)].
  - exists []. by rewrite <- st_eta.
  - exists []. by rewrite <- st_eta.
Qed.

Lemma emits_mem_check W : emits (mem_check W) (exactly []).
Proof.
  intros s r s' E. destruct (mem_check_run W s) as (ev & E' & Hc).
  rewrite E' in E. injection E as <- <-. exists ev, []. rewrite Hc. by repeat split.
Qed.

Lemma issues_weaken {A} (m : M A) (P Q : bool -> list call -> Prop) :
  issues m P -> (forall v l, P v l -> Q v l) -> issues m Q.
Proof.
  intros Hm HPQ s r s' E. destruct (Hm _ _ _ E) as (ev & ? & ?). exists ev. auto.
Qed.

Lemma issues_bind {A B} (m : M A) (k : A -> M B) (P Q : bool -> list call -> Prop) :
  issues m P -> (forall a, issues (k a) Q) ->
  issues (bind m k)
    (fun v l => (v = false /\ P false l) \/
                exists l1 l2, l = l1 ++ l2 /\ P true l1 /\ Q v l2).
Proof.
  intros Hm Hk s r s' E.
  apply bind_inv in E as [(a & s1 & E1 & E) | [(e & E1 & ->) | [E1 ->]]].
  - destruct (Hm _ _ _ E1) as (ev1 & Hev1 & H1).
    destruct (Hk a _ _ _ E) as (ev2 & Hev2 & H2).
    exists (ev1 ++ ev2). split; [by rewrite Hev2, Hev1, app_assoc|].
    right. exists (calls_of ev1), (calls_of ev2). by rewrite calls_of_app.
  - destruct (Hm _ _ _ E1) as (ev1 & Hev1 & H1). exists ev1. split; [done|]. by left.
  - destruct (Hm _ _ _ E1) as (ev1 & Hev1 & H1). exists ev1. split; [done|]. by left.
Qed.

Lemma emits_issues {A} (m : M A) (P : list call -> Prop) :
  emits m P ->
  issues m (fun v l => exists p, P p /\ l `prefix_of` p /\ (v = true -> l = p)).
Proof.
  intros Hm s r s' E. destruct (Hm _ _ _ E) as (ev & p & Hev & Hp & Hpre & Hval).
  exists ev. split; [done|]. exists p. repeat split; [done..|].
  intros Hr. apply Hval. by destruct r.
Qed.

Lemma issues_race W url total_timeout kw plt sct :
  issues (race W url total_timeout kw plt sct) (race_calls url kw).
Proof.
  intros s r s'. unfold race.
  destruct (_fetch_rendered_inner W url kw (Some Driver) plt sct s) as [rw sw] eqn:Ew.
  destruct (emits_worker _ _ _ _ _ _ _ _ _ Ew) as (ev & p & Hev & Hp & Hpre & Hval).
  destruct (TIMEOUT_MAX <? total_timeout).
  { intros [= <- <-]. exists []. split; [by rewrite app_nil_r|].
    exists p, plt, sct. split; [done|]. left. split; [apply prefix_nil | done]. }
  destruct (is_alive _ _ _) eqn:Ealive.
  - simpl. rewrite on_timeout_run. unfold at_deadline; simpl.
    rewrite Hev, drop_app_length.
    set (seen := filter _ ev). set (kill := respond W _ ProcessKill).
    set (quit := respond W _ Quit).
    assert (Hseen : forall f, (count_calls f (calls_of seen) <= count_calls f p)%nat).
    { intros f. etrans; [apply count_calls_seen|]. by apply count_calls_prefix. }
    destruct (answered kill) as [dk|]; [destruct (answered quit) as [dq|] |];
      intros [= <- <-]; simpl; eexists; (split; [by rewrite <- app_assoc|]);
      rewrite calls_of_app; exists p, plt, sct; (split; [done|]); right;
      (split; [done|]); eexists _, _; (split; [reflexivity|]); (split; [exact Hseen|]);
      auto.
  - intros [= <- <-]. exists ev. split; [done|]. exists p, plt, sct. split; [done|].
    left. split; [done|]. intros Hr. apply Hval. by destruct rw.
Qed.

Lemma issues_nothing {A} (m : M A) :
  emits m (exactly []) -> issues m (fun _ l => l = []).
Proof.
  intros Hm. eapply issues_weaken; [by apply emits_issues|].
  intros v l (p & Hp & Hpre & _). unfold exactly in Hp. subst p.
  by apply prefix_nil_inv.
Qed.

Lemma issues_new_chrome W o :
  issues (ask W (NewChrome o))
    (fun v l => exists o, l = [NewChrome o]).
Proof.
  intros s r s'. unfold ask.
  destruct (respond W _ _); intros [= <- <-]; eexists; (split; [reflexivity|]); by exists o.
Qed.

Lemma issues_fetch_with_timeout W url total_timeout kw :
  issues (fetch_with_timeout W url total_timeout kw) (fetch_calls url kw).
Proof.
  unfold fetch_with_timeout.
  eapply issues_weaken.
  { apply issues_bind; [apply issues_nothing, emits_mem_check | intros _].
    apply issues_bind; [apply issues_nothing, emits_lift | intros plt].
    apply issues_bind; [apply issues_nothing, emits_lift | intros sct].
    apply issues_bind; [apply emits_issues, emits_build_chrome_options | intros o].
    apply issues_bind; [apply issues_new_chrome | intros _].
    apply issues_race. }
  set (o0 := ChromeOptions [] None).
  intros v l H. unfold fetch_calls, exactly in *.
  repeat match goal with
         | H : _ \/ _ |- _ => destruct H
         | H : exists _, _ |- _ => destruct H
         | H : _ /\ _ |- _ => destruct H
         | H : true = true -> _ |- _ => specialize (H eq_refl)
         end; subst; simpl in *.
  1-3: left; split; [done|]; exists o0; apply prefix_nil.
  - left. split; [done|]. exists o0. by apply prefix_app_r.
  - left. split; [done|]. by eexists.
  - right. by eexists _, _.
Qed.

(** ** Cleanup and the timeout path *)

Lemma quick_world_healthy : healthy quick_world.
Proof.
  repeat split.
  - intros h c _. destruct c; simpl; eauto.
  - intros h c _. by destruct c.
  - intros h ms v [= _ <-]. by exists [].
Qed.

Lemma missing_field_world_healthy : healthy missing_field_world.
Proof.
  repeat split.
  - intros h c Hc. destruct c; simpl in *; eauto; discriminate.
  - intros h c _. destruct c; simpl; try done.
    repeat case_match; done.
  - intros h ms v [= _ <-]. by exists [].
Qed.

Lemma count_profile_plan f pd :
  (forall dir, f (MakeDirs dir) = false) -> count_calls f (profile_plan pd) = 0%nat.
Proof.
  intros Hf. unfold profile_plan. destruct pd as [dir|]; [|done].
  destruct (truthy_str _); simpl; by rewrite ?Hf.
Qed.

(** Claim C7.  In every run of [fetch_with_timeout], whatever the
    backend answers and whichever way the race with the deadline ends,
    each read of the collection stage is issued at most once: the page
    source, the console log ([get_log(browser)]) and the network log
    ([get_log(performance)]). *)
Theorem collect_at_most_once W url total_timeout kw s :
  exists ev,
    events (fetch_with_timeout W url total_timeout kw s).2 = events s ++ ev /\
    (count_calls reads_source (calls_of ev) <= 1)%nat /\
    (count_calls reads_console (calls_of ev) <= 1)%nat /\
    (count_calls reads_network (calls_of ev) <= 1)%nat.
Proof.
  destruct (fetch_with_timeout W url total_timeout kw s) as [r s'] eqn:E.
  destruct (issues_fetch_with_timeout _ _ _ _ _ _ _ E) as (ev & Hev & H).
  exists ev. split; [done|].
  pose proof (count_profile_plan reads_source (profile_dir kw) (fun _ => eq_refl)) as L1.
  pose proof (count_profile_plan reads_console (profile_dir kw) (fun _ => eq_refl)) as L2.
  pose proof (count_profile_plan reads_network (profile_dir kw) (fun _ => eq_refl)) as L3.
  destruct H as [(_ & o & Hpre) | (o & l' & -> & p & plt & sct & Hp & Hrace)].
  { pose proof (count_calls_prefix reads_source _ _ Hpre) as H1.
    pose proof (count_calls_prefix reads_console _ _ Hpre) as H2.
    pose proof (count_calls_prefix reads_network _ _ Hpre) as H3.
    rewrite count_calls_app in H1, H2, H3. simpl in *. lia. }
  destruct (worker_plan_count _ _ _ _ _ Hp) as (H1 & H2 & H3 & _).
  rewrite !count_calls_app, L1, L2, L3. simpl.
  destruct Hrace as [[Hpre _] | (_ & seen & final & -> & Hseen & Hfinal)].
  - pose proof (count_calls_prefix reads_source _ _ Hpre).
    pose proof (count_calls_prefix reads_console _ _ Hpre).
    pose proof (count_calls_prefix reads_network _ _ Hpre). lia.
  - pose proof (Hseen reads_source). pose proof (Hseen reads_console).
    pose proof (Hseen reads_network).
    rewrite !count_calls_app. destruct Hfinal as [-> | ->]; simpl; lia.
Qed.

(** When [fetch_with_timeout] returns a value, nothing has ended the
    driver. *)
Lemma completed_fetch_leaves_driver W url total_timeout kw s v s' :
  fetch_with_timeout W url total_timeout kw s = (Val v, s') ->
  exists ev, events s' = events s ++ ev /\ count_calls destroys (calls_of ev) = 0%nat.
Proof.
  intros E. destruct (issues_fetch_with_timeout _ _ _ _ _ _ _ E) as (ev & Hev & H).
  exists ev. split; [done|]. simpl in H.
  destruct H as [([=] & _) | (o & l' & -> & p & plt & sct & Hp & Hrace)].
  destruct (worker_plan_count _ _ _ _ _ Hp) as (_ & _ & _ & H4).
  destruct Hrace as [[_ Hval] | ([=] & _)]. rewrite (Hval eq_refl).
  rewrite !count_calls_app, H4, (count_profile_plan destroys) by done. done.
Qed.

(** Claim C1, at its failing input.  The backend answers at once and
    the fetch completes well before its five seconds: it returns the
    page, and no [quit] and no kill was ever issued on the driver that
    [fetch_with_timeout] created. *)
Theorem supervised_driver_is_never_closed :
  exists v s',
    fetch_with_timeout quick_world "http://example" 5 no_wait start_state = (Val v, s') /\
    count_calls destroys (calls_of (events s')) = 0%nat.
Proof. eexists _, _. split; [vm_compute; reflexivity | reflexivity]. Qed.

(** A timeout above [threading.TIMEOUT_MAX] is refused by the join:
    the race ends at once with [OverflowError], and the supervisor
    neither kills nor quits the driver. *)
Lemma race_overflow W url total_timeout kw plt sct start :
  TIMEOUT_MAX < total_timeout ->
  exists e, race W url total_timeout kw plt sct start = (Exc e, start) /\
            exn_cls e = OverflowError.
Proof.
  intros HT. unfold race. destruct (Z.ltb_spec TIMEOUT_MAX total_timeout); [|lia].
  by eexists.
Qed.




(** ** The order of the stages *)

Lemma launches_profile_plan pd : Forall (fun c => launches c = true) (profile_plan pd).
Proof.
  unfold profile_plan. destruct pd; [|constructor].
  destruct (truthy_str _); repeat constructor.
Qed.

Lemma cleanup_owned_run W s :
  exists r, cleanup W (Some Driver) true s =
              (r, St (now s + default 0 (answered (respond W (calls_of (events s)) Quit)))
                     (events s ++ [(now s, EvCall Quit)])) /\
            (r = Val tt \/ r = Hang).
Proof.
  unfold cleanup, try_except, bind, ask, ret, record, advance; simpl.
  destruct (respond W _ Quit); simpl; eexists; split; eauto.
  by rewrite Z.add_0_r.
Qed.

Lemma ask_events {W} c s r s' :
  ask W c s = (r, s') -> events s' = events s ++ [(now s, EvCall c)].
Proof. unfold ask. destruct (respond W _ c); by intros [= <- <-]. Qed.

(** A run of [_fetch_rendered_inner]: the session is opened, the
    stages run in the order of the plan as far as they get, and the
    driver is quit if the function created it. *)
Lemma inner_run W url kw _driver plt sct s r s' :
  _fetch_rendered_inner W url kw _driver plt sct s = (r, s') ->
  exists ev opening body closing p,
    events s' = events s ++ ev /\
    calls_of ev = opening ++ body ++ closing /\
    Forall (fun c => launches c = true) opening /\
    (closing = [] \/ closing = [Quit]) /\
    stage_plan url kw plt sct p /\
    body `prefix_of` p /\
    (is_val r -> body = p /\ closing = match _driver with Some _ => [] | None => [Quit] end).
Proof.
  unfold _fetch_rendered_inner. intros E.
  destruct (stage_plan_inhabited url kw plt sct) as [p0 Hp0].
  assert (Hstop : forall (r0 : res chrome_options),
             _build_chrome_options W (width kw) (height kw) (capture_console kw)
               (capture_network kw) (profile_dir kw) s = (r0, s') -> ~ is_val r ->
             exists ev opening body closing p,
               events s' = events s ++ ev /\ calls_of ev = opening ++ body ++ closing /\
               Forall (fun c => launches c = true) opening /\
               (closing = [] \/ closing = [Quit]) /\ stage_plan url kw plt sct p /\
               body `prefix_of` p /\
               (is_val r -> body = p /\ closing = match _driver with Some _ => [] | None => [Quit] end)).
  { intros r0 E0 Hr.
    destruct (emits_build_chrome_options _ _ _ _ _ _ _ _ _ E0)
      as (ev & p & Hev & -> & [k Hk] & _).
    exists ev, (calls_of ev), [], [], p0. rewrite app_nil_r.
    repeat split; auto using prefix_nil; try done.
    pose proof (launches_profile_plan (profile_dir kw)) as HF.
    rewrite Hk in HF. by apply Forall_app in HF as [? _]. }
  apply bind_inv in E as [(o & s1 & E1 & E) | [(e & E1 & ->) | [E1 ->]]];
    [| eapply Hstop; [exact E1 | simpl; tauto] ..].
  clear Hstop.
  destruct (emits_build_chrome_options _ _ _ _ _ _ _ _ _ E1)
    as (ev1 & p1 & Hev1 & -> & _ & Hv1). specialize (Hv1 I).
  pose proof (launches_profile_plan (profile_dir kw)) as HF.
  destruct _driver as [d|].
  - cbn [negb is_Some_b] in E. unfold cleanup in E. cbn [is_Some_b andb] in E.
    rewrite try_finally_ret in E.
    destruct (emits_stages _ _ _ _ _ _ _ _ E) as (ev2 & p & Hev2 & Hp & Hpre & Hval).
    exists (ev1 ++ ev2), (profile_plan (profile_dir kw)), (calls_of ev2), [], p.
    rewrite calls_of_app, Hv1, app_nil_r, Hev2, Hev1, app_assoc. auto 10.
  - cbn [negb is_Some_b] in E.
    destruct (ask W (NewChrome o) s1) as [[v|e|] s2] eqn:E2;
      destruct (emits_ask _ _ _ _ _ E2) as (ev2 & p2 & Hev2 & -> & _ & Hv2).
    + specialize (Hv2 I). unfold try_finally in E.
      destruct (stages W url kw plt sct s2) as [r1 s3] eqn:E3.
      destruct (emits_stages _ _ _ _ _ _ _ _ E3) as (ev3 & p & Hev3 & Hp & Hpre & Hval).
      assert (HF' : Forall (fun c => launches c = true)
                      (profile_plan (profile_dir kw) ++ [NewChrome o])).
      { apply Forall_app. split; [done | by repeat constructor]. }
      destruct (cleanup_owned_run W s3) as (rc & Ec & Hrc).
      destruct r1 as [a|e|].
      * rewrite Ec in E.
        exists (ev1 ++ ev2 ++ ev3 ++ [(now s3, EvCall Quit)]),
          (profile_plan (profile_dir kw) ++ [NewChrome o]), (calls_of ev3), [Quit], p.
        rewrite !calls_of_app, Hv1, Hv2.
        destruct Hrc as [-> | ->]; injection E as <- <-; simpl;
          rewrite Hev3, Hev2, Hev1, <- !app_assoc; repeat split; auto.
        all: try (by apply Hval). all: done.
      * rewrite Ec in E.
        exists (ev1 ++ ev2 ++ ev3 ++ [(now s3, EvCall Quit)]),
          (profile_plan (profile_dir kw) ++ [NewChrome o]), (calls_of ev3), [Quit], p.
        rewrite !calls_of_app, Hv1, Hv2.
        destruct Hrc as [-> | ->]; injection E as Hr Hs; subst r s'; simpl;
          rewrite Hev3, Hev2, Hev1, <- !app_assoc; repeat split; auto; done.
      * injection E as <- <-.
        exists (ev1 ++ ev2 ++ ev3),
          (profile_plan (profile_dir kw) ++ [NewChrome o]), (calls_of ev3), [], p.
        rewrite !calls_of_app, Hv1, Hv2, app_nil_r, Hev3, Hev2, Hev1, <- !app_assoc.
        repeat split; auto; done.
    + unfold try_finally, raise, cleanup in E. cbn [is_Some_b andb] in E.
      injection E as <- <-.
      exists (ev1 ++ ev2), (calls_of (ev1 ++ ev2)), [], [], p0.
      rewrite app_nil_r, Hev2, Hev1, <- app_assoc, calls_of_app, Hv1.
      repeat split; auto using prefix_nil; try done.
      apply Forall_app. split; [done|].
      rewrite (ask_events _ _ _ _ E2) in Hev2. apply app_inv_head in Hev2.
      subst ev2. by repeat constructor.
    + injection E as <- <-.
      exists (ev1 ++ ev2), (calls_of (ev1 ++ ev2)), [], [], p0.
      rewrite app_nil_r, Hev2, Hev1, <- app_assoc, calls_of_app, Hv1.
      repeat split; auto using prefix_nil; try done.
      apply Forall_app. split; [done|].
      rewrite (ask_events _ _ _ _ E2) in Hev2. apply app_inv_head in Hev2.
      subst ev2. by repeat constructor.
Qed.


(** Claim C4, at its failing inputs.  The driver is created before the
    deadline starts to run: when chromedriver never starts,
    [fetch_with_timeout] never returns, whatever the deadline; when it
    takes two minutes to start and the page then hangs, the timeout of
    five seconds is reported after 125 seconds. *)
Theorem driver_startup_is_outside_the_deadline :
  (fetch_with_timeout stalled_launch_world "http://example" 5 no_wait start_state).1 = Hang /\
  exists s',
    fetch_with_timeout slow_launch_world "http://example" 5 no_wait start_state
    = (Exc (timeout_error 5 "http://example"), s') /\
    now s' = 125000.
Proof. split; [by vm_compute | eexists; split; by vm_compute]. Qed.

(** ** The memory check *)

Lemma fetch_with_timeout_after_check W meminfo url total_timeout kw :
  fetch_with_timeout (with_meminfo W meminfo) url total_timeout kw =
  bind (mem_check (with_meminfo W meminfo)) (fun _ => after_mem_check W url total_timeout kw).
Proof. reflexivity. Qed.

Lemma uniform_after_mem_check W url total_timeout kw :
  uniform (after_mem_check W url total_timeout kw).
Proof.
  unfold after_mem_check.
  repeat (apply uniform_bind; [auto using uniform_lift, uniform_build_chrome_options,
                                 uniform_ask | intros ?]).
  apply uniform_race.
Qed.

Lemma mem_warning_is_warning W w :
  mem_warning W = Ok (Some w) -> exists mb, w = LogMemWarn mb.
Proof.
  unfold mem_warning. intros E.
  repeat match type of E with
         | py_bind ?m _ = _ => destruct m; simpl in E; try discriminate
         | (if ?c then _ else _) = _ => destruct c; simpl in E; try discriminate
         end.
  injection E as <-. by eexists.
Qed.

(** The memory check returns, and changes neither the clock nor the
    calls: at most it prints its warning. *)
Lemma mem_check_advisory W s :
  exists s', mem_check W s = (Val tt, s') /\ agree s' s /\
             besides_mem_warning (events s') = besides_mem_warning (events s).
Proof.
  unfold mem_check.
  destruct (mem_warning W) as [[w|]|e] eqn:Ew; try by (exists s).
  destruct (mem_warning_is_warning _ _ Ew) as [mb ->].
  eexists. split; [reflexivity|]. unfold agree, print, record; simpl.
  rewrite calls_of_app, app_nil_r. split; [done|].
  unfold besides_mem_warning. rewrite List.filter_app. simpl. by rewrite app_nil_r.
Qed.

Lemma besides_mem_warning_app e1 e2 :
  besides_mem_warning (e1 ++ e2) = besides_mem_warning e1 ++ besides_mem_warning e2.
Proof. apply List.filter_app. Qed.

(** Claim C9.  The memory check never raises, and what
    /proc/meminfo holds, or whether it can be read at all, changes
    nothing of a fetch but the warning printed: the result, the time
    and every other event are the same. *)
Theorem memory_check_is_advisory W meminfo1 meminfo2 url total_timeout kw s :
  let run1 := fetch_with_timeout (with_meminfo W meminfo1) url total_timeout kw s in
  let run2 := fetch_with_timeout (with_meminfo W meminfo2) url total_timeout kw s in
  (exists s1, mem_check (with_meminfo W meminfo1) s = (Val tt, s1)) /\
  run1.1 = run2.1 /\
  now run1.2 = now run2.2 /\
  besides_mem_warning (events run1.2) = besides_mem_warning (events run2.2).
Proof.
  intros run1 run2. subst run1 run2.
  rewrite !fetch_with_timeout_after_check. unfold bind.
  destruct (mem_check_advisory (with_meminfo W meminfo1) s) as (s1 & -> & [Ht1 Hc1] & Hb1).
  destruct (mem_check_advisory (with_meminfo W meminfo2) s) as (s2 & -> & [Ht2 Hc2] & Hb2).
  split; [by eexists|].
  assert (Hs : agree s1 s2) by (split; congruence).
  destruct (uniform_after_mem_check W url total_timeout kw _ _ Hs) as (r & t & ev & -> & ->).
  simpl. rewrite !besides_mem_warning_app, Hb1, Hb2. done.
Qed.

(** ** The network log *)

Lemma network_loop_ok W acc entries requests :
  network_loop W acc entries = Ok requests ->
  requests = acc ++ omap (record_of W) entries.
Proof.
  revert acc. induction entries as [|entry rest IH]; intros acc; simpl.
  - intros [= <-]. by rewrite app_nil_r.
  - unfold record_of. destruct (network_entry W entry) as [[r|]|e].
    + intros E. rewrite (IH _ E). by rewrite <- app_assoc.
    + apply IH.
    + destruct (skipped e); [apply IH | discriminate].
Qed.

Lemma network_loop_skip W acc l1 bad l2 e :
  network_entry W bad = Err e -> skipped e = true ->
  network_loop W acc (l1 ++ bad :: l2) = network_loop W acc (l1 ++ l2).
Proof.
  intros Hbad Hskip. revert acc. induction l1 as [|entry l1 IH]; intros acc; simpl.
  - by rewrite Hbad, Hskip.
  - destruct (network_entry W entry) as [[r|]|e']; auto.
    destruct (skipped e'); auto.
Qed.

Lemma network_entry_tagged W entry r :
  network_entry W entry = Ok (Some r) ->
  getitem r "type" = Ok (PStr "request") \/ getitem r "type" = Ok (PStr "response").
Proof.
  unfold network_entry. intros E.
  repeat match type of E with
         | py_bind ?m _ = _ => destruct m; simpl in E; try discriminate
         | (if ?c then _ else _) = _ => destruct c; simpl in E; try discriminate
         end.
  all: injection E as <-; auto.
Qed.

(** Claim C10.  Every record of [network_requests] is tagged
    [request] or [response]; the records are those of the entries of
    the performance log, in the order of the log; and an entry whose
    processing raises [JSONDecodeError] or [KeyError] is skipped, the
    loop going on as if the entry were not there.  Such are an entry
    without [message], one whose text does not decode, and one whose
    decoded object has no [message]. *)
Theorem network_requests_tagged_in_order W :
  (forall perf_logs requests,
     collect_network W perf_logs = Ok requests ->
     Forall (fun r => getitem r "type" = Ok (PStr "request") \/
                      getitem r "type" = Ok (PStr "response")) requests /\
     exists entries, iterate perf_logs = Ok entries /\
                     requests = omap (record_of W) entries) /\
  (forall acc l1 bad l2 e,
     network_entry W bad = Err e ->
     exn_cls e = JSONDecodeError \/ exn_cls e = KeyError ->
     network_loop W acc (l1 ++ bad :: l2) = network_loop W acc (l1 ++ l2)) /\
  (forall d, dict_lookup d "message" = None ->
     exists e, network_entry W (PDict d) = Err e /\ exn_cls e = KeyError) /\
  (forall d text, dict_lookup d "message" = Some (PStr text) -> json_loads W text = None ->
     exists e, network_entry W (PDict d) = Err e /\ exn_cls e = JSONDecodeError) /\
  (forall d text d', dict_lookup d "message" = Some (PStr text) ->
     json_loads W text = Some (PDict d') -> dict_lookup d' "message" = None ->
     exists e, network_entry W (PDict d) = Err e /\ exn_cls e = KeyError).
Proof.
  repeat split.
  - unfold collect_network in H. destruct (iterate perf_logs) as [entries|]; [|done].
    simpl in H. apply network_loop_ok in H as ->. simpl.
    apply Forall_forall. intros r Hr. apply list_elem_of_omap in Hr as (entry & _ & Hr).
    unfold record_of in Hr. destruct (network_entry W entry) as [[r'|]|] eqn:E; try done.
    injection Hr as ->. by eapply network_entry_tagged.
  - unfold collect_network in H. destruct (iterate perf_logs) as [entries|]; [|done].
    exists entries. split; [done|]. simpl in H. by apply network_loop_ok in H.
  - intros acc l1 bad l2 e Hbad Hcls. apply (network_loop_skip _ _ _ _ _ e); [done|].
    unfold skipped. by destruct Hcls as [-> | ->].
  - intros d Hd. unfold network_entry, getitem. rewrite Hd. by eexists.
  - intros d text Hd Hj. unfold network_entry, getitem. rewrite Hd. simpl. rewrite Hj.
    by eexists.
  - intros d text d' Hd Hj Hd'. unfold network_entry, getitem. rewrite Hd. simpl.
    rewrite Hj. simpl. rewrite Hd'. by eexists.
Qed.

Lemma network_requests_tagged_in_order_witness :
  collect_network logging_world
    (PList [PDict [("message", PStr "request")];
            PDict [("message", PStr "{truncated")];
            PDict [("level", PStr "INFO")];
            PDict [("message", PStr "response")]])
  = Ok [PDict [("type", PStr "request"); ("url", PStr "http://example/");
               ("method", PStr "GET"); ("resource_type", PStr "Document")];
        PDict [("type", PStr "response"); ("url", PStr "http://example/");
               ("status", PInt 200); ("mime", PStr "text/html");
               ("headers", PDict [])]] /\
  network_loop logging_world []
    ([PDict [("message", PStr "request")]] ++ PDict [("message", PStr "{truncated")]
       :: [PDict [("message", PStr "response")]])
  = network_loop logging_world []
      ([PDict [("message", PStr "request")]] ++ [PDict [("message", PStr "response")]]).
Proof.
  split; [reflexivity|].
  destruct (network_requests_tagged_in_order logging_world) as (_ & Hskip & _ & Hjson & _).
  destruct (Hjson [("message", PStr "{truncated")] "{truncated" eq_refl eq_refl)
    as (e & He & Hcls).
  apply (Hskip _ _ _ _ e He). by left.
Defined.

(** ** The exit status *)


Lemma main_parsed W argv s o s1 :
  (2 <= length argv)%nat -> asks_help argv = false ->
  parse_args W (tail argv) cli_initial s = (Val o, s1) ->
  main W argv s =
  if negb (truthy_str (cli_url o))
  then (Val 1, record (EvPrint LogUrlRequired) s1)
  else
    match cli_fetch W o s1 with
    | (Val r, s2) =>
        match report o (cli_screenshot o) r s2 with
        | (Val _, s3) => (Val 0, s3)
        | (Exc e, s3) =>
            match exn_cls e with
            | TimeoutError => (Val 2, record (EvPrint (LogTimeoutExit e)) s3)
            | _ => (Val 1, record (EvPrint (LogErrorFetching (default "" (cli_url o)) e)) s3)
            end
        | (Hang, s3) => (Hang, s3)
        end
    | (Exc e, s2) =>
        match exn_cls e with
        | TimeoutError => (Val 2, record (EvPrint (LogTimeoutExit e)) s2)
        | _ => (Val 1, record (EvPrint (LogErrorFetching (default "" (cli_url o)) e)) s2)
        end
    | (Hang, s2) => (Hang, s2)
    end.
Proof.
  intros Hlen Hhelp Hparse.
  destruct argv as [|prog [|first rest]]; simpl in Hlen; try lia.
  simpl in Hhelp. unfold main, uncaught. rewrite Hhelp.
  unfold try_except at 1. unfold bind at 1. rewrite Hparse.
  destruct (truthy_str (cli_url o)); simpl; [|reflexivity].
  unfold try_except, bind, cli_fetch, cli_screenshot.
  destruct (fetch_with_timeout _ _ _ _ s1) as [[r|e|] s2]; simpl.
  - destruct (report _ _ _ s2) as [[[]|e|] s3]; simpl; try reflexivity.
    by destruct (exn_cls e).
  - by destruct (exn_cls e).
  - reflexivity.
Qed.



(** ** Binary64 arithmetic *)

Lemma digits2_pos_size p : digits2_pos p = Pos.size p.
Proof. induction p; simpl; congruence. Qed.

(** The number of binary digits of [p] is [d] when [p] lies between
    [2^(d-1)] and [2^d]. *)
Lemma digits2_pos_bounds p d :
  2 ^ (d - 1) <= Z.pos p < 2 ^ d -> Z.pos (digits2_pos p) = d.
Proof.
  intros [Hlo Hhi]. rewrite digits2_pos_size.
  pose proof (Pos.size_gt p) as Hgt. pose proof (Pos.size_le p) as Hle.
  apply Pos2Z.pos_lt_pos in Hgt. apply Pos2Z.pos_le_pos in Hle.
  rewrite Pos2Z.inj_pow in Hgt, Hle. change (Z.pos p~0) with (2 * Z.pos p) in Hle.
  set (k := Z.pos (Pos.size p)) in *.
  assert (0 < k) by (subst k; lia).
  assert (0 <= d).
  { destruct (Z.lt_ge_cases d 0); [|done]. rewrite Z.pow_neg_r in Hhi; lia. }
  destruct (Z.lt_trichotomy k d) as [Hlt | [-> | Hgt']]; [| done |].
  - assert (2 ^ k <= 2 ^ (d - 1)) by (apply Z.pow_le_mono_r; lia). lia.
  - assert (2 ^ d <= 2 ^ (k - 1)) by (apply Z.pow_le_mono_r; lia).
    assert (2 ^ k = 2 * 2 ^ (k - 1)).
    { rewrite <- Z.pow_succ_r by lia. f_equal. lia. }
    lia.
Qed.

Lemma iter_xO p (k : positive) : Z.pos (Pos.iter xO p k) = Z.pos p * 2 ^ Z.pos k.
Proof.
  revert p. induction k using Pos.peano_ind; intros p.
  - simpl. lia.
  - rewrite Pos.iter_succ, Pos2Z.inj_xO, IHk, Pos2Z.inj_succ, Z.pow_succ_r by lia. lia.
Qed.

Lemma iter_pos_nat {A} (f : A -> A) p x :
  SpecFloat.iter_pos f p x = Nat.iter (Pos.to_nat p) f x.
Proof.
  revert x. induction p as [p IH | p IH |]; intros x; cbn [SpecFloat.iter_pos].
  - rewrite !IH, Pos2Nat.inj_xI, Nat.iter_succ_r.
    replace (2 * Pos.to_nat p)%nat with (Pos.to_nat p + Pos.to_nat p)%nat by lia.
    by rewrite Nat.iter_add.
  - rewrite !IH, Pos2Nat.inj_xO.
    replace (2 * Pos.to_nat p)%nat with (Pos.to_nat p + Pos.to_nat p)%nat by lia.
    by rewrite Nat.iter_add.
  - reflexivity.
Qed.

Lemma shr_1_nonneg m r s :
  0 <= m -> shr_1 (Build_shr_record m r s) = Build_shr_record (m / 2) (Z.odd m) (r || s).
Proof.
  intros Hm. destruct m as [|p|p]; [reflexivity | | lia].
  destruct p as [p|p|]; simpl.
  - f_equal. rewrite Pos2Z.inj_xI. apply Z.div_unique with 1; lia.
  - f_equal. rewrite Pos2Z.inj_xO. apply Z.div_unique with 0; lia.
  - reflexivity.
Qed.

(** Shifting an exact mantissa right by [n + 1] bits: the quotient,
    the first bit lost, and whether any lower bit is set. *)
Lemma shr_iter m (n : nat) :
  0 <= m ->
  Nat.iter (S n) shr_1 (Build_shr_record m false false) =
  Build_shr_record (m / 2 ^ Z.of_nat (S n)) (Z.odd (m / 2 ^ Z.of_nat n))
    (negb (m mod 2 ^ Z.of_nat n =? 0)).
Proof.
  intros Hm. induction n as [|n IH].
  - cbn [Nat.iter]. rewrite shr_1_nonneg by done.
    change (Z.of_nat 1) with 1. change (Z.of_nat 0) with 0.
    by rewrite Z.pow_1_r, Z.pow_0_r, Z.div_1_r, Z.mod_1_r.
  - change (Nat.iter (S (S n)) shr_1 ?x) with (shr_1 (Nat.iter (S n) shr_1 x)).
    rewrite IH, shr_1_nonneg by (apply Z.div_pos; lia).
    assert (Hp : 0 < 2 ^ Z.of_nat n) by (apply Z.pow_pos_nonneg; lia).
    f_equal.
    + rewrite Z.div_div by lia. f_equal.
      rewrite (Nat2Z.inj_succ (S n)), Z.pow_succ_r by lia. lia.
    + rewrite (Nat2Z.inj_succ n), Z.pow_succ_r by lia.
      rewrite (Z.mul_comm 2), Z.rem_mul_r by lia.
      rewrite Zodd_mod.
      pose proof (Z.mod_pos_bound m (2 ^ Z.of_nat n) Hp).
      pose proof (Z.mod_pos_bound (m / 2 ^ Z.of_nat n) 2 ltac:(lia)).
      destruct (Z.eqb_spec ((m / 2 ^ Z.of_nat n) mod 2) 1) as [E|E];
        destruct (Z.eqb_spec (m mod 2 ^ Z.of_nat n) 0) as [E'|E'];
        match goal with |- context [?a =? 0] => destruct (Z.eqb_spec a 0) end;
        simpl; try reflexivity; exfalso; nia.
Qed.

Lemma fexp_normal e : -1021 <= e -> fexp 53 1024 e = e - 53.
Proof. intros H. unfold fexp, emin. lia. Qed.

Lemma shr_exact m e n :
  0 <= m -> 0 < n ->
  shr (Build_shr_record m false false) e n =
  (Build_shr_record (m / 2 ^ n) (Z.odd (m / 2 ^ (n - 1))) (negb (m mod 2 ^ (n - 1) =? 0)),
   e + n).
Proof.
  intros Hm Hn. destruct n as [|p|p]; [lia | | lia]. unfold shr.
  rewrite iter_pos_nat.
  destruct (Pos.to_nat p) as [|k] eqn:Ek; [lia|].
  rewrite shr_iter by done.
  replace (Z.of_nat (S k)) with (Z.pos p) by lia.
  replace (Z.of_nat k) with (Z.pos p - 1) by lia. reflexivity.
Qed.

Lemma round_even_location m n :
  round_nearest_even (m / 2 ^ n)
    (loc_of_shr_record
       (Build_shr_record (m / 2 ^ n) (Z.odd (m / 2 ^ (n - 1)))
          (negb (m mod 2 ^ (n - 1) =? 0))))
  = round_even m n.
Proof.
  unfold round_even, round_nearest_even, loc_of_shr_record.
  destruct (Z.odd (m / 2 ^ (n - 1))), (negb (m mod 2 ^ (n - 1) =? 0)); simpl;
    try reflexivity.
  rewrite <- Z.negb_even. by destruct (Z.even (m / 2 ^ n)).
Qed.

Lemma round_even_bounds m n :
  0 <= m -> 0 < n -> m / 2 ^ n <= round_even m n <= m / 2 ^ n + 1.
Proof. intros. unfold round_even. destruct (_ && _); lia. Qed.

(** Rounding a mantissa of [D > 53] digits to 53 digits, away from the
    subnormal and the overflow range. *)
Lemma binary_round_aux_large (sx : bool) (P : positive) (e D : Z) :
  2 ^ (D - 1) <= Z.pos P < 2 ^ D -> 54 <= D -> -1021 <= D + e -> D + e <= 1023 ->
  binary_round_aux 53 1024 sx (Z.pos P) e loc_Exact =
  let m1 := round_even (Z.pos P) (D - 53) in
  if m1 =? 2 ^ 53
  then S754_finite sx 4503599627370496 (e + (D - 53) + 1)
  else S754_finite sx (Z.to_pos m1) (e + (D - 53)).
Proof.
  intros HP HD Hlo Hhi. unfold binary_round_aux, shr_fexp.
  cbn [Zdigits2 shr_record_of_loc]. rewrite (digits2_pos_bounds P D HP).
  rewrite fexp_normal by lia.
  replace (D + e - 53 - e) with (D - 53) by lia.
  rewrite shr_exact by lia. cbn [shr_m]. rewrite round_even_location.
  set (n := D - 53). set (m1 := round_even (Z.pos P) n). cbv zeta.
  pose proof (round_even_bounds (Z.pos P) n ltac:(lia) ltac:(lia)) as Hm1. fold m1 in Hm1.
  assert (Hq : 2 ^ 52 <= Z.pos P / 2 ^ n < 2 ^ 53).
  { assert (Hpow : 2 ^ D = 2 ^ 53 * 2 ^ n).
    { rewrite <- Z.pow_add_r by lia. f_equal. lia. }
    assert (Hpow' : 2 ^ (D - 1) = 2 ^ 52 * 2 ^ n).
    { rewrite <- Z.pow_add_r by lia. f_equal. lia. }
    assert (0 < 2 ^ n) by (apply Z.pow_pos_nonneg; lia).
    split.
    - apply Z.div_le_lower_bound; lia.
    - apply Z.div_lt_upper_bound; lia. }
  destruct (Z.eqb_spec m1 (2 ^ 53)) as [E|E].
  - rewrite E. change (2 ^ 53) with (Z.pos (2 ^ 53)). cbn [Zdigits2].
    rewrite (digits2_pos_bounds _ 54) by (split; [done | reflexivity]).
    rewrite fexp_normal by lia.
    replace (54 + (e + n) - 53 - (e + n)) with 1 by lia.
    cbn -[Z.add Z.leb Z.sub]. destruct (Z.leb_spec (e + n + 1) (1024 - 53)); [done | lia].
  - assert (Hm1' : 2 ^ 52 <= m1 < 2 ^ 53) by lia.
    destruct m1 as [|p1|p1] eqn:Ep1; try lia.
    cbn [Zdigits2 shr_record_of_loc]. rewrite (digits2_pos_bounds p1 53) by done.
    rewrite fexp_normal by lia.
    replace (53 + (e + n) - 53 - (e + n)) with 0 by lia.
    cbn [shr shr_m Z.to_pos]. destruct (Z.leb_spec (e + n) (1024 - 53)); [done | lia].
Qed.

(** A mantissa of exactly 53 digits is kept as it is. *)
Lemma binary_round_aux_exact (sx : bool) (m : positive) (e : Z) :
  2 ^ 52 <= Z.pos m < 2 ^ 53 -> -1074 <= e <= 971 ->
  binary_round_aux 53 1024 sx (Z.pos m) e loc_Exact = S754_finite sx m e.
Proof.
  intros Hm He. unfold binary_round_aux, shr_fexp.
  cbn [Zdigits2 shr_record_of_loc]. rewrite (digits2_pos_bounds m 53) by done.
  rewrite fexp_normal by lia. replace (53 + e - 53 - e) with 0 by lia.
  cbn [shr shr_m loc_of_shr_record round_nearest_even Zdigits2 shr_record_of_loc].
  rewrite (digits2_pos_bounds m 53) by done.
  rewrite fexp_normal by lia. replace (53 + e - 53 - e) with 0 by lia.
  cbn [shr shr_m]. destruct (Z.leb_spec e (1024 - 53)); [done | lia].
Qed.

(** The digits of a positive integer. *)
Lemma digits_exist T :
  0 < T -> exists d, 1 <= d /\ 2 ^ (d - 1) <= T < 2 ^ d.
Proof.
  intros HT. exists (Z.succ (Z.log2 T)).
  pose proof (Z.log2_nonneg T). pose proof (Z.log2_spec T HT).
  replace (Z.succ (Z.log2 T) - 1) with (Z.log2 T) by lia. lia.
Qed.

(** [float(n)] for an integer of at most 53 digits: the mantissa is
    [n] shifted to 53 digits, and nothing is lost. *)
Lemma binary_round_small (sx : bool) (p : positive) (d : Z) :
  2 ^ (d - 1) <= Z.pos p < 2 ^ d -> 1 <= d <= 53 ->
  binary_round 53 1024 sx p 0 =
  S754_finite sx (Z.to_pos (Z.pos p * 2 ^ (53 - d))) (d - 53).
Proof.
  intros Hp Hd. unfold binary_round.
  rewrite (digits2_pos_bounds p d Hp), fexp_normal by lia.
  unfold shl_align. replace (d + 0 - 53 - 0) with (d - 53) by lia.
  replace (d + 0 - 53) with (d - 53) by lia.
  assert (Hpow : 2 ^ 52 = 2 ^ (d - 1) * 2 ^ (53 - d)).
  { rewrite <- Z.pow_add_r by lia. f_equal. lia. }
  assert (Hpow' : 2 ^ 53 = 2 ^ d * 2 ^ (53 - d)).
  { rewrite <- Z.pow_add_r by lia. f_equal. lia. }
  assert (0 < 2 ^ (53 - d)) by (apply Z.pow_pos_nonneg; lia).
  destruct (d - 53) as [|k|k] eqn:Ek; try lia.
  - replace (53 - d) with 0 in * by lia. rewrite Z.pow_0_r in *.
    rewrite Z.mul_1_r. cbn [Z.to_pos]. apply binary_round_aux_exact; lia.
  - replace (53 - d) with (Z.pos k) in * by lia.
    rewrite <- iter_xO. cbn [Z.to_pos].
    apply binary_round_aux_exact; [rewrite iter_xO; nia | lia].
Qed.

Lemma round_even_cases m n :
  0 <= m -> 1 <= n ->
  exists q h low,
    m = (2 * q + h) * 2 ^ (n - 1) + low /\ 0 <= low < 2 ^ (n - 1) /\ 0 <= h <= 1 /\
    0 <= q /\ q = m / 2 ^ n /\
    (round_even m n = q \/ round_even m n = q + 1) /\
    (round_even m n = q + 1 -> h = 1) /\
    (h = 1 -> 0 < low -> round_even m n = q + 1) /\
    (h = 0 -> round_even m n = q).
Proof.
  intros Hm Hn.
  assert (Hp : 0 < 2 ^ (n - 1)) by (apply Z.pow_pos_nonneg; lia).
  assert (Hpow : 2 ^ n = 2 ^ (n - 1) * 2).
  { replace n with (Z.succ (n - 1)) at 1 by lia. rewrite Z.pow_succ_r by lia. lia. }
  set (q' := m / 2 ^ (n - 1)). set (low := m mod 2 ^ (n - 1)).
  assert (Hq' : m = q' * 2 ^ (n - 1) + low).
  { subst q' low. rewrite Z.mul_comm. apply Z.div_mod. lia. }
  assert (Hlow : 0 <= low < 2 ^ (n - 1)) by (apply Z.mod_pos_bound; lia).
  assert (Hq : m / 2 ^ n = q' / 2).
  { rewrite Hpow, <- Z.div_div by lia. reflexivity. }
  assert (0 <= q') by (apply Z.div_pos; lia).
  exists (q' / 2), (q' mod 2), low.
  pose proof (Z.div_mod q' 2 ltac:(lia)) as Hdm.
  pose proof (Z.mod_pos_bound q' 2 ltac:(lia)) as Hmb.
  assert (0 <= q' / 2) by (apply Z.div_pos; lia).
  unfold round_even. fold q' low. rewrite Hq, (Zodd_mod q').
  repeat split; try lia.
  - destruct (_ && _); lia.
  - destruct (Z.eqb_spec (q' mod 2) 1); simpl; [lia|]. lia.
  - intros Hh Hl. rewrite Hh. simpl.
    destruct (Z.eqb_spec low 0); [lia|]. reflexivity.
  - intros Hh. rewrite Hh. reflexivity.
Qed.

Ltac pow_consts :=
  repeat match goal with
         | |- context [2 ^ Z.pos ?p] =>
             let v := eval vm_compute in (2 ^ Z.pos p) in change (2 ^ Z.pos p) with v
         | H : context [2 ^ Z.pos ?p] |- _ =>
             let v := eval vm_compute in (2 ^ Z.pos p) in change (2 ^ Z.pos p) with v in H
         end.

(** The integer part of the double nearest to [0.6 * T]: the mantissa
    of [T] is [T * t], with [t] a power of two. *)
Lemma floor_0_6 T t :
  0 < T -> 8 <= t -> 2 ^ 52 <= T * t < 2 ^ 53 ->
  let M := T * t * 5404319552844595 in
  (M < 2 ^ 105 -> round_even M 52 / (2 * t) = 3 * T / 5) /\
  (2 ^ 105 <= M -> round_even M 53 / t = 3 * T / 5).
Proof.
  intros HT Ht Hmz M.
  pose proof (Z.div_mod (3 * T) 5 ltac:(lia)) as Hk.
  pose proof (Z.mod_pos_bound (3 * T) 5 ltac:(lia)) as Hj.
  set (k := 3 * T / 5) in *. set (j := (3 * T) mod 5) in *.
  assert (HU : 3 * (T * t) = 5 * (k * t) + j * t).
  { replace (3 * (T * t)) with (3 * T * t) by ring. rewrite Hk. ring. }
  assert (HM : M = T * t * 5404319552844595) by reflexivity.
  assert (Hk0 : 0 <= k) by (subst k; apply Z.div_pos; lia).
  assert (HU0 : 0 <= k * t) by nia.
  set (mz := T * t) in *. set (U := k * t) in *.
  assert (HUk : t * k = U) by (subst U; ring).
  clearbody M mz U.
  split; intros HD.
  - destruct (round_even_cases M 52 ltac:(lia) ltac:(lia))
      as (q & h & low & HMq & Hlow & Hh & Hq0 & _ & Hm1 & Hup & Hup' & Hdown).
    set (m1 := round_even M 52) in *. clearbody m1.
    replace (52 - 1) with 51 in * by lia. pow_consts.
    symmetry. apply Z.div_unique with (m1 - 2 * U).
    + assert (j = 0 \/ j = 1 \/ j = 2 \/ j = 3 \/ j = 4) as [Ej|[Ej|[Ej|[Ej|Ej]]]] by lia;
        rewrite Ej in HU; lia.
    + replace (2 * t * k) with (2 * U) by (rewrite <- HUk; ring). ring.
  - destruct (round_even_cases M 53 ltac:(lia) ltac:(lia))
      as (q & h & low & HMq & Hlow & Hh & Hq0 & _ & Hm1 & Hup & Hup' & Hdown).
    set (m1 := round_even M 53) in *. clearbody m1.
    replace (53 - 1) with 52 in * by lia. pow_consts.
    symmetry. apply Z.div_unique with (m1 - U).
    + assert (j = 0 \/ j = 1 \/ j = 2 \/ j = 3 \/ j = 4) as [Ej|[Ej|[Ej|[Ej|Ej]]]] by lia;
        rewrite Ej in HU; lia.
    + rewrite HUk. ring.
Qed.

Lemma round_even_exact a n : 0 <= a -> 1 <= n -> round_even (a * 2 ^ n) n = a.
Proof.
  intros Ha Hn. unfold round_even.
  assert (Hp : 0 < 2 ^ (n - 1)) by (apply Z.pow_pos_nonneg; lia).
  assert (Hpow : 2 ^ n = 2 * 2 ^ (n - 1)).
  { replace n with (Z.succ (n - 1)) at 1 by lia. rewrite Z.pow_succ_r by lia. lia. }
  rewrite Z.div_mul by lia.
  replace (a * 2 ^ n) with (2 * a * 2 ^ (n - 1)) by (rewrite Hpow; ring).
  rewrite Z.div_mul by lia.
  replace (2 * a) with (0 + 2 * a) by ring. by rewrite Z.odd_add_mul_2.
Qed.

Lemma to_int_finite (sx : bool) (m : positive) (e : Z) :
  e < 0 ->
  Float.to_int (S754_finite sx m e) =
  Ok (if sx then - (Z.pos m / 2 ^ (- e)) else Z.pos m / 2 ^ (- e)).
Proof. intros He. unfold Float.to_int. destruct (Z.leb_spec 0 e); [lia | done]. Qed.

(** The product of a normal number with a 53-digit constant. *)
Lemma mul_normal (sx : bool) (mz c : positive) (ez ec : Z) :
  2 ^ 52 <= Z.pos mz < 2 ^ 53 -> 2 ^ 52 <= Z.pos c < 2 ^ 53 ->
  -900 <= ez + ec <= 900 ->
  Float.mul (S754_finite sx mz ez) (S754_finite false c ec) =
  let M := Z.pos mz * Z.pos c in
  let D := if M <? 2 ^ 105 then 105 else 106 in
  let m1 := round_even M (D - 53) in
  if m1 =? 2 ^ 53
  then S754_finite sx 4503599627370496 (ez + ec + (D - 53) + 1)
  else S754_finite sx (Z.to_pos m1) (ez + ec + (D - 53)).
Proof.
  intros Hmz Hc He. unfold Float.mul, SFmul.
  replace (xorb sx false) with sx by (by destruct sx).
  cbv zeta. rewrite <- Pos2Z.inj_mul.
  assert (HM : 2 ^ 104 <= Z.pos (mz * c) < 2 ^ 106).
  { rewrite Pos2Z.inj_mul. change (2 ^ 104) with (2 ^ 52 * 2 ^ 52).
    change (2 ^ 106) with (2 ^ 53 * 2 ^ 53). nia. }
  destruct (Z.ltb_spec (Z.pos (mz * c)) (2 ^ 105)).
  - apply (binary_round_aux_large sx (mz * c) (ez + ec) 105); [| lia ..].
    change (105 - 1) with 104. lia.
  - apply (binary_round_aux_large sx (mz * c) (ez + ec) 106); [| lia ..].
    change (106 - 1) with 105. lia.
Qed.

Lemma digits_below T d b :
  0 <= b -> 2 ^ (d - 1) <= T < 2 ^ b -> d <= b.
Proof.
  intros Hb [Hlo Hhi]. destruct (Z.le_gt_cases d b); [done|].
  assert (2 ^ b <= 2 ^ (d - 1)) by (apply Z.pow_le_mono_r; lia). lia.
Qed.

(** [int(float(T) * 0.6)] for [T] of either sign, given by its
    magnitude [p]. *)
Lemma int_mul_0_6 (sx : bool) (p : positive) :
  Z.pos p < 2 ^ 50 ->
  Float.to_int (Float.mul (binary_round 53 1024 sx p 0) Float.c0_6) =
  Ok (if sx then - (3 * Z.pos p / 5) else 3 * Z.pos p / 5).
Proof.
  intros Hp. destruct (digits_exist (Z.pos p) ltac:(lia)) as (d & Hd1 & Hd).
  assert (Hd50 : d <= 50) by (apply (digits_below (Z.pos p)); lia).
  rewrite (binary_round_small sx p d) by lia.
  set (t := 2 ^ (53 - d)).
  assert (Ht : 8 <= t).
  { subst t. change 8 with (2 ^ 3). apply Z.pow_le_mono_r; lia. }
  assert (Hmz : 2 ^ 52 <= Z.pos p * t < 2 ^ 53).
  { assert (Hpow : 2 ^ 52 = 2 ^ (d - 1) * t).
    { subst t. rewrite <- Z.pow_add_r by lia. f_equal. lia. }
    assert (Hpow' : 2 ^ 53 = 2 ^ d * t).
    { subst t. rewrite <- Z.pow_add_r by lia. f_equal. lia. }
    nia. }
  assert (Hid : Z.pos (Z.to_pos (Z.pos p * t)) = Z.pos p * t) by (apply Z2Pos.id; lia).
  unfold Float.c0_6. rewrite mul_normal; [| rewrite Hid; lia | by vm_compute | lia].
  cbv zeta. rewrite Hid.
  destruct (floor_0_6 (Z.pos p) t ltac:(lia) Ht Hmz) as [Hlt Hge].
  set (M := Z.pos p * t * 5404319552844595) in *.
  assert (Ht2 : 2 ^ (54 - d) = 2 * t).
  { subst t. rewrite <- Z.pow_succ_r by lia. f_equal. lia. }
  assert (Hth : t = 2 * 2 ^ (52 - d)).
  { subst t. rewrite <- Z.pow_succ_r by lia. f_equal. lia. }
  assert (Hpos : 0 < 2 ^ (52 - d)) by (apply Z.pow_pos_nonneg; lia).
  destruct (Z.ltb_spec M (2 ^ 105)) as [HM|HM].
  - specialize (Hlt HM). change (105 - 53) with 52 in *.
    set (m1 := round_even M 52) in *.
    pose proof (round_even_bounds M 52 ltac:(subst M; lia) ltac:(lia)) as Hb.
    fold m1 in Hb.
    assert (0 < M / 2 ^ 52).
    { apply Z.div_str_pos. split; [by vm_compute|].
      subst M. change (2 ^ 52) with 4503599627370496 in *. lia. }
    destruct (Z.eqb_spec m1 (2 ^ 53)) as [E|E].
    + rewrite to_int_finite by lia. f_equal.
      replace (- (d - 53 + -53 + 52 + 1)) with (53 - d) by lia. fold t.
      rewrite <- Hlt, E. change (2 ^ 53) with (4503599627370496 * 2).
      rewrite (Z.mul_comm 2 t), Z.div_mul_cancel_r by lia. reflexivity.
    + rewrite to_int_finite by lia. rewrite Z2Pos.id by lia. f_equal.
      replace (- (d - 53 + -53 + 52)) with (54 - d) by lia. by rewrite Ht2, Hlt.
  - specialize (Hge HM). change (106 - 53) with 53 in *.
    set (m1 := round_even M 53) in *.
    pose proof (round_even_bounds M 53 ltac:(subst M; lia) ltac:(lia)) as Hb.
    fold m1 in Hb.
    assert (0 < M / 2 ^ 53).
    { apply Z.div_str_pos. split; [by vm_compute|].
      change (2 ^ 105) with (2 ^ 53 * 2 ^ 52) in HM.
      change (2 ^ 53) with 9007199254740992 in *. lia. }
    destruct (Z.eqb_spec m1 (2 ^ 53)) as [E|E].
    + rewrite to_int_finite by lia. f_equal.
      replace (- (d - 53 + -53 + 53 + 1)) with (52 - d) by lia.
      rewrite <- Hge, E, Hth. change (2 ^ 53) with (4503599627370496 * 2).
      rewrite (Z.mul_comm 2 (2 ^ (52 - d))), Z.div_mul_cancel_r by lia. reflexivity.
    + rewrite to_int_finite by lia. rewrite Z2Pos.id by lia. f_equal.
      replace (- (d - 53 + -53 + 53)) with (53 - d) by lia. fold t. by rewrite Hge.
Qed.

(** [int(float(T) * 0.25)], the product being exact. *)
Lemma int_mul_0_25 (sx : bool) (p : positive) :
  Z.pos p < 2 ^ 50 ->
  Float.to_int (Float.mul (binary_round 53 1024 sx p 0) Float.c0_25) =
  Ok (if sx then - (Z.pos p / 4) else Z.pos p / 4).
Proof.
  intros Hp. destruct (digits_exist (Z.pos p) ltac:(lia)) as (d & Hd1 & Hd).
  assert (Hd50 : d <= 50) by (apply (digits_below (Z.pos p)); lia).
  rewrite (binary_round_small sx p d) by lia.
  set (t := 2 ^ (53 - d)).
  assert (Ht : 8 <= t).
  { subst t. change 8 with (2 ^ 3). apply Z.pow_le_mono_r; lia. }
  assert (Hmz : 2 ^ 52 <= Z.pos p * t < 2 ^ 53).
  { assert (Hpow : 2 ^ 52 = 2 ^ (d - 1) * t).
    { subst t. rewrite <- Z.pow_add_r by lia. f_equal. lia. }
    assert (Hpow' : 2 ^ 53 = 2 ^ d * t).
    { subst t. rewrite <- Z.pow_add_r by lia. f_equal. lia. }
    nia. }
  assert (Hid : Z.pos (Z.to_pos (Z.pos p * t)) = Z.pos p * t) by (apply Z2Pos.id; lia).
  unfold Float.c0_25. rewrite mul_normal; [| rewrite Hid; lia | by vm_compute | lia].
  cbv zeta. rewrite Hid. change (Z.pos 4503599627370496) with (2 ^ 52).
  destruct (Z.ltb_spec (Z.pos p * t * 2 ^ 52) (2 ^ 105)) as [HM|HM].
  2: { change (2 ^ 105) with (2 ^ 53 * 2 ^ 52) in HM. nia. }
  change (105 - 53) with 52. rewrite round_even_exact by lia.
  destruct (Z.eqb_spec (Z.pos p * t) (2 ^ 53)) as [E|E]; [lia|].
  rewrite to_int_finite by lia. rewrite Hid. f_equal.
  replace (- (d - 53 + -54 + 52)) with (55 - d) by lia.
  assert (Ht4 : 2 ^ (55 - d) = 4 * t).
  { subst t. change 4 with (2 ^ 2). rewrite <- Z.pow_add_r by lia. f_equal. lia. }
  rewrite Ht4, Z.div_mul_cancel_r by lia. reflexivity.
Qed.

Lemma of_int_small (sx : bool) (p : positive) :
  Z.pos p < 2 ^ 50 ->
  exists m e, binary_round 53 1024 sx p 0 = S754_finite sx m e.
Proof.
  intros Hp. destruct (digits_exist (Z.pos p) ltac:(lia)) as (d & Hd1 & Hd).
  assert (Hd50 : d <= 50) by (apply (digits_below (Z.pos p)); lia).
  rewrite (binary_round_small sx p d) by lia. by eexists _, _.
Qed.

(** [int(T * c)] in terms of the two lemmas above. *)
Lemma int_mul_small (T : Z) (c : spec_float) (f : Z -> Z) :
  - 2 ^ 50 < T < 2 ^ 50 ->
  Float.int_mul 0 c = Ok (f 0) ->
  (forall sx p, Z.pos p < 2 ^ 50 ->
     Float.to_int (Float.mul (binary_round 53 1024 sx p 0) c) =
     Ok (if sx then f (Z.neg p) else f (Z.pos p))) ->
  Float.int_mul T c = Ok (f T).
Proof.
  intros HT H0 Hp. destruct T as [|p|p]; [done | |].
  - unfold Float.int_mul, Float.of_int, binary_normalize, Float.prec, Float.emax.
    destruct (of_int_small false p ltac:(lia)) as (m & e & E). rewrite E. cbv beta iota delta [py_bind].
    rewrite <- E. apply (Hp false). lia.
  - unfold Float.int_mul, Float.of_int, binary_normalize, Float.prec, Float.emax.
    destruct (of_int_small true p ltac:(lia)) as (m & e & E). rewrite E. cbv beta iota delta [py_bind].
    rewrite <- E. apply (Hp true). lia.
Qed.

(** The two derived sub-timeouts, for a total timeout below [2^50]
    seconds in magnitude. *)
Lemma derived_timeouts_small (total_timeout : Z) :
  - 2 ^ 50 < total_timeout < 2 ^ 50 ->
  derived_page_load_timeout total_timeout = Ok (Z.quot (3 * total_timeout) 5) /\
  derived_script_timeout total_timeout = Ok (Z.min 15 (Z.quot total_timeout 4)).
Proof.
  intros HT. split.
  - apply (int_mul_small total_timeout Float.c0_6 (fun T => Z.quot (3 * T) 5) HT);
      [by vm_compute|].
    intros sx p Hp. rewrite int_mul_0_6 by done. f_equal. destruct sx.
    + change (3 * Z.neg p) with (- (3 * Z.pos p)).
      rewrite Z.quot_opp_l, Z.quot_div_nonneg by lia. reflexivity.
    + by rewrite Z.quot_div_nonneg by lia.
  - unfold derived_script_timeout.
    rewrite (int_mul_small total_timeout Float.c0_25 (fun T => Z.quot T 4) HT);
      [done | by vm_compute |].
    intros sx p Hp. rewrite int_mul_0_25 by done. f_equal. destruct sx.
    + change (Z.neg p) with (- Z.pos p).
      rewrite Z.quot_opp_l, Z.quot_div_nonneg by lia. reflexivity.
    + by rewrite Z.quot_div_nonneg by lia.
Qed.

(** Claim C2 as stated fails: for one second the page-load timeout is
    0 where rounding gives 1, for three seconds the script timeout is 0
    where rounding gives 1. *)
Lemma sub_timeouts_are_not_rounded :
  derived_page_load_timeout 1 <> Ok (spec_page_load_timeout 1) /\
  derived_script_timeout 3 <> Ok (spec_script_timeout 3).
Proof. split; by vm_compute. Qed.

(** Claim C2, amended.  For every total timeout below [2^50] seconds
    in magnitude, [int(total_timeout * 0.6)] is the quotient of
    [3 * total_timeout] by 5 truncated towards zero, and
    [min(15, int(total_timeout * 0.25))] is the lesser of 15 and the
    truncated quarter; 60 seconds give 36 and 15, 20 seconds give 12
    and 5. *)
Theorem sub_timeouts_truncate (total_timeout : Z) :
  - 2 ^ 50 < total_timeout < 2 ^ 50 ->
  derived_page_load_timeout total_timeout = Ok (Z.quot (3 * total_timeout) 5) /\
  derived_script_timeout total_timeout = Ok (Z.min 15 (Z.quot total_timeout 4)) /\
  derived_page_load_timeout 60 = Ok 36 /\ derived_script_timeout 60 = Ok 15 /\
  derived_page_load_timeout 20 = Ok 12 /\ derived_script_timeout 20 = Ok 5.
Proof.
  intros HT. split; [|split; [|by vm_compute]].
  - apply (int_mul_small total_timeout Float.c0_6 (fun T => Z.quot (3 * T) 5) HT);
      [by vm_compute|].
    intros sx p Hp. rewrite int_mul_0_6 by done. f_equal. destruct sx.
    + change (3 * Z.neg p) with (- (3 * Z.pos p)).
      rewrite Z.quot_opp_l, Z.quot_div_nonneg by lia. reflexivity.
    + by rewrite Z.quot_div_nonneg by lia.
  - unfold derived_script_timeout.
    rewrite (int_mul_small total_timeout Float.c0_25 (fun T => Z.quot T 4) HT);
      [done | by vm_compute |].
    intros sx p Hp. rewrite int_mul_0_25 by done. f_equal. destruct sx.
    + change (Z.neg p) with (- Z.pos p).
      rewrite Z.quot_opp_l, Z.quot_div_nonneg by lia. reflexivity.
    + by rewrite Z.quot_div_nonneg by lia.
Qed.

Lemma sub_timeouts_truncate_witness :
  derived_page_load_timeout 7 = Ok 4 /\ derived_script_timeout 7 = Ok 1.
Proof.
  destruct (sub_timeouts_truncate 7 ltac:(lia)) as (H1 & H2 & _). split; [exact H1 | exact H2].
Defined.

(** ** Failing interactions *)

Lemma returns_build_chrome_options W w h cc cn pd :
  healthy W -> returns (_build_chrome_options W w h cc cn pd).
Proof.
  intros (Hothers & _ & _). unfold _build_chrome_options.
  repeat first [ apply returns_bind; [| intros ?]
               | apply returns_ret | apply returns_print
               | apply (returns_ask W Hothers); reflexivity
               | match goal with
                 | |- returns (match ?x with _ => _ end) => destruct x
                 end ].
Qed.

Lemma returns_worker W url kw plt sct :
  healthy W -> 0 <= wait_seconds kw <= 9223372036 -> post_wait_seconds kw <= 9223372036 ->
  returns (_fetch_rendered_inner W url kw (Some Driver) plt sct).
Proof.
  intros HW Hwait Hpost s. rewrite inner_supplied. revert s. apply returns_bind.
  - by apply returns_build_chrome_options.
  - intros _. destruct HW as (Hothers & Hinter & Hperf). by apply returns_stages.
Qed.

(** The timeout branch where the kill and the quit are answered. *)
Lemma on_timeout_healthy {A} W url total_timeout s :
  healthy W -> (@on_timeout W A url total_timeout s).1 = Exc (timeout_error total_timeout url).
Proof.
  intros (Hothers & _ & _). rewrite on_timeout_run. cbv zeta.
  destruct (Hothers (calls_of (events s)) ProcessKill eq_refl) as (dk & vk & ->).
  destruct (Hothers (calls_of (events s) ++ [ProcessKill]) Quit eq_refl) as (dq & vq & ->).
  reflexivity.
Qed.

(** In a healthy world the race ends with the value of the worker or
    with the timeout error; when the worker ends at the deadline
    itself, the scheduler decides which. *)
Lemma race_healthy W url total_timeout kw plt sct start :
  healthy W -> 0 <= wait_seconds kw <= 9223372036 -> post_wait_seconds kw <= 9223372036 ->
  total_timeout <= TIMEOUT_MAX ->
  exists v sw,
    _fetch_rendered_inner W url kw (Some Driver) plt sct start = (Val v, sw) /\
    (now sw < now start + 1000 * Z.max 0 total_timeout ->
     race W url total_timeout kw plt sct start = (Val v, sw)) /\
    (now start + 1000 * Z.max 0 total_timeout < now sw ->
     (race W url total_timeout kw plt sct start).1 = Exc (timeout_error total_timeout url)) /\
    (now sw = now start + 1000 * Z.max 0 total_timeout ->
     if ended_at_tie W (calls_of (events sw))
     then race W url total_timeout kw plt sct start = (Val v, sw)
     else (race W url total_timeout kw plt sct start).1
          = Exc (timeout_error total_timeout url)).
Proof.
  intros HW Hwait Hpost HT.
  destruct (returns_worker W url kw plt sct HW Hwait Hpost start) as (v & sw & E).
  exists v, sw. split; [done|]. unfold race.
  destruct (Z.ltb_spec TIMEOUT_MAX total_timeout); [lia|].
  rewrite E. unfold is_alive. cbn [fst snd].
  set (deadline := now start + 1000 * Z.max 0 total_timeout).
  split; [|split]; intros Hnow.
  - destruct (Z.eqb_spec (now sw) deadline); [lia|].
    destruct (Z.ltb_spec (now sw) deadline); [done | lia].
  - destruct (Z.eqb_spec (now sw) deadline); [lia|].
    destruct (Z.ltb_spec (now sw) deadline); [lia|].
    by apply on_timeout_healthy.
  - destruct (Z.eqb_spec (now sw) deadline); [|lia].
    destruct (ended_at_tie W (calls_of (events sw))); [done|].
    by apply on_timeout_healthy.
Qed.

(** In a healthy world [fetch_with_timeout] gets as far as the race. *)
Lemma launch_healthy W url total_timeout kw s :
  healthy W -> - 2 ^ 50 < total_timeout < 2 ^ 50 ->
  exists start,
    fetch_with_timeout W url total_timeout kw s =
    race W url total_timeout kw
      (default (Z.quot (3 * total_timeout) 5) (_page_load_timeout kw))
      (default (Z.min 15 (Z.quot total_timeout 4)) (_script_timeout kw)) start.
Proof.
  intros HW HT. destruct (derived_timeouts_small total_timeout HT) as (Hplt & Hsct).
  unfold fetch_with_timeout. unfold bind at 1.
  destruct (mem_check_run W s) as (ev0 & -> & _).
  rewrite Hplt, Hsct. simpl lift. unfold bind at 1. unfold bind at 1.
  unfold ret at 1. unfold ret at 1. unfold bind at 1.
  destruct (returns_build_chrome_options W (width kw) (height kw) (capture_console kw)
              (capture_network kw) (profile_dir kw) HW (St (now s) (events s ++ ev0)))
    as (o & s1 & ->).
  unfold bind at 1. destruct HW as (Hothers & _ & _).
  destruct (returns_ask W Hothers (NewChrome o) eq_refl s1) as (vd & start & ->).
  by exists start.
Qed.

(** Claim C5 as stated fails: one field never appears, everything
    else answers at once, and with a deadline of five seconds the wait
    of ten seconds for the field ends the fetch with the timeout
    error. *)
Lemma short_deadline_expires :
  healthy missing_field_world /\ 0 <= wait_seconds type_missing /\
  (fetch_with_timeout missing_field_world "http://example" 5 type_missing start_state).1
  = Exc (timeout_error 5 "http://example").
Proof. split; [apply missing_field_world_healthy | split; [done | by vm_compute]]. Qed.

(** Claim C5, amended.  A type or click action whose attempt raises
    returns normally after printing its warning; and in a world where
    every other call succeeds, with waits that [time.sleep] accepts
    (none negative, none above 9223372036 seconds) and a timeout that
    [thread.join] accepts (at most [threading.TIMEOUT_MAX]), the
    pipeline runs all its stages and returns a value, so that the
    fetch returns that value when the pipeline ends before the
    deadline, and the timeout error, never another one, when it ends
    after it; when it ends at the deadline itself the scheduler decides
    between the two. *)
Theorem interaction_failures_are_not_fatal W url total_timeout kw s :
  healthy W ->
  0 <= wait_seconds kw <= 9223372036 -> post_wait_seconds kw <= 9223372036 ->
  - 2 ^ 50 < total_timeout <= TIMEOUT_MAX ->
  (forall selector value s0 e s1,
     type_attempt W selector value s0 = (Exc e, s1) ->
     type_action W (selector, value) s0
     = (Val tt, record (EvPrint (LogTypeError selector e)) s1)) /\
  (forall selector s0 e s1,
     click_attempt W selector s0 = (Exc e, s1) ->
     click_action W selector s0
     = (Val tt, record (EvPrint (LogClickError selector e)) s1)) /\
  (exists plt sct start v sw ev,
     _fetch_rendered_inner W url kw (Some Driver) plt sct start = (Val v, sw) /\
     events sw = events start ++ ev /\
     worker_plan url kw plt sct (calls_of ev) /\
     (now sw < now start + 1000 * Z.max 0 total_timeout ->
      fetch_with_timeout W url total_timeout kw s = (Val v, sw)) /\
     (now start + 1000 * Z.max 0 total_timeout < now sw ->
      (fetch_with_timeout W url total_timeout kw s).1
      = Exc (timeout_error total_timeout url)) /\
     (now sw = now start + 1000 * Z.max 0 total_timeout ->
      if ended_at_tie W (calls_of (events sw))
      then fetch_with_timeout W url total_timeout kw s = (Val v, sw)
      else (fetch_with_timeout W url total_timeout kw s).1
           = Exc (timeout_error total_timeout url))).
Proof.
  intros HW Hwait Hpost HT. split; [|split].
  - intros selector value s0 e s1 E. unfold type_action, try_except. by rewrite E.
  - intros selector s0 e s1 E. unfold click_action, try_except. by rewrite E.
  - assert (HT' : - 2 ^ 50 < total_timeout < 2 ^ 50) by (unfold TIMEOUT_MAX in HT; lia).
    destruct (launch_healthy W url total_timeout kw s HW HT') as (start & Hfetch).
    rewrite Hfetch.
    set (plt := default _ (_page_load_timeout kw)).
    set (sct := default _ (_script_timeout kw)).
    destruct (race_healthy W url total_timeout kw plt sct start HW Hwait Hpost
                (proj2 HT))
      as (v & sw & E & Hin & Hout & Htie).
    destruct (emits_worker _ _ _ _ _ _ _ _ _ E) as (ev & p & Hev & Hp & _ & Hval).
    exists plt, sct, start, v, sw, ev. rewrite (Hval I).
    split; [done|]. split; [done|]. split; [done|].
    split; [exact Hin | split; [exact Hout | exact Htie]].
Qed.

Lemma interaction_failures_are_not_fatal_witness :
  let r := (fetch_with_timeout missing_field_world "http://example" 60 type_missing
              start_state).1 in
  is_val r \/ r = Exc (timeout_error 60 "http://example").
Proof.
  destruct (interaction_failures_are_not_fatal missing_field_world "http://example" 60
              type_missing start_state missing_field_world_healthy
              ltac:(simpl; lia) ltac:(simpl; lia) ltac:(unfold TIMEOUT_MAX; lia))
    as (_ & _ & plt & sct & start & v & sw & ev & _ & _ & _ & Hin & Hout & Htie).
  destruct (Z.lt_trichotomy (now sw) (now start + 1000 * Z.max 0 60)) as [H|[H|H]].
  - left. by rewrite (Hin H).
  - specialize (Htie H).
    destruct (ended_at_tie missing_field_world (calls_of (events sw))).
    + left. by rewrite Htie.
    + right. exact Htie.
  - right. exact (Hout H).
Defined.

(** ** The model at work *)

(** The constants are the doubles nearest to the literals. *)
Example c0_6_nearest :
  valid_binary 53 1024 Float.c0_6 = true /\ 5 * 5404319552844595 = 3 * 2 ^ 53 - 1.
Proof. by split. Qed.

Example c0_25_exact :
  valid_binary 53 1024 Float.c0_25 = true /\ 4 * 4503599627370496 = 2 ^ 54.
Proof. by split. Qed.

(** Three seconds: [3 * 0.6] is [1.7999999999999998]. *)
Example three_seconds :
  Float.mul (S754_finite false 6755399441055744 (-51)) Float.c0_6
  = S754_finite false 8106479329266892 (-52) /\
  derived_page_load_timeout 3 = Ok 1.
Proof. by vm_compute. Qed.

(** The memory check on some files. *)
Example mem_warning_low :
  mem_warning (with_meminfo quick_world
                 (Ok ["MemTotal:       16384256 kB"; "MemAvailable:     400000 kB"]))
  = Ok (Some (LogMemWarn (S754_finite false 6871947673600000 (-44)))).
Proof. by vm_compute. Qed.

Example mem_warning_enough : mem_warning quick_world = Ok None.
Proof. by vm_compute. Qed.

Example mem_warning_no_colon :
  exists e, mem_warning (with_meminfo quick_world (Ok ["garbage"])) = Err e /\
            exn_cls e = ValueError.
Proof. eexists. by vm_compute. Qed.

Example mem_warning_no_value :
  exists e, mem_warning (with_meminfo quick_world (Ok ["MemFree:"])) = Err e /\
            exn_cls e = IndexError.
Proof. eexists. by vm_compute. Qed.

Example mem_warning_unreadable :
  mem_warning (with_meminfo quick_world (raise_py OSError [])) = raise_py OSError [].
Proof. reflexivity. Qed.

(** The argument loop. *)
Example parse_type_and_timeout :
  exists o s,
    parse_args quick_world ["http://example"; "--type"; "#q::rocq"; "--timeout"; "20"; "-c"]
      cli_initial start_state = (Val o, s) /\
    cli_url o = Some "http://example" /\ cli_type_actions o = [("#q", "rocq")] /\
    cli_total_timeout o = 20 /\ cli_show_console o = true.
Proof. eexists _, _. split; [by vm_compute | done]. Qed.

Example option_without_value_is_ignored :
  exists o s,
    parse_args quick_world ["http://example"; "--timeout"] cli_initial start_state
    = (Val o, s) /\ cli_total_timeout o = 60.
Proof. eexists _, _. split; [by vm_compute | done]. Qed.

(** The pipeline that creates its driver quits it, once. *)
Lemma owned_driver_is_quit_once W url kw plt sct s v s' :
  _fetch_rendered_inner W url kw None plt sct s = (Val v, s') ->
  exists ev, events s' = events s ++ ev /\ count_calls destroys (calls_of ev) = 1%nat.
Proof.
  intros E. destruct (inner_run _ _ _ _ _ _ _ _ _ E)
    as (ev & opening & body & closing & p & Hev & Hc & Hopen & _ & Hp & _ & Hval).
  destruct (Hval I) as [-> ->]. exists ev. split; [done|].
  rewrite Hc, !count_calls_app.
  assert (count_calls destroys opening = 0%nat) as ->.
  { clear -Hopen. induction Hopen as [|c l Hc _ IH]; [done|]. simpl. rewrite IH.
    by destruct c. }
  destruct Hp as (t & c & h & Ht & Hcl & ->).
  rewrite !count_calls_app.
  rewrite (count_calls_segments destroys _ _ _ (fun x q => count_type_segment destroys x q
             ltac:(by intros [])) Ht).
  rewrite (count_calls_segments destroys _ _ _ (fun x q => count_click_segment destroys x q
             ltac:(by intros [])) Hcl).
  simpl. clear. count_plan.
Qed.

(** ** The clock and stdout *)

Lemma stdout_of_app (e1 e2 : list (Z * event)) :
  stdout_of (e1 ++ e2) = stdout_of e1 ++ stdout_of e2.
Proof. apply omap_app. Qed.

Lemma stdout_of_filter (P : Z * event -> Prop) `{!forall x, Decision (P x)} ev :
  stdout_of ev = [] -> stdout_of (filter P ev) = [].
Proof.
  induction ev as [|[t e] ev IH]; [done|].
  rewrite filter_cons. unfold stdout_of in *. simpl.
  destruct e; simpl; try discriminate; destruct (decide (P _)); simpl; auto.
Qed.

Lemma steady_ret {A} (a : A) : steady (ret a).
Proof. intros s r s' [= <- <-]. split; [lia|]. exists []. by rewrite app_nil_r. Qed.

Lemma steady_raise {A} (e : exn) : steady (@raise A e).
Proof. intros s r s' [= <- <-]. split; [lia|]. exists []. by rewrite app_nil_r. Qed.

Lemma steady_lift {A} (m : py A) : steady (lift m).
Proof. destruct m; [apply steady_ret | apply steady_raise]. Qed.

Lemma steady_print (l : log_line) : steady (print l).
Proof. intros s r s' [= <- <-]. simpl. split; [lia|]. by eexists. Qed.

Lemma steady_ask W (c : call) : steady (ask W c).
Proof.
  intros s r s'. unfold ask.
  destruct (respond W _ c); intros [= <- <-]; simpl; (split; [lia|]); by eexists.
Qed.

Lemma steady_sleep (ms : Z) : steady (sleep ms).
Proof.
  intros s r s'. unfold sleep.
  destruct (negb (fits_clock ms)); [|destruct (Z.ltb_spec ms 0)]; intros [= <- <-]; simpl.
  - split; [lia|]. exists []. by rewrite app_nil_r.
  - split; [lia|]. exists []. by rewrite app_nil_r.
  - split; [lia|]. by eexists.
Qed.

Lemma steady_step {A B} (m : M A) (k : M B) s r s1 r' s' :
  steady m -> steady k -> m s = (r, s1) -> k s1 = (r', s') ->
  now s <= now s' /\ exists ev, events s' = events s ++ ev /\ stdout_of ev = [].
Proof.
  intros Hm Hk E1 E2.
  destruct (Hm _ _ _ E1) as (Ht1 & ev1 & Hev1 & Ho1).
  destruct (Hk _ _ _ E2) as (Ht2 & ev2 & Hev2 & Ho2).
  split; [lia|]. exists (ev1 ++ ev2).
  by rewrite Hev2, Hev1, app_assoc, stdout_of_app, Ho1, Ho2.
Qed.

Lemma steady_bind {A B} (m : M A) (k : A -> M B) :
  steady m -> (forall a, steady (k a)) -> steady (bind m k).
Proof.
  intros Hm Hk s r s' E.
  apply bind_inv in E as [(a & s1 & E1 & E) | [(e & E1 & ->) | [E1 ->]]].
  - eapply (steady_step m (k a)); eauto.
  - by eapply Hm.
  - by eapply Hm.
Qed.

Lemma steady_try_except {A} (m : M A) (h : exn -> M A) :
  steady m -> (forall e, steady (h e)) -> steady (try_except m h).
Proof.
  intros Hm Hh s r s'. unfold try_except.
  destruct (m s) as [[a|e|] s1] eqn:E1; intros E.
  - injection E as <- <-. by eapply Hm.
  - eapply (steady_step m (h e)); eauto.
  - injection E as <- <-. by eapply Hm.
Qed.

Lemma steady_try_finally {A} (m : M A) (f : M unit) :
  steady m -> steady f -> steady (try_finally m f).
Proof.
  intros Hm Hf s r s'. unfold try_finally.
  destruct (m s) as [[a|e|] s1] eqn:E1; [| | intros [= <- <-]; by eapply Hm];
    destruct (f s1) as [rf s2] eqn:E2; intros E;
    assert (s' = s2) as -> by (by destruct rf; injection E);
    eapply (steady_step m f); eauto.
Qed.

Lemma steady_for_each {A} (body : A -> M unit) (items : list A) :
  (forall x, steady (body x)) -> steady (for_each items body).
Proof.
  intros Hb. induction items; simpl; [apply steady_ret|].
  apply steady_bind; auto.
Qed.

Create HintDb steady.
#[local] Hint Resolve steady_ret steady_raise steady_lift steady_print steady_ask
  steady_sleep steady_for_each : steady.

Ltac steadily :=
  repeat first
    [ progress intros
    | apply steady_bind
    | apply steady_try_except
    | apply steady_try_finally
    | solve [auto with steady]
    | match goal with
      | |- steady (match ?x with _ => _ end) => destruct x
      | |- steady (let '(_, _) := ?x in _) => destruct x
      end ].

Lemma steady_type_action W sv : steady (type_action W sv).
Proof. unfold type_action, type_attempt. steadily. Qed.

Lemma steady_click_action W selector : steady (click_action W selector).
Proof. unfold click_action, click_attempt. steadily. Qed.

#[local] Hint Resolve steady_type_action steady_click_action : steady.

Lemma steady_stages W url kw plt sct : steady (stages W url kw plt sct).
Proof. unfold stages. steadily. Qed.

(** The stages begin with a call to the driver, and end no earlier
    than that call. *)
Lemma stages_first_call W url kw plt sct s r s' :
  stages W url kw plt sct s = (r, s') ->
  exists r1 s1,
    ask W (SetWindowSize (width kw) (PInt (height kw))) s = (r1, s1) /\
    now s1 <= now s' /\ (r1 = Hang -> r = Hang).
Proof.
  unfold stages. intros E.
  apply bind_inv in E as [(a & s1 & E1 & E) | [(e & E1 & ->) | [E1 ->]]].
  - lazymatch type of E with
    | ?m s1 = _ => assert (Hrest : steady m) by steadily
    end.
    destruct (Hrest _ _ _ E) as [Ht _]. by eexists _, _.
  - eexists _, _. split; [done|]. split; [lia | done].
  - eexists _, _. split; [done|]. split; [lia | done].
Qed.

Lemma steady_build_chrome_options W w h cc cn pd :
  steady (_build_chrome_options W w h cc cn pd).
Proof. unfold _build_chrome_options. steadily. Qed.

Lemma steady_cleanup W d owned : steady (cleanup W d owned).
Proof. unfold cleanup. steadily. Qed.

#[local] Hint Resolve steady_stages steady_build_chrome_options steady_cleanup : steady.

Lemma steady_fetch_rendered_inner W url kw d plt sct :
  steady (_fetch_rendered_inner W url kw d plt sct).
Proof.
  unfold _fetch_rendered_inner. apply steady_bind; [auto with steady|]. intros o.
  destruct d as [d|]; [steadily|]. cbn [negb is_Some_b].
  intros s r s'. destruct (ask W (NewChrome o) s) as [[v|e|] s1] eqn:E1; intros E.
  - eapply (steady_step (ask W (NewChrome o))
              (try_finally (stages W url kw plt sct) (cleanup W (Some Driver) true)));
      eauto; steadily.
  - eapply (steady_step (ask W (NewChrome o))
              (try_finally (@raise fetch_result e) (cleanup W None true)));
      eauto; steadily.
  - injection E as <- <-. eapply steady_ask; eauto.
Qed.

Lemma steady_on_timeout {A} W url total_timeout :
  steady (@on_timeout W A url total_timeout).
Proof. unfold on_timeout. steadily. Qed.

Lemma steady_mem_check W : steady (mem_check W).
Proof. unfold mem_check. steadily. Qed.

Lemma steady_race W url total_timeout kw plt sct :
  steady (race W url total_timeout kw plt sct).
Proof.
  intros s r s'. unfold race.
  destruct (TIMEOUT_MAX <? total_timeout).
  { intros [= <- <-]. split; [lia|]. exists []. by rewrite app_nil_r. }
  destruct (_fetch_rendered_inner W url kw (Some Driver) plt sct s) as [rw sw] eqn:Ew.
  destruct (steady_fetch_rendered_inner _ _ _ _ _ _ _ _ _ Ew) as (Ht & ev & Hev & Ho).
  destruct (is_alive _ _ _); [| intros [= <- <-]; eauto].
  intros E. destruct (steady_on_timeout _ _ _ _ _ _ E) as (Ht' & ev' & Hev' & Ho').
  simpl in *. split; [lia|].
  rewrite Hev, drop_app_length in Hev'.
  eexists. split; [by rewrite Hev', <- app_assoc|].
  by rewrite stdout_of_app, Ho', stdout_of_filter.
Qed.

#[local] Hint Resolve steady_mem_check steady_race : steady.

Lemma steady_fetch_with_timeout W url total_timeout kw :
  steady (fetch_with_timeout W url total_timeout kw).
Proof. unfold fetch_with_timeout. steadily. Qed.

Lemma fruitless_bind_l {A B} (m : M A) (k : A -> M B) :
  fruitless m -> fruitless (bind m k).
Proof.
  intros Hm s. specialize (Hm s). unfold bind.
  by destruct (m s) as [[a|e|] s1].
Qed.

Lemma fruitless_bind_r {A B} (m : M A) (k : A -> M B) :
  (forall a, fruitless (k a)) -> fruitless (bind m k).
Proof.
  intros Hk s. unfold bind. destruct (m s) as [[a|e|] s1]; simpl; auto. apply Hk.
Qed.

Lemma fruitless_sleep ms : ms < 0 -> fruitless (sleep ms).
Proof.
  intros H s. unfold sleep.
  destruct (negb (fits_clock ms)); [simpl; tauto|].
  destruct (Z.ltb_spec ms 0); [simpl; tauto | lia].
Qed.

Lemma fruitless_on_timeout {A} W url total_timeout :
  fruitless (@on_timeout W A url total_timeout).
Proof.
  intros s. rewrite on_timeout_run. cbv zeta.
  destruct (answered _); [destruct (answered _)|]; simpl; tauto.
Qed.

Lemma fruitless_try_finally {A} (m : M A) (f : M unit) :
  fruitless m -> fruitless (try_finally m f).
Proof.
  intros Hm s. specialize (Hm s). unfold try_finally.
  destruct (m s) as [[a|e|] s1]; simpl in *; try tauto.
  destruct (f s1) as [[[]|e'|] s2]; simpl; tauto.
Qed.

(** A worker that is not alive at the deadline has come back before
    it, or at the deadline itself with the scheduler on its side. *)
Lemma is_alive_false {A} W (rw : res A) sw deadline :
  is_alive W (rw, sw) deadline = false ->
  rw <> Hang /\
  (now sw < deadline \/
   now sw = deadline /\ ended_at_tie W (calls_of (events sw)) = true).
Proof.
  unfold is_alive. cbn [fst snd]. intros H.
  split; [by intros ->|].
  destruct rw; try done;
    destruct (Z.eqb_spec (now sw) deadline);
    try (right; split; [done | by destruct (ended_at_tie W _)]);
    destruct (Z.ltb_spec (now sw) deadline); try done; by left.
Qed.

(** Whatever the worker does, the race gives a value only if the
    worker does, the join having accepted the timeout and the worker
    having come back by the deadline. *)
Lemma race_val W url total_timeout kw plt sct s :
  is_val (race W url total_timeout kw plt sct s).1 ->
  race W url total_timeout kw plt sct s =
    _fetch_rendered_inner W url kw (Some Driver) plt sct s /\
  total_timeout <= TIMEOUT_MAX /\
  is_alive W (_fetch_rendered_inner W url kw (Some Driver) plt sct s)
    (now s + 1000 * Z.max 0 total_timeout) = false.
Proof.
  unfold race.
  destruct (Z.ltb_spec TIMEOUT_MAX total_timeout) as [|HT]; [done|].
  destruct (is_alive W _ _) eqn:Ea.
  - intros Hval. by apply fruitless_on_timeout in Hval.
  - done.
Qed.

Lemma bind_val {A B} (m : M A) (k : A -> M B) s b s' :
  bind m k s = (Val b, s') -> exists a s1, m s = (Val a, s1) /\ k a s1 = (Val b, s').
Proof.
  intros E. by apply bind_inv in E as [(a & s1 & E1 & E) | [(e & E1 & ?) | [E1 ?]]]; eauto.
Qed.

(** A page that [fetch_with_timeout] returns is one the race
    returned. *)
Lemma fetch_val_race W url total_timeout kw s v s' :
  fetch_with_timeout W url total_timeout kw s = (Val v, s') ->
  exists plt sct start, race W url total_timeout kw plt sct start = (Val v, s').
Proof.
  unfold fetch_with_timeout. intros E.
  apply bind_val in E as (? & ? & _ & E).
  apply bind_val in E as (? & ? & _ & E).
  apply bind_val in E as (? & ? & _ & E).
  apply bind_val in E as (? & ? & _ & E).
  apply bind_val in E as (? & ? & _ & E).
  by eexists _, _, _.
Qed.

(** ** Deadlines and waits that cannot be met *)

Lemma fruitless_stages W url kw plt sct :
  wait_seconds kw < 0 -> fruitless (stages W url kw plt sct).
Proof.
  intros Hwait. unfold stages.
  do 5 (apply fruitless_bind_r; intros ?).
  apply fruitless_bind_l, fruitless_sleep. lia.
Qed.

Lemma fruitless_inner W url kw _driver plt sct :
  wait_seconds kw < 0 -> fruitless (_fetch_rendered_inner W url kw _driver plt sct).
Proof.
  intros Hwait. unfold _fetch_rendered_inner.
  apply fruitless_bind_r. intros o. destruct _driver as [d|].
  - by apply fruitless_try_finally, fruitless_stages.
  - intros s. destruct (ask W (NewChrome o) s) as [[v|e|] s1]; cbv beta iota.
    + by apply fruitless_try_finally, fruitless_stages.
    + apply fruitless_try_finally. intros ?. simpl. tauto.
    + simpl. tauto.
Qed.

Lemma fruitless_fetch W url total_timeout kw :
  (forall plt sct, fruitless (race W url total_timeout kw plt sct)) ->
  fruitless (fetch_with_timeout W url total_timeout kw).
Proof.
  intros Hrace. unfold fetch_with_timeout.
  do 5 (apply fruitless_bind_r; intros ?). apply Hrace.
Qed.

(** Property X1.  A negative [wait_seconds] makes every fetch fail:
    [time.sleep] refuses it, after the page has been requested, so that
    neither [_fetch_rendered_inner], with or without a driver of its
    own, nor [fetch_with_timeout] ever returns a page. *)
Theorem negative_wait_yields_no_page W url total_timeout kw s :
  wait_seconds kw < 0 ->
  (forall _driver plt sct,
     ~ is_val (_fetch_rendered_inner W url kw _driver plt sct s).1) /\
  ~ is_val (fetch_with_timeout W url total_timeout kw s).1.
Proof.
  intros Hwait. split.
  - intros d plt sct. by apply fruitless_inner.
  - apply fruitless_fetch. intros plt sct s0 Hval.
    pose proof (race_val _ _ _ _ _ _ _ Hval) as [Hrace _].
    rewrite Hrace in Hval. by apply (fruitless_inner W url kw _ plt sct Hwait) in Hval.
Qed.

Lemma negative_wait_yields_no_page_witness :
  ~ is_val (_fetch_rendered_inner quick_world "http://example" minus_one_wait None 30 15
              start_state).1 /\
  ~ is_val (fetch_with_timeout quick_world "http://example" 60 minus_one_wait start_state).1.
Proof.
  destruct (negative_wait_yields_no_page quick_world "http://example" 60 minus_one_wait
              start_state ltac:(simpl; lia)) as [H1 H2].
  split; [apply H1 | exact H2].
Defined.

Lemma paced_world_healthy : healthy paced_world.
Proof.
  repeat split.
  - intros h c _. destruct c; simpl; eauto.
  - intros h c _. by destruct c.
  - intros h ms v [= _ <-]. by exists [].
Qed.

Lemma paced_world_takes_time : takes_time paced_world.
Proof. intros h c. by destruct c. Qed.

Lemma ask_takes_time W c s r s' :
  takes_time W -> ask W c s = (r, s') -> r = Hang \/ now s < now s'.
Proof.
  intros HW. unfold ask. specialize (HW (calls_of (events s)) c).
  destruct (respond W _ c) as [ms v|ms e|]; intros [= <- <-]; [right | right | by left].
  all: simpl in *; assert (Z.of_N ms <> 0) by congruence; lia.
Qed.

(** When [_build_chrome_options] fails, a call has failed. *)
Lemma build_chrome_options_takes_time W w h cc cn pd s r s' :
  takes_time W -> _build_chrome_options W w h cc cn pd s = (r, s') ->
  is_val r \/ r = Hang \/ now s < now s'.
Proof.
  intros HW E. apply bind_inv in E as [(a & s1 & _ & [= <- <-]) | [(e & E & ->) | [_ ->]]];
    [by left | right; right | by right; left].
  destruct pd as [dir|]; [|done]. destruct (truthy_str _); [|done].
  apply bind_inv in E as [(a & s1 & _ & E) | [(e' & E & _) | [_ [=]]]].
  - by apply bind_inv in E as [(a' & s2 & _ & E) | [(e' & E & _) | [_ [=]]]].
  - by destruct (ask_takes_time _ _ _ _ _ HW E).
Qed.

(** The worker begins with a call to the driver: it has not come back
    in the millisecond in which it started. *)
Lemma worker_takes_time W url kw plt sct s r s' :
  takes_time W -> _fetch_rendered_inner W url kw (Some Driver) plt sct s = (r, s') ->
  r = Hang \/ now s < now s'.
Proof.
  intros HW E. rewrite inner_supplied in E.
  apply bind_inv in E as [(o & s1 & E1 & E) | [(e & E1 & ->) | [_ ->]]]; [| | by left].
  - destruct (steady_build_chrome_options _ _ _ _ _ _ _ _ _ E1) as [Ht1 _].
    apply stages_first_call in E as (r1 & s2 & E2 & Ht2 & Hhang).
    destruct (ask_takes_time _ _ _ _ _ HW E2) as [->|Ht3]; [left; by apply Hhang|].
    right. lia.
  - destruct (build_chrome_options_takes_time _ _ _ _ _ _ _ _ _ HW E1)
      as [[] | [[=] | Ht]].
    by right.
Qed.



Lemma written_from {A} (m : M A) s r s' out :
  m s = (r, s') -> stdout_of (events s') = stdout_of (events s) ++ out ->
  written (m s) s = out.
Proof. intros -> H. unfold written. simpl. by rewrite H, drop_app_length. Qed.

Lemma say_events o s : events (say o s).2 = events s ++ [(now s, EvOut o)].
Proof. reflexivity. Qed.

Ltac run_report o screenshot_path console_logs network_requests :=
  unfold written, report;
  generalize (format_network_requests network_requests)
    (format_console_logs console_logs);
  let fn := fresh "fn" in let fc := fresh "fc" in
  intros fn fc;
  repeat match goal with
         | H : _ = true |- _ => rewrite H
         | H : _ = false |- _ => rewrite H
         end;
  destruct fn, fc, (truthy_str screenshot_path), network_requests, (truthy console_logs),
    (cli_show_console o), (cli_capture_network o);
  unfold bind, print, say, lift, ret, raise, record; simpl;
  rewrite <- ?app_assoc, ?stdout_of_app, ?app_nil_r, ?drop_app_length, ?drop_all; simpl.

(** Property X3.  What the script prints of a result.  With
    [--only-screenshot] nothing goes to stdout; otherwise with
    [--only-network] only lines of the network log, and nothing of the
    console log even if it was asked for; otherwise with
    [--only-console] only lines of the console log; and in the default
    mode the page comes first, and is written even when formatting the
    logs fails afterwards. *)
Theorem report_modes o screenshot_path html console_logs network_requests s :
  let out := written (report o screenshot_path (html, console_logs, network_requests) s) s in
  (cli_only_screenshot o = true -> out = []) /\
  (cli_only_screenshot o = false -> cli_only_network o = true ->
   Forall (fun l => about_network l = true) out /\ (length out <= 1)%nat) /\
  (cli_only_screenshot o = false -> cli_only_network o = false ->
   cli_only_console o = true ->
   Forall (fun l => about_console l = true) out /\ (length out <= 1)%nat) /\
  (cli_only_screenshot o = false -> cli_only_network o = false ->
   cli_only_console o = false ->
   exists rest, out = OutHtml html :: rest).
Proof.
  intros out. subst out.
  split; [|split; [|split]]; intros; [| split | split |];
    run_report o screenshot_path console_logs network_requests;
    try done; try (repeat constructor; done); try lia; by eexists.
Qed.

Lemma report_modes_witness :
  let out :=
    written (report (set_only_network true (set_only_console true cli_initial)) None
               (PStr "<html></html>", PList [PDict [("level", PStr "SEVERE")]], [])
               start_state) start_state in
  Forall (fun l => about_network l = true) out /\ (length out <= 1)%nat.
Proof.
  exact (proj1 (proj2 (report_modes (set_only_network true (set_only_console true cli_initial))
                         None (PStr "<html></html>")
                         (PList [PDict [("level", PStr "SEVERE")]]) [] start_state))
           eq_refl eq_refl).
Defined.

(** Property X4.  Stdout stays empty unless the fetch returns a
    result: when the fetch raises, times out or never comes back, the
    script writes nothing to stdout after parsing its arguments. *)
Theorem failed_fetch_writes_no_stdout W argv s o s1 :
  (2 <= length argv)%nat -> asks_help argv = false ->
  parse_args W (tail argv) cli_initial s = (Val o, s1) ->
  ~ is_val (cli_fetch W o s1).1 ->
  stdout_of (events (main W argv s).2) = stdout_of (events s1).
Proof.
  intros Hlen Hhelp Hparse Hfail.
  rewrite (main_parsed _ _ _ _ _ Hlen Hhelp Hparse).
  destruct (truthy_str (cli_url o)); simpl.
  2: { by rewrite stdout_of_app, app_nil_r. }
  destruct (cli_fetch W o s1) as [[r|e|] s2] eqn:E; simpl in Hfail; [tauto | |].
  - unfold cli_fetch in E.
    destruct (steady_fetch_with_timeout _ _ _ _ _ _ _ E) as (_ & ev & Hev & Ho).
    destruct (exn_cls e); simpl; by rewrite Hev, !stdout_of_app, Ho, !app_nil_r.
  - unfold cli_fetch in E.
    destruct (steady_fetch_with_timeout _ _ _ _ _ _ _ E) as (_ & ev & Hev & Ho).
    simpl. by rewrite Hev, !stdout_of_app, Ho, !app_nil_r.
Qed.

Lemma failed_fetch_writes_no_stdout_witness :
  exists o s1,
    parse_args slow_launch_world ["http://example"; "--timeout"; "5"] cli_initial start_state
    = (Val o, s1) /\
    stdout_of (events (main slow_launch_world
                         ["js-web-renderer"; "http://example"; "--timeout"; "5"]
                         start_state).2)
    = stdout_of (events s1).
Proof.
  eexists _, _. split; [vm_compute; reflexivity|].
  eapply (failed_fetch_writes_no_stdout slow_launch_world
           ["js-web-renderer"; "http://example"; "--timeout"; "5"] start_state).
  - simpl. lia.
  - reflexivity.
  - vm_compute. reflexivity.
  - vm_compute. tauto.
Defined.

(** ** The profile directory and the driver of the pipeline *)

Lemma profile_plan_dir pd dir :
  pd = Some dir -> dir <> "" -> profile_plan pd = [MakeDirs dir].
Proof.
  intros -> Hdir. unfold profile_plan, truthy_str.
  by destruct (String.eqb_spec dir "").
Qed.

Lemma count_stage_calls f url kw plt sct p :
  (forall c, interaction c = true -> f c = false) ->
  (forall w h, f (SetWindowSize w h) = false) ->
  (forall t, f (SetPageLoadTimeout t) = false) ->
  (forall t, f (SetScriptTimeout t) = false) ->
  (forall u, f (Get u) = false) -> (forall c, f (ExecuteScript c) = false) ->
  (forall ms, f (Sleep ms) = false) -> f PageSource = false -> f CurrentUrl = false ->
  (forall k, f (GetLog k) = false) -> (forall path, f (SaveScreenshot path) = false) ->
  stage_plan url kw plt sct p -> count_calls f p = 0%nat.
Proof.
  intros Hi H1 H2 H3 H4 H5 H6 H7 H8 H9 H10 Hp.
  destruct (count_stage_plan f _ _ _ _ _ Hi Hp) as (t & c & h & Ht & Hc & ->).
  rewrite !count_calls_app, Ht, Hc.
  unfold script_plan, post_wait_plan, console_plan, network_plan, screenshot_plan.
  destruct (exec_js kw), (post_js kw), (screenshot_path kw), (0 <? post_wait_seconds kw),
    (capture_console kw), (capture_network kw);
    repeat match goal with
           | |- context [truthy_str ?x] => destruct (truthy_str x)
           end;
    simpl; rewrite ?H1, ?H2, ?H3, ?H4, ?H5, ?H6, ?H7, ?H8, ?H9, ?H10; reflexivity.
Qed.

(** Property X5.  With a profile directory, a fetch that returns a page
    has prepared the profile twice, once in [fetch_with_timeout] and
    once more in [_fetch_rendered_inner], which builds the options
    again although it is handed the driver: [os.makedirs] is called
    twice for the directory, and Chrome is started once. *)
Theorem profile_is_prepared_twice W url total_timeout kw s dir r s' :
  profile_dir kw = Some dir -> dir <> "" ->
  fetch_with_timeout W url total_timeout kw s = (Val r, s') ->
  exists ev, events s' = events s ++ ev /\
    count_calls (makes_dir dir) (calls_of ev) = 2%nat /\
    count_calls starts_chrome (calls_of ev) = 1%nat.
Proof.
  intros Hpd Hdir E.
  destruct (issues_fetch_with_timeout _ _ _ _ _ _ _ E) as (ev & Hev & H).
  exists ev. split; [done|]. simpl in H.
  destruct H as [[? _] | (o & l' & -> & p & plt & sct & Hp & Hl')]; [done|].
  destruct Hl' as [[_ Hl'] | [? _]]; [|done]. rewrite (Hl' eq_refl).
  destruct Hp as (l1 & l2 & -> & -> & Hs).
  rewrite (profile_plan_dir _ _ Hpd Hdir), !count_calls_app.
  rewrite (count_stage_calls (makes_dir dir) url kw plt sct l2 ltac:(by intros []));
    try done.
  rewrite (count_stage_calls starts_chrome url kw plt sct l2 ltac:(by intros []));
    try done.
  simpl. by rewrite String.eqb_refl.
Qed.

Lemma profile_is_prepared_twice_witness :
  exists ev,
    events (fetch_with_timeout quick_world "http://example" 60 with_profile start_state).2
    = events start_state ++ ev /\
    count_calls (makes_dir "/tmp/profile") (calls_of ev) = 2%nat /\
    count_calls starts_chrome (calls_of ev) = 1%nat.
Proof.
  destruct (fetch_with_timeout quick_world "http://example" 60 with_profile start_state)
    as [r s'] eqn:E.
  assert (Hr : exists v, r = Val v).
  { vm_compute in E. injection E as <- _. by eexists. }
  destruct Hr as [v ->].
  exact (profile_is_prepared_twice quick_world "http://example" 60 with_profile start_state
           "/tmp/profile" v s' eq_refl ltac:(done) E).
Defined.

(** Property X6.  When the profile directory cannot be created the
    fetch raises the error of [os.makedirs] and stops there: it is the
    only call issued, and Chrome is not started. *)
Theorem profile_failure_stops_launch W url total_timeout kw s dir ms e :
  profile_dir kw = Some dir -> dir <> "" ->
  - 2 ^ 50 < total_timeout < 2 ^ 50 ->
  respond W (calls_of (events s)) (MakeDirs dir) = Raises ms e ->
  exists s', fetch_with_timeout W url total_timeout kw s = (Exc e, s') /\
             calls_of (events s') = calls_of (events s) ++ [MakeDirs dir].
Proof.
  intros Hpd Hdir HT Hfail.
  destruct (derived_timeouts_small total_timeout HT) as (Hplt & Hsct).
  unfold fetch_with_timeout. unfold bind at 1.
  destruct (mem_check_run W s) as (ev0 & -> & Hev0).
  rewrite Hplt, Hsct. simpl lift. unfold bind at 1. unfold bind at 1.
  unfold ret at 1. unfold ret at 1. unfold bind at 1.
  unfold _build_chrome_options. rewrite Hpd.
  assert (truthy_str (Some dir) = true) as ->.
  { unfold truthy_str. by destruct (String.eqb_spec dir ""). }
  unfold bind, ask. simpl. rewrite calls_of_app, Hev0, app_nil_r, Hfail.
  eexists. split; [reflexivity|]. simpl.
  by rewrite !calls_of_app, Hev0, app_nil_r.
Qed.

Lemma profile_failure_stops_launch_witness :
  exists s',
    fetch_with_timeout readonly_world "http://example" 60 with_profile start_state
    = (Exc (Exn OSError [PStr "Read-only file system"]), s') /\
    calls_of (events s') = calls_of (events start_state) ++ [MakeDirs "/tmp/profile"].
Proof.
  apply (profile_failure_stops_launch readonly_world "http://example" 60 with_profile
           start_state "/tmp/profile" 0%N).
  - reflexivity.
  - done.
  - lia.
  - reflexivity.
Defined.

Lemma count_destroys_opening l :
  Forall (fun c => launches c = true) l -> count_calls destroys l = 0%nat.
Proof.
  induction 1 as [|c l Hc _ IH]; [done|]. simpl. rewrite IH. by destruct c.
Qed.

(** Property X7.  When [_fetch_rendered_inner] creates the driver
    itself, every run that comes back has either quit the driver
    exactly once, as its last call, with the result of the stages
    unchanged even if [quit] raises; or it has raised before there was
    a driver, having issued nothing but the calls that open the
    session. *)
Theorem owned_driver_is_quit_after_use W url kw plt sct s r s' :
  _fetch_rendered_inner W url kw None plt sct s = (r, s') -> r <> Hang ->
  exists ev, events s' = events s ++ ev /\
    ((exists used s1 s3,
        calls_of ev = used ++ [Quit] /\ count_calls destroys used = 0%nat /\
        stages W url kw plt sct s1 = (r, s3)) \/
     (Forall (fun c => launches c = true) (calls_of ev) /\ exists e, r = Exc e)).
Proof.
  unfold _fetch_rendered_inner. intros E Hr.
  pose proof (launches_profile_plan (profile_dir kw)) as HF.
  apply bind_inv in E as [(o & s0 & E0 & E) | [(e & E0 & ->) | [E0 ->]]]; [| |done].
  2: { destruct (emits_build_chrome_options _ _ _ _ _ _ _ _ _ E0)
         as (ev & p & Hev & -> & [k Hk] & _).
       exists ev. split; [done|]. right. split; [|by eexists].
       rewrite Hk in HF. by apply Forall_app in HF as [? _]. }
  destruct (emits_build_chrome_options _ _ _ _ _ _ _ _ _ E0)
    as (ev0 & p0 & Hev0 & -> & _ & Hv0). specialize (Hv0 I).
  cbn [negb is_Some_b] in E.
  destruct (ask W (NewChrome o) s0) as [[v|e|] s1] eqn:E1;
    pose proof (ask_events _ _ _ _ E1) as Hev1.
  - unfold try_finally in E.
    destruct (stages W url kw plt sct s1) as [r1 s3] eqn:E3.
    destruct (emits_stages _ _ _ _ _ _ _ _ E3) as (ev3 & p & Hev3 & Hp & Hpre & _).
    destruct (cleanup_owned_run W s3) as (rc & Ec & Hrc).
    assert (Hused : count_calls destroys
                      (profile_plan (profile_dir kw) ++ [NewChrome o] ++ calls_of ev3)
                    = 0%nat).
    { rewrite !count_calls_app, (count_destroys_opening _ HF). simpl.
      pose proof (count_calls_prefix destroys _ _ Hpre) as Hle.
      rewrite (count_stage_calls destroys url kw plt sct p ltac:(by intros [])) in Hle;
        try done. lia. }
    destruct r1 as [a|e|]; [| | by injection E as <- <-].
    + rewrite Ec in E. destruct Hrc as [-> | ->]; injection E as <- <-; [|done].
      eexists. split.
      { simpl. rewrite Hev3, Hev1, Hev0, <- !app_assoc. reflexivity. }
      left. exists (profile_plan (profile_dir kw) ++ [NewChrome o] ++ calls_of ev3), s1, s3.
      rewrite !calls_of_app, Hv0. simpl. rewrite <- !app_assoc. done.
    + rewrite Ec in E. destruct Hrc as [-> | ->]; injection E as <- <-; [|done].
      eexists. split.
      { simpl. rewrite Hev3, Hev1, Hev0, <- !app_assoc. reflexivity. }
      left. exists (profile_plan (profile_dir kw) ++ [NewChrome o] ++ calls_of ev3), s1, s3.
      rewrite !calls_of_app, Hv0. simpl. rewrite <- !app_assoc. done.
  - unfold try_finally, raise, cleanup in E. cbn [is_Some_b andb] in E.
    injection E as <- <-. eexists. split.
    { rewrite Hev1, Hev0, <- app_assoc. reflexivity. }
    right. split; [|by eexists]. rewrite calls_of_app, Hv0.
    apply Forall_app. split; [done | by repeat constructor].
  - by injection E as <- <-.
Qed.

Lemma owned_driver_is_quit_after_use_witness :
  exists ev,
    events (_fetch_rendered_inner stubborn_world "http://example" no_wait None 30 15
              start_state).2 = events start_state ++ ev /\
    ((exists used s1 s3,
        calls_of ev = used ++ [Quit] /\ count_calls destroys used = 0%nat /\
        stages stubborn_world "http://example" no_wait 30 15 s1
        = ((_fetch_rendered_inner stubborn_world "http://example" no_wait None 30 15
              start_state).1, s3)) \/
     (Forall (fun c => launches c = true) (calls_of ev) /\
      exists e, (_fetch_rendered_inner stubborn_world "http://example" no_wait None 30 15
                   start_state).1 = Exc e)).
Proof.
  apply (owned_driver_is_quit_after_use stubborn_world "http://example" no_wait 30 15
           start_state).
  - apply surjective_pairing.
  - by vm_compute.
Defined.

(** ** What is logged of a typed value *)

Lemma take_prefix n s : String.prefix (Str.take n s) s = true.
Proof.
  unfold Str.take. revert s. induction n as [|n IH]; intros s.
  - by destruct s.
  - destruct s as [|c s]; [done|]. simpl.
    destruct (ascii_dec c c); [apply IH | done].
Qed.

Lemma take_length n s : String.length (Str.take n s) = Nat.min n (String.length s).
Proof.
  unfold Str.take. revert s. induction n as [|n IH]; intros s.
  - by destruct s.
  - destruct s as [|c s]; [done|]. simpl. by rewrite IH.
Qed.

(** Property X8.  A type action that succeeds writes the typed value
    to stderr in clear: its first twenty characters, or all of it when
    it is no longer, with the ellipsis exactly when something was cut
    off. *)
Theorem typed_value_is_logged W selector value s s' :
  type_attempt W selector value s = (Val tt, s') ->
  exists shown ellipsis,
    prints_of (events s') = prints_of (events s) ++ [LogType selector shown ellipsis] /\
    String.prefix shown value = true /\
    String.length shown = Nat.min 20 (String.length value) /\
    (ellipsis = true <-> (String.length shown < String.length value)%nat).
Proof.
  unfold type_attempt, bind, ask, print. intros E.
  exists (Str.take 20 value), (20 <? String.length value)%nat.
  repeat match type of E with
         | context [respond W ?h ?c] => destruct (respond W h c); try discriminate E
         end.
  injection E as <-. simpl. rewrite !prints_of_app. simpl. rewrite !app_nil_r.
  split; [done|]. split; [apply take_prefix|]. rewrite take_length.
  split; [done|]. destruct (Nat.ltb_spec 20 (String.length value)); split; try done; lia.
Qed.

Lemma typed_value_is_logged_witness :
  exists shown ellipsis,
    prints_of (events (type_attempt quick_world "#password"
                         "correct horse battery staple" start_state).2)
    = prints_of (events start_state) ++ [LogType "#password" shown ellipsis] /\
    String.prefix shown "correct horse battery staple" = true /\
    String.length shown = Nat.min 20 (String.length "correct horse battery staple") /\
    (ellipsis = true <->
     (String.length shown < String.length "correct horse battery staple")%nat).
Proof.
  apply (typed_value_is_logged quick_world "#password" "correct horse battery staple"
           start_state). reflexivity.
Defined.

(** ** Log entries that are not what the loops expect *)

Lemma network_loop_stops W acc l1 bad l2 e :
  network_entry W bad = Err e -> skipped e = false ->
  Forall (fun x => forall e', network_entry W x = Err e' -> skipped e' = true) l1 ->
  network_loop W acc (l1 ++ bad :: l2) = Err e.
Proof.
  intros Hbad Hskip Hl1. revert acc.
  induction Hl1 as [|x l1 Hx _ IH]; intros acc; simpl.
  - by rewrite Hbad, Hskip.
  - destruct (network_entry W x) as [[r|]|e']; auto.
    by rewrite (Hx e' eq_refl).
Qed.

(** Property X9.  Only [JSONDecodeError] and [KeyError] are skipped in
    the loop over the performance log: any other exception raised for
    an entry ends the loop, and with it the fetch, with that exception,
    whatever was collected before and whatever follows.  Such are an
    entry that is not an object ([TypeError]), a message that decodes
    to something other than an object ([TypeError]), and a decoded
    object whose [message] is not an object ([AttributeError]). *)
Theorem unskipped_error_ends_collection W :
  (forall acc l1 bad l2 e,
     network_entry W bad = Err e ->
     exn_cls e <> JSONDecodeError -> exn_cls e <> KeyError ->
     Forall (fun x => forall e', network_entry W x = Err e' -> skipped e' = true) l1 ->
     network_loop W acc (l1 ++ bad :: l2) = Err e) /\
  (forall entry, is_dict entry = false ->
     exists e, network_entry W entry = Err e /\ exn_cls e = TypeError) /\
  (forall d text v,
     dict_lookup d "message" = Some (PStr text) -> json_loads W text = Some v ->
     is_dict v = false ->
     exists e, network_entry W (PDict d) = Err e /\ exn_cls e = TypeError) /\
  (forall d text d' msg,
     dict_lookup d "message" = Some (PStr text) -> json_loads W text = Some (PDict d') ->
     dict_lookup d' "message" = Some msg -> is_dict msg = false ->
     exists e, network_entry W (PDict d) = Err e /\ exn_cls e = AttributeError).
Proof.
  split; [|split; [|split]].
  - intros acc l1 bad l2 e Hbad H1 H2 Hl1. apply network_loop_stops; [done | | done].
    unfold skipped. by destruct (exn_cls e).
  - intros entry Hentry. unfold network_entry, getitem.
    destruct entry; try discriminate Hentry; by eexists.
  - intros d text v Hd Hj Hv. unfold network_entry, getitem. rewrite Hd. simpl.
    rewrite Hj. simpl. destruct v; try discriminate Hv; by eexists.
  - intros d text d' msg Hd Hj Hd' Hmsg. unfold network_entry, getitem. rewrite Hd. simpl.
    rewrite Hj. simpl. rewrite Hd'. simpl.
    destruct msg; try discriminate Hmsg; by eexists.
Qed.

Lemma unskipped_error_ends_collection_witness :
  exists e,
    network_loop array_world []
      ([PDict [("level", PStr "INFO")]] ++ PDict [("message", PStr "[]")]
         :: [PDict [("message", PStr "{}")]]) = Err e /\
    exn_cls e = TypeError.
Proof.
  destruct (unskipped_error_ends_collection array_world) as (Hstop & _ & Harray & _).
  destruct (Harray [("message", PStr "[]")] "[]" (PList []) eq_refl eq_refl eq_refl)
    as (e & He & Hcls).
  exists e. split; [|exact Hcls].
  apply Hstop; [exact He | by rewrite Hcls | by rewrite Hcls |].
  repeat constructor. by intros e' [= <-].
Defined.

Lemma network_entry_collected W entry r :
  network_entry W entry = Ok (Some r) -> collected r.
Proof.
  unfold network_entry. intros E.
  repeat match type of E with
         | py_bind ?m _ = _ => destruct m; simpl in E; try discriminate
         | (if ?c then _ else _) = _ => destruct c; simpl in E; try discriminate
         end.
  all: injection E as <-; unfold collected, request_record, response_record;
    first [left; by eexists _, _, _ | right; by eexists _, _, _, _].
Qed.

Lemma network_lines_collected requests :
  Forall collected requests ->
  if forallb headers_ok requests
  then exists lines, network_lines requests = Ok lines /\ length lines = length requests
  else exists e, network_lines requests = Err e /\ exn_cls e = AttributeError.
Proof.
  induction 1 as [|r requests Hr _ IH]; [by exists []|].
  cbn [forallb].
  destruct Hr as [(url & meth & rt & ->) | (url & status & mime & headers & ->)].
  - cbn. destruct (forallb headers_ok requests).
    + destruct IH as (lines & -> & Hlen). eexists. split; [reflexivity|]. simpl. by rewrite Hlen.
    + destruct IH as (e & -> & Hcls). by exists e.
  - destruct headers; cbn; try by eexists.
    destruct (forallb headers_ok requests).
    + destruct IH as (lines & -> & Hlen). cbn.
      eexists. split; [reflexivity|]. simpl. by rewrite Hlen.
    + destruct IH as (e & -> & Hcls). by exists e.
Qed.

(** Property X10.  [format_network_requests] reads of each record
    exactly the keys the loop over the performance log has written:
    applied to what [collect_network] returned it never raises
    [KeyError] or [TypeError], and gives one line for each record; it
    fails, with [AttributeError], exactly when some response came with
    [headers] that are not an object. *)
Theorem collected_requests_format W perf_logs requests :
  collect_network W perf_logs = Ok requests ->
  if forallb headers_ok requests
  then exists lines,
         format_network_requests requests = Ok lines /\ length lines = length requests
  else exists e,
         format_network_requests requests = Err e /\ exn_cls e = AttributeError.
Proof.
  intros E. apply network_lines_collected.
  unfold collect_network in E. destruct (iterate perf_logs) as [entries|]; [|done].
  simpl in E. apply network_loop_ok in E as ->. simpl.
  apply Forall_forall. intros r Hr. apply list_elem_of_omap in Hr as (entry & _ & Hr).
  unfold record_of in Hr. destruct (network_entry W entry) as [[r'|]|] eqn:E; try done.
  injection Hr as ->. by eapply network_entry_collected.
Qed.

Lemma collected_requests_format_witness :
  exists lines,
    format_network_requests
      [request_record (PStr "http://example/") (PStr "GET") (PStr "Document");
       response_record (PStr "http://example/") (PInt 200) (PStr "text/html") (PDict [])]
    = Ok lines /\ length lines = 2%nat.
Proof.
  exact (collected_requests_format logging_world
           (PList [PDict [("message", PStr "request")];
                   PDict [("message", PStr "{truncated")];
                   PDict [("level", PStr "INFO")];
                   PDict [("message", PStr "response")]])
           _ eq_refl).
Defined.

(** Property X11.  [format_console_logs] gives one line for each entry
    of the log, in the order of the log, with [INFO] for a missing
    level and the empty text for a missing message; it fails, with
    [AttributeError], exactly when some entry is not an object, and
    with [TypeError] when the log is [None]. *)
Theorem console_log_lines entries :
  (if forallb is_dict entries
   then format_console_logs (PList entries) = Ok (map console_line entries)
   else exists e, format_console_logs (PList entries) = Err e /\
                  exn_cls e = AttributeError) /\
  (exists e, format_console_logs PNone = Err e /\ exn_cls e = TypeError).
Proof.
  split; [|by eexists].
  unfold format_console_logs. cbn [iterate py_bind].
  induction entries as [|entry entries IH]; [done|].
  cbn [forallb map console_lines].
  destruct entry; cbn; try by eexists.
  destruct (forallb is_dict entries).
  - by rewrite IH.
  - destruct IH as (e & -> & Hcls). by exists e.
Qed.

(** ** The argument loop *)

Lemma substring_all s : String.substring 0 (String.length s) s = s.
Proof. induction s as [|c s IH]; [done|]. simpl. by rewrite IH. Qed.

Lemma append_cons c p t : String c p +:+ t = String c (p +:+ t).
Proof. reflexivity. Qed.

Lemma append_nil t : "" +:+ t = t.
Proof. reflexivity. Qed.

Lemma prefix_append p t : String.prefix p (p +:+ t) = true.
Proof.
  induction p as [|c p IH]; [by destruct t|].
  rewrite append_cons. simpl. destruct (ascii_dec c c); [apply IH | done].
Qed.

Lemma prefix_split p s :
  String.prefix p s = true ->
  s = p +:+ String.substring (String.length p) (String.length s - String.length p) s.
Proof.
  revert s. induction p as [|c p IH]; intros s; simpl.
  - intros _. by rewrite append_nil, Nat.sub_0_r, substring_all.
  - destruct s as [|c' s]; simpl; [done|]. destruct (ascii_dec c c') as [<-|]; [|done].
    intros H. rewrite append_cons. f_equal. by apply IH.
Qed.

Lemma split1_empty sep :
  Str.split1 sep "" = if String.prefix sep "" then Some ("", "") else None.
Proof. by destruct sep. Qed.

Lemma split1_some sep s a b :
  Str.split1 sep s = Some (a, b) -> s = a +:+ sep +:+ b.
Proof.
  revert a. induction s as [|c s IH]; intros a.
  - rewrite split1_empty. destruct (String.prefix sep "") eqn:Hp; [|done].
    intros [= <- <-]. by destruct sep.
  - cbn [Str.split1]. destruct (String.prefix sep (String c s)) eqn:Hp.
    + intros [= <- <-]. by apply prefix_split in Hp.
    + destruct (Str.split1 sep s) as [[a0 b0]|]; [|done].
      intros [= <- <-]. rewrite append_cons. f_equal. by apply IH.
Qed.

Lemma split1_leftmost sep s a b a' b' :
  Str.split1 sep s = Some (a, b) -> s = a' +:+ sep +:+ b' ->
  (String.length a <= String.length a')%nat.
Proof.
  revert a a'. induction s as [|c s IH]; intros a a'.
  - rewrite split1_empty. destruct (String.prefix sep ""); [|done].
    intros [= <- <-] _. simpl. lia.
  - cbn [Str.split1]. destruct (String.prefix sep (String c s)) eqn:Hp.
    + intros [= <- <-] _. simpl. lia.
    + destruct (Str.split1 sep s) as [[a0 b0]|] eqn:E; [|done].
      intros [= <- <-] Hs. destruct a' as [|c' a'].
      * rewrite append_nil in Hs. rewrite Hs, prefix_append in Hp. done.
      * rewrite append_cons in Hs. injection Hs as -> Hs. simpl.
        pose proof (IH a0 a' eq_refl Hs). lia.
Qed.

Lemma split1_none sep s a b :
  Str.split1 sep s = None -> s <> a +:+ sep +:+ b.
Proof.
  revert a. induction s as [|c s IH]; intros a.
  - rewrite split1_empty. destruct (String.prefix sep "") eqn:Hp; [done|].
    intros _ Hs. destruct a; [|done]. rewrite append_nil in Hs.
    by rewrite Hs, prefix_append in Hp.
  - cbn [Str.split1]. destruct (String.prefix sep (String c s)) eqn:Hp; [done|].
    destruct (Str.split1 sep s) as [[a0 b0]|] eqn:E; [done|].
    intros _ Hs. destruct a as [|c' a].
    + rewrite append_nil in Hs. by rewrite Hs, prefix_append in Hp.
    + rewrite append_cons in Hs. injection Hs as -> Hs. by apply (IH a).
Qed.

(** One round of the loop at [--type]. *)
Lemma parse_args_type W v rest o :
  parse_args W ("--type" :: v :: rest) o =
  match Str.split1 "::" v with
  | Some (selector, value) =>
      parse_args W rest (set_type_actions (cli_type_actions o ++ [(selector, value)]) o)
  | None => bind (print LogTypeFormat) (fun _ => parse_args W rest o)
  end.
Proof. reflexivity. Qed.

(** Property X12.  [--type SEL::VALUE] is split at the first [::]:
    selector and value put together again with [::] between them are
    the argument, no shorter selector would do, so that the value may
    itself contain [::]; the pair is appended to the type actions.  An
    argument without [::] is reported on stderr and dropped, and the
    loop goes on. *)
Theorem type_argument_is_split_at_first_separator W v rest o :
  match Str.split1 "::" v with
  | Some (selector, value) =>
      v = selector +:+ "::" +:+ value /\
      (forall a b, v = a +:+ "::" +:+ b -> (String.length selector <= String.length a)%nat) /\
      parse_args W ("--type" :: v :: rest) o =
      parse_args W rest (set_type_actions (cli_type_actions o ++ [(selector, value)]) o)
  | None =>
      (forall a b, v <> a +:+ "::" +:+ b) /\
      parse_args W ("--type" :: v :: rest) o =
      bind (print LogTypeFormat) (fun _ => parse_args W rest o)
  end.
Proof.
  rewrite parse_args_type.
  destruct (Str.split1 "::" v) as [[selector value]|] eqn:E.
  - split; [by apply split1_some|]. split; [|done].
    intros a b Hs. exact (split1_leftmost _ _ _ _ _ _ E Hs).
  - split; [|done]. intros a b. by apply split1_none.
Qed.

(** Property X13.  An option that needs a value and comes last, with
    nothing after it, is ignored: no message, no error, the settings
    unchanged. *)
Theorem trailing_option_is_ignored W opt o s :
  opt ∈ value_options -> parse_args W [opt] o s = (Val o, s).
Proof.
  unfold value_options. intros H.
  repeat (apply elem_of_cons in H as [-> | H]; [reflexivity|]).
  by apply elem_of_nil in H.
Qed.

Lemma trailing_option_is_ignored_witness :
  parse_args quick_world ["--timeout"] cli_initial start_state = (Val cli_initial, start_state).
Proof.
  apply (trailing_option_is_ignored quick_world "--timeout").
  unfold value_options. set_solver.
Defined.

(** One round of the loop at an argument that is no option. *)
Lemma parse_args_word W arg rest o :
  Str.startswith "-" arg = false ->
  parse_args W (arg :: rest) o = parse_args W rest (set_url (Some arg) o).
Proof.
  intros H.
  enough (Hstep : Str.startswith "-" arg = false ->
                  parse_args W (arg :: rest) o =
                  if negb (Str.startswith "-" arg)
                  then parse_args W rest (set_url (Some arg) o)
                  else parse_args W rest o) by (by rewrite Hstep, H).
  clear H.
  destruct arg as [|[b0 b1 b2 b3 b4 b5 b6 b7] arg]; [reflexivity|].
  destruct b0; [|reflexivity]. destruct b1; [reflexivity|].
  destruct b2; [|reflexivity]. destruct b3; [|reflexivity].
  destruct b4; [reflexivity|]. destruct b5; [|reflexivity].
  destruct b6; [reflexivity|]. destruct b7; [reflexivity|].
  intros H. by destruct arg.
Qed.

(** Property X14.  Every argument that does not start with a dash is
    taken as the URL, each replacing the one before: of several URLs
    the last is fetched and the others are dropped without a word. *)
Theorem last_plain_argument_is_the_url W args o s :
  Forall (fun a => Str.startswith "-" a = false) args ->
  parse_args W args o s =
  (Val (match last args with Some u => set_url (Some u) o | None => o end), s).
Proof.
  intros H. revert o. induction H as [|a rest Ha _ IH]; intros o; [done|].
  rewrite parse_args_word by done. rewrite IH.
  rewrite (last_cons a rest). by destruct (last rest).
Qed.

Lemma last_plain_argument_is_the_url_witness :
  parse_args quick_world ["http://first"; "http://second"] cli_initial start_state =
  (Val (set_url (Some "http://second") cli_initial), start_state).
Proof.
  apply (last_plain_argument_is_the_url quick_world ["http://first"; "http://second"]).
  by repeat constructor.
Defined.

(** ** The memory check in numbers *)

(** [float(p * 2^e)] for an integer of at most 53 digits: the mantissa
    is [p] shifted to 53 digits, and nothing is lost. *)
Lemma binary_round_shifted (sx : bool) (p : positive) (d e : Z) :
  2 ^ (d - 1) <= Z.pos p < 2 ^ d -> 1 <= d <= 53 -> -1021 <= d + e <= 1024 ->
  binary_round 53 1024 sx p e =
  S754_finite sx (Z.to_pos (Z.pos p * 2 ^ (53 - d))) (d + e - 53).
Proof.
  intros Hp Hd He. unfold binary_round.
  rewrite (digits2_pos_bounds p d Hp), fexp_normal by lia.
  unfold shl_align. replace (d + e - 53 - e) with (d - 53) by lia.
  assert (Hpow : 2 ^ 52 = 2 ^ (d - 1) * 2 ^ (53 - d)).
  { rewrite <- Z.pow_add_r by lia. f_equal. lia. }
  assert (Hpow' : 2 ^ 53 = 2 ^ d * 2 ^ (53 - d)).
  { rewrite <- Z.pow_add_r by lia. f_equal. lia. }
  assert (0 < 2 ^ (53 - d)) by (apply Z.pow_pos_nonneg; lia).
  destruct (d - 53) as [|k|k] eqn:Ek; try lia.
  - replace (53 - d) with 0 in * by lia. rewrite Z.pow_0_r in *.
    rewrite Z.mul_1_r. cbn [Z.to_pos]. replace (d + e - 53) with e by lia.
    apply binary_round_aux_exact; lia.
  - replace (53 - d) with (Z.pos k) in * by lia.
    rewrite <- iter_xO. cbn [Z.to_pos].
    apply binary_round_aux_exact; [rewrite iter_xO; nia | lia].
Qed.

(** [kb / 1024 < 512] for an amount of memory that a double holds
    exactly. *)
Lemma div_1024_below_threshold kb :
  - 2 ^ 53 < kb < 2 ^ 53 ->
  exists mb, div_1024 kb = Ok mb /\ SFltb mb _CHROME_MEM_WARN_MB = (kb <? 524288).
Proof.
  intros Hkb. unfold div_1024, binary_normalize, Float.prec, Float.emax.
  destruct kb as [|p|p].
  - by eexists.
  - destruct (digits_exist (Z.pos p) ltac:(lia)) as (d & Hd1 & Hd).
    assert (Hd53 : d <= 53) by (apply (digits_below (Z.pos p)); lia).
    rewrite (binary_round_shifted false p d (-10)) by lia.
    eexists. split; [reflexivity|].
    unfold SFltb, SFcompare, _CHROME_MEM_WARN_MB.
    assert (Hpow : 2 ^ 52 = 2 ^ (d - 1) * 2 ^ (53 - d)).
    { rewrite <- Z.pow_add_r by lia. f_equal. lia. }
    assert (0 < 2 ^ (53 - d)) by (apply Z.pow_pos_nonneg; lia).
    change 524288 with (2 ^ 19).
    destruct (Z.compare_spec (d + -10 - 53) (-43)) as [E|E|E].
    + assert (d = 20) by lia. subst d.
      assert (Hm : 2 ^ 52 <= Z.pos p * 2 ^ (53 - 20)) by nia.
      destruct (Z.ltb_spec (Z.pos p) (2 ^ 19)); [change (20 - 1) with 19 in Hd; lia|].
      rewrite Pos.compare_cont_spec. unfold Pos.switch_Eq.
      destruct (Pos.compare_spec (Z.to_pos (Z.pos p * 2 ^ (53 - 20))) 4503599627370496)
        as [E'|E'|E']; try done.
      apply Pos2Z.pos_lt_pos in E'. rewrite Z2Pos.id in E' by lia.
      change (Z.pos 4503599627370496) with (2 ^ 52) in E'. lia.
    + destruct (Z.ltb_spec (Z.pos p) (2 ^ 19)); [done|].
      assert (2 ^ d <= 2 ^ 19) by (apply Z.pow_le_mono_r; lia). lia.
    + destruct (Z.ltb_spec (Z.pos p) (2 ^ 19)); [|done].
      assert (2 ^ 20 <= 2 ^ (d - 1)) by (apply Z.pow_le_mono_r; lia).
      change (2 ^ 20) with (2 * 2 ^ 19) in *. lia.
  - destruct (digits_exist (Z.pos p) ltac:(lia)) as (d & Hd1 & Hd).
    assert (Hd53 : d <= 53) by (apply (digits_below (Z.pos p)); lia).
    rewrite (binary_round_shifted true p d (-10)) by lia.
    eexists. split; [reflexivity|]. by destruct (Z.ltb_spec (Z.neg p) 524288); [|lia].
Qed.

(** Property X15.  The warning of the memory check is printed exactly
    when the kilobytes read from /proc/meminfo, [MemAvailable] or
    failing that [MemFree] or failing that 0, are fewer than 524288,
    that is 512 MB: the division by 1024 and the comparison in floating
    point lose nothing. *)
Theorem memory_warning_threshold W lines meminfo :
  proc_meminfo W = Ok lines -> read_meminfo ∅ lines = Ok meminfo ->
  - 2 ^ 53 < available_kb meminfo < 2 ^ 53 ->
  exists mb,
    div_1024 (available_kb meminfo) = Ok mb /\
    mem_warning W =
    Ok (if available_kb meminfo <? 524288 then Some (LogMemWarn mb) else None).
Proof.
  intros Hlines Hread Hkb.
  destruct (div_1024_below_threshold _ Hkb) as (mb & Hdiv & Hlt).
  exists mb. split; [done|].
  unfold mem_warning. rewrite Hlines. cbn [py_bind]. rewrite Hread. cbn [py_bind].
  fold (available_kb meminfo). rewrite Hdiv. cbn [py_bind]. rewrite Hlt.
  by destruct (available_kb meminfo <? 524288).
Qed.

Lemma memory_warning_threshold_witness :
  (exists mb,
     mem_warning (with_meminfo quick_world
                    (Ok ["MemFree:  9000000 kB"; "MemAvailable:  524287 kB"]))
     = Ok (Some (LogMemWarn mb))) /\
  mem_warning (with_meminfo quick_world
                 (Ok ["MemFree:  100 kB"; "MemAvailable:  524288 kB"])) = Ok None.
Proof.
  split.
  - destruct (memory_warning_threshold
                (with_meminfo quick_world
                   (Ok ["MemFree:  9000000 kB"; "MemAvailable:  524287 kB"]))
                _ _ eq_refl eq_refl) as (mb & _ & H).
    + by vm_compute.
    + exists mb. exact H.
  - destruct (memory_warning_threshold
                (with_meminfo quick_world
                   (Ok ["MemFree:  100 kB"; "MemAvailable:  524288 kB"]))
                _ _ eq_refl eq_refl) as (mb & _ & H).
    + by vm_compute.
    + exact H.
Defined.

Lemma read_meminfo_bad meminfo lines :
  existsb bad_meminfo_line lines = true -> exists e, read_meminfo meminfo lines = Err e.
Proof.
  revert meminfo. induction lines as [|line lines IH]; intros meminfo; [done|].
  cbn [existsb read_meminfo]. unfold bad_meminfo_line.
  destruct (Str.split1 ":" line) as [[key val]|]; [|by eexists].
  destruct (Str.first_word val) as [w|]; [|by eexists].
  destruct (PyInt.parse w) as [n|e]; [|by eexists].
  cbn [orb py_bind]. apply IH.
Qed.

(** Property X16.  One line of /proc/meminfo that the loop cannot read,
    be it without a colon, with nothing after the colon or with
    something that is no integer there, and the whole check is given
    up in silence: nothing is printed, however little memory the other
    lines report. *)
Theorem unreadable_line_silences_memory_check W lines s :
  proc_meminfo W = Ok lines -> existsb bad_meminfo_line lines = true ->
  mem_check W s = (Val tt, s) /\ exists e, mem_warning W = Err e.
Proof.
  intros Hlines Hbad.
  destruct (read_meminfo_bad ∅ lines Hbad) as [e He].
  assert (Hw : mem_warning W = Err e).
  { unfold mem_warning. rewrite Hlines. cbn [py_bind]. by rewrite He. }
  split; [|by exists e]. unfold mem_check. by rewrite Hw.
Qed.

Lemma unreadable_line_silences_memory_check_witness :
  mem_check (with_meminfo quick_world (Ok ["MemAvailable:  1000 kB"; ""; "MemFree: 1000 kB"]))
    start_state = (Val tt, start_state).
Proof.
  apply (unreadable_line_silences_memory_check
           (with_meminfo quick_world (Ok ["MemAvailable:  1000 kB"; ""; "MemFree: 1000 kB"]))
           ["MemAvailable:  1000 kB"; ""; "MemFree: 1000 kB"] start_state eq_refl).
  reflexivity.
Defined.

(** ** The derived timeouts at their ends *)

(** Property X17.  For a total timeout from 0 up to [2^50] seconds the
    two derived sub-timeouts are not negative and together no longer
    than the total; the script timeout is at most 15; the page-load
    timeout is 0 for a total under two seconds, and the script timeout
    is 0 for a total under four. *)
Theorem derived_timeouts_within_budget (total_timeout : Z) :
  0 <= total_timeout < 2 ^ 50 ->
  exists page_load script,
    derived_page_load_timeout total_timeout = Ok page_load /\
    derived_script_timeout total_timeout = Ok script /\
    0 <= page_load /\ 0 <= script <= 15 /\ page_load + script <= total_timeout /\
    (page_load = 0 <-> total_timeout < 2) /\ (script = 0 <-> total_timeout < 4).
Proof.
  intros HT. destruct (derived_timeouts_small total_timeout ltac:(lia)) as [-> ->].
  eexists _, _. split; [reflexivity|]. split; [reflexivity|].
  rewrite !Z.quot_div_nonneg by lia.
  pose proof (Z.div_mod (3 * total_timeout) 5 ltac:(lia)).
  pose proof (Z.mod_pos_bound (3 * total_timeout) 5 ltac:(lia)).
  pose proof (Z.div_mod total_timeout 4 ltac:(lia)).
  pose proof (Z.mod_pos_bound total_timeout 4 ltac:(lia)).
  lia.
Qed.

Lemma derived_timeouts_within_budget_witness :
  exists page_load script,
    derived_page_load_timeout 1 = Ok page_load /\
    derived_script_timeout 1 = Ok script /\
    0 <= page_load /\ 0 <= script <= 15 /\ page_load + script <= 1 /\
    (page_load = 0 <-> 1 < 2) /\ (script = 0 <-> 1 < 4).
Proof. apply (derived_timeouts_within_budget 1). lia. Defined.

(** Rounding a mantissa of more than 1024 digits: out of range. *)
Lemma binary_round_aux_overflow (sx : bool) (P : positive) (D : Z) :
  2 ^ (D - 1) <= Z.pos P < 2 ^ D -> 1025 <= D ->
  binary_round_aux 53 1024 sx (Z.pos P) 0 loc_Exact = S754_infinity sx.
Proof.
  intros HP HD. unfold binary_round_aux, shr_fexp.
  cbn [Zdigits2 shr_record_of_loc]. rewrite (digits2_pos_bounds P D HP).
  rewrite fexp_normal by lia.
  replace (D + 0 - 53 - 0) with (D - 53) by lia.
  rewrite shr_exact by lia. cbn [shr_m]. rewrite round_even_location.
  set (n := D - 53). set (m1 := round_even (Z.pos P) n). cbv zeta.
  pose proof (round_even_bounds (Z.pos P) n ltac:(lia) ltac:(lia)) as Hm1. fold m1 in Hm1.
  assert (Hq : 2 ^ 52 <= Z.pos P / 2 ^ n < 2 ^ 53).
  { assert (Hpow : 2 ^ D = 2 ^ 53 * 2 ^ n).
    { rewrite <- Z.pow_add_r by lia. f_equal. lia. }
    assert (Hpow' : 2 ^ (D - 1) = 2 ^ 52 * 2 ^ n).
    { rewrite <- Z.pow_add_r by lia. f_equal. lia. }
    assert (0 < 2 ^ n) by (apply Z.pow_pos_nonneg; lia).
    split.
    - apply Z.div_le_lower_bound; lia.
    - apply Z.div_lt_upper_bound; lia. }
  destruct (Z.eq_dec m1 (2 ^ 53)) as [E|E].
  - rewrite E. change (2 ^ 53) with (Z.pos (2 ^ 53)). cbn [Zdigits2].
    rewrite (digits2_pos_bounds _ 54) by (split; [done | reflexivity]).
    rewrite fexp_normal by lia.
    replace (54 + (0 + n) - 53 - (0 + n)) with 1 by lia.
    cbn -[Z.add Z.leb Z.sub]. destruct (Z.leb_spec (0 + n + 1) (1024 - 53)); [lia | done].
  - assert (Hm1' : 2 ^ 52 <= m1 < 2 ^ 53) by lia.
    destruct m1 as [|p1|p1] eqn:Ep1; try lia.
    cbn [Zdigits2 shr_record_of_loc]. rewrite (digits2_pos_bounds p1 53) by done.
    rewrite fexp_normal by lia.
    replace (53 + (0 + n) - 53 - (0 + n)) with 0 by lia.
    cbn [shr shr_m Z.to_pos]. destruct (Z.leb_spec (0 + n) (1024 - 53)); [lia | done].
Qed.

Lemma of_int_overflow (T : Z) :
  2 ^ 1024 <= Z.abs T -> exists e, Float.of_int T = Err e /\ exn_cls e = OverflowError.
Proof.
  intros HT. unfold Float.of_int, binary_normalize, Float.prec, Float.emax.
  assert (Hround : forall sx p, 2 ^ 1024 <= Z.pos p ->
             binary_round 53 1024 sx p 0 = S754_infinity sx).
  { intros sx p Hp. destruct (digits_exist (Z.pos p) ltac:(lia)) as (d & Hd1 & Hd).
    assert (Hd1025 : 1025 <= d).
    { destruct (Z.le_gt_cases 1025 d); [done|].
      assert (2 ^ d <= 2 ^ 1024) by (apply Z.pow_le_mono_r; lia). lia. }
    unfold binary_round. rewrite (digits2_pos_bounds p d Hd), fexp_normal by lia.
    unfold shl_align. destruct (d + 0 - 53 - 0) as [|k|k] eqn:Ek; try lia.
    by apply (binary_round_aux_overflow sx p d). }
  destruct T as [|p|p]; [simpl in HT; lia | |]; rewrite Hround by (simpl in HT; lia);
    by eexists.
Qed.

(** Property X18.  The defaults of the two sub-timeouts are computed
    before it is known whether they are needed: a total timeout of
    [2^1024] seconds or more in magnitude, which no double holds,
    makes [fetch_with_timeout] raise [OverflowError] before anything is
    asked of the backend, also when both sub-timeouts were supplied by
    the caller. *)
Theorem huge_timeout_overflows W url total_timeout kw s :
  2 ^ 1024 <= Z.abs total_timeout ->
  exists e s',
    fetch_with_timeout W url total_timeout kw s = (Exc e, s') /\
    exn_cls e = OverflowError /\ calls_of (events s') = calls_of (events s).
Proof.
  intros HT. destruct (of_int_overflow total_timeout HT) as (e & He & Hcls).
  unfold fetch_with_timeout. unfold bind at 1.
  destruct (mem_check_run W s) as (ev0 & -> & Hev0).
  unfold derived_page_load_timeout, Float.int_mul. rewrite He. cbn [py_bind lift].
  exists e. eexists. split; [reflexivity|]. split; [done|].
  simpl. by rewrite calls_of_app, Hev0, app_nil_r.
Qed.

Lemma huge_timeout_overflows_witness :
  exists e s',
    fetch_with_timeout quick_world "http://example" (2 ^ 1024) both_supplied start_state
    = (Exc e, s') /\
    exn_cls e = OverflowError /\ calls_of (events s') = calls_of (events start_state).
Proof.
  apply (huge_timeout_overflows quick_world "http://example" (2 ^ 1024) both_supplied
           start_state).
  by vm_compute.
Defined.

(** ** From the entry points to the driver *)

(** A fetch that returns a page: the calls up to the navigation. *)
Lemma fetched_calls W url total_timeout kw s r s' :
  - 2 ^ 50 < total_timeout < 2 ^ 50 ->
  fetch_with_timeout W url total_timeout kw s = (Val r, s') ->
  exists ev o p,
    events s' = events s ++ ev /\ stdout_of ev = [] /\
    stage_plan url kw
      (default (Z.quot (3 * total_timeout) 5) (_page_load_timeout kw))
      (default (Z.min 15 (Z.quot total_timeout 4)) (_script_timeout kw)) p /\
    calls_of ev =
      profile_plan (profile_dir kw) ++ [NewChrome o] ++ profile_plan (profile_dir kw) ++ p.
Proof.
  intros HT E.
  destruct (steady_fetch_with_timeout _ _ _ _ _ _ _ E) as (_ & ev & Hev & Hout).
  exists ev.
  destruct (derived_timeouts_small total_timeout HT) as (Hplt & Hsct).
  unfold fetch_with_timeout in E. rewrite Hplt, Hsct in E. cbn [lift] in E.
  apply bind_val in E as ([] & s1 & E1 & E).
  destruct (mem_check_run W s) as (ev1 & E1' & Hc1). rewrite E1' in E1.
  injection E1 as <-.
  apply bind_val in E as (plt & s2 & [= <- <-] & E).
  apply bind_val in E as (sct & s3 & [= <- <-] & E).
  apply bind_val in E as (o & s4 & E4 & E).
  destruct (emits_build_chrome_options _ _ _ _ _ _ _ _ _ E4) as (ev4 & p4 & Hev4 & -> & _ & Hc4).
  specialize (Hc4 I).
  apply bind_val in E as (d & s5 & E5 & E).
  pose proof (ask_events _ _ _ _ E5) as Hev5.
  set (plt := default (Z.quot (3 * total_timeout) 5) (_page_load_timeout kw)) in *.
  set (sct := default (Z.min 15 (Z.quot total_timeout 4)) (_script_timeout kw)) in *.
  pose proof (race_val W url total_timeout kw plt sct s5) as Hrace. rewrite E in Hrace.
  destruct (Hrace I) as [Hinner _]. symmetry in Hinner. clear Hrace E.
  rename Hinner into E.
  destruct (emits_worker _ _ _ _ _ _ _ _ _ E) as (ev6 & p6 & Hev6 & Hp6 & _ & Hc6).
  specialize (Hc6 I). destruct Hp6 as (l1 & p & -> & -> & Hp).
  exists o, p. split; [done|]. split; [done|]. split; [done|].
  rewrite Hev6, Hev5, Hev4 in Hev. simpl in Hev. rewrite <- !app_assoc in Hev.
  apply app_inv_head in Hev. subst ev.
  rewrite !calls_of_app, Hc1, Hc4, Hc6. reflexivity.
Qed.

(** Property X19.  A fetch that returns a page has given the driver the
    two sub-timeouts before it navigated: the ones the caller supplied,
    or else three fifths and a quarter (at most 15) of the total
    timeout, truncated.  The calls are: the profile directory, the
    launch, the profile directory again, the window size, the two
    timeouts, and the navigation. *)
Theorem driver_receives_the_timeouts W url total_timeout kw s r s' :
  - 2 ^ 50 < total_timeout < 2 ^ 50 ->
  fetch_with_timeout W url total_timeout kw s = (Val r, s') ->
  exists ev o rest,
    events s' = events s ++ ev /\
    calls_of ev =
      profile_plan (profile_dir kw) ++ [NewChrome o] ++ profile_plan (profile_dir kw) ++
      [SetWindowSize (width kw) (PInt (height kw));
       SetPageLoadTimeout (default (Z.quot (3 * total_timeout) 5) (_page_load_timeout kw));
       SetScriptTimeout (default (Z.min 15 (Z.quot total_timeout 4)) (_script_timeout kw));
       Get url] ++ rest.
Proof.
  intros HT E.
  destruct (fetched_calls _ _ _ _ _ _ _ HT E) as (ev & o & p & Hev & _ & Hp & Hc).
  destruct Hp as (types & clicks & h & _ & _ & ->).
  exists ev, o. eexists. split; [done|]. rewrite Hc. reflexivity.
Qed.

Lemma driver_receives_the_timeouts_witness :
  exists ev o rest,
    events (fetch_with_timeout quick_world "http://example" 20 no_wait start_state).2
    = events start_state ++ ev /\
    calls_of ev =
      [NewChrome o] ++
      [SetWindowSize 1280 (PInt 900); SetPageLoadTimeout 12; SetScriptTimeout 5;
       Get "http://example"] ++ rest.
Proof.
  destruct (fetch_with_timeout quick_world "http://example" 20 no_wait start_state)
    as [r s'] eqn:E.
  assert (Hr : exists v, r = Val v).
  { vm_compute in E. injection E as <- _. by eexists. }
  destruct Hr as [v ->].
  exact (driver_receives_the_timeouts quick_world "http://example" 20 no_wait start_state
           v s' ltac:(lia) E).
Defined.

(** One round of the loop at [--only-screenshot]. *)
Lemma parse_args_only_screenshot W rest o :
  parse_args W ("--only-screenshot" :: rest) o =
  parse_args W rest (set_only_screenshot true o).
Proof. reflexivity. Qed.

Lemma word_is_not (arg lit : string) :
  Str.startswith "-" arg = false -> Str.startswith "-" lit = true ->
  String.eqb arg lit = false.
Proof.
  intros H1 H2. destruct (String.eqb_spec arg lit) as [->|]; [congruence | done].
Qed.

Lemma last_app_one {A} (l : list A) x : last (l ++ [x]) = Some x.
Proof. apply last_snoc. Qed.

(** Property X20.  [js-web-renderer URL --only-screenshot], with no
    [--screenshot], saves the screenshot to /tmp/screenshot.png: when
    the script ends with status 0, saving it there was the last call to
    the backend, the last line on stderr says so, and stdout is
    empty. *)
Theorem only_screenshot_goes_to_tmp W url s :
  Str.startswith "-" url = false -> url <> "" ->
  let run := main W ["js-web-renderer"; url; "--only-screenshot"] s in
  exit_status run = Some 0 ->
  exists ev,
    events run.2 = events s ++ ev /\
    last (calls_of ev) = Some (SaveScreenshot "/tmp/screenshot.png") /\
    last (prints_of ev) = Some (LogScreenshotSaved "/tmp/screenshot.png") /\
    stdout_of ev = [].
Proof.
  intros Hword Hurl run. subst run.
  assert (Htruthy : truthy_str (Some url) = true).
  { unfold truthy_str. by destruct (String.eqb_spec url ""). }
  set (o := set_only_screenshot true (set_url (Some url) cli_initial)).
  assert (Hparse : parse_args W (tail ["js-web-renderer"; url; "--only-screenshot"])
                     cli_initial s = (Val o, s)).
  { cbn [tail]. rewrite parse_args_word by exact Hword.
    rewrite parse_args_only_screenshot. reflexivity. }
  assert (Hhelp : asks_help ["js-web-renderer"; url; "--only-screenshot"] = false).
  { cbn [asks_help]. rewrite !word_is_not; done. }
  assert (Hlen : (2 <= length ["js-web-renderer"; url; "--only-screenshot"])%nat)
    by (simpl; lia).
  rewrite (main_parsed W _ s o s Hlen Hhelp Hparse).
  change (cli_url o) with (Some url). rewrite Htruthy. cbn [negb].
  destruct (cli_fetch W o s) as [[r|e|] s2] eqn:Efetch; cycle 1.
  { by destruct (exn_cls e). }
  { done. }
  unfold cli_fetch in Efetch.
  change (cli_screenshot o) with (Some "/tmp/screenshot.png") in *.
  change (default "" (cli_url o)) with url in Efetch.
  change (cli_total_timeout o) with 60 in Efetch.
  destruct (fetched_calls W url 60 _ s r s2 ltac:(lia) Efetch)
    as (ev & co & p & Hev & Hout & Hp & Hc).
  destruct Hp as (types & clicks & h & _ & _ & Hp).
  assert (Hlast : last (calls_of ev) = Some (SaveScreenshot "/tmp/screenshot.png")).
  { rewrite Hc, Hp. cbn [kwargs_of_cli screenshot_plan screenshot_path truthy_str].
    cbn [String.eqb Ascii.eqb Bool.eqb andb negb].
    rewrite !app_assoc.
    change [ExecuteScript "return document.body.scrollHeight";
            SetWindowSize (width (kwargs_of_cli o (Some "/tmp/screenshot.png"))) h;
            Sleep 500; SaveScreenshot "/tmp/screenshot.png"]
      with ([ExecuteScript "return document.body.scrollHeight";
             SetWindowSize (width (kwargs_of_cli o (Some "/tmp/screenshot.png"))) h;
             Sleep 500] ++ [SaveScreenshot "/tmp/screenshot.png"]).
    rewrite !app_assoc. apply last_snoc. }
  destruct r as [[html console_logs] network_requests].
  unfold report. cbn [truthy_str String.eqb Ascii.eqb Bool.eqb andb negb default].
  unfold bind, print. cbn [cli_only_screenshot o set_only_screenshot ret].
  intros _. eexists. split; [cbn [snd events record]; rewrite Hev, <- app_assoc; reflexivity|].
  rewrite calls_of_app, prints_of_app, stdout_of_app, Hout, app_nil_r.
  split; [exact Hlast|]. split; [|done]. apply last_snoc.
Qed.

Lemma only_screenshot_goes_to_tmp_witness :
  exists ev,
    events (main quick_world ["js-web-renderer"; "http://example"; "--only-screenshot"]
              start_state).2 = events start_state ++ ev /\
    last (calls_of ev) = Some (SaveScreenshot "/tmp/screenshot.png") /\
    last (prints_of ev) = Some (LogScreenshotSaved "/tmp/screenshot.png") /\
    stdout_of ev = [].
Proof.
  apply (only_screenshot_goes_to_tmp quick_world "http://example" start_state).
  - reflexivity.
  - done.
  - by vm_compute.
Defined.

(** Instances of the two properties of the formats and of the
    argument loop that have no premise. *)
Lemma console_log_lines_witness :
  format_console_logs (PList [PDict [("message", PStr "boom")]])
  = Ok [(PStr "INFO", PStr "boom")].
Proof. exact (proj1 (console_log_lines [PDict [("message", PStr "boom")]])). Defined.

Lemma type_argument_is_split_at_first_separator_witness :
  "#q::a::b" = "#q" +:+ "::" +:+ "a::b" /\
  parse_args quick_world ["--type"; "#q::a::b"] cli_initial =
  parse_args quick_world [] (set_type_actions (cli_type_actions cli_initial ++ [("#q", "a::b")])
                               cli_initial).
Proof.
  pose proof (type_argument_is_split_at_first_separator quick_world "#q::a::b" []
                cli_initial) as H.
  change (Str.split1 "::" "#q::a::b") with (Some ("#q", "a::b")) in H.
  destruct H as (H1 & _ & H2). split; [exact H1 | exact H2].
Defined.
